(** * Kiro account manager: local API proxy and protocol adapter

    Shallow embedding of the account-pool dispatcher of
    [src/main/kiro/proxy-server.ts] and of the Kiro adapter
    [claude-kiro.ts] ([KiroApiService]), with the properties of the
    design specification stated and settled against it. *)

From Stdlib Require Import ZArith Lia Bool List Ascii String.
From stdpp Require Import base option list gmap strings.
From Equations Require Import Equations.

Import ListNotations.
Set Warnings "-register-all,-clear-no-such-hyp".
Local Open Scope string_scope.
Local Open Scope Z_scope.

(** ** The JavaScript [Date] arithmetic used by the dispatcher

    [getNextMonthStartMs] goes through [Date]'s local-time fields.  The
    embedding follows the time-value algorithms of ECMAScript (Day,
    DayFromYear, YearFromTime, MonthFromTime, MakeDay, MakeDate, UTC).  The
    local time zone is a fixed offset [tza] in milliseconds (a zone with
    daylight-saving transitions is not modelled), and the range limit of
    time values (8.64e15 ms) is not modelled either. *)

Module JsDate.

Definition msPerDay : Z := 86400000.

Definition Day (t : Z) : Z := t / msPerDay.
Definition TimeWithinDay (t : Z) : Z := t mod msPerDay.

Definition DayFromYear (y : Z) : Z :=
  365 * (y - 1970) + (y - 1969) / 4 - (y - 1901) / 100 + (y - 1601) / 400.

(** 1 in a leap year, 0 otherwise. *)
Definition InLeapYear (y : Z) : Z :=
  if (y mod 4 =? 0) && (negb (y mod 100 =? 0) || (y mod 400 =? 0)) then 1 else 0.

(** The largest [y] with [DayFromYear y <= d]: an estimate from the mean
    length of a year, corrected by at most one. *)
Definition YearFromDay (d : Z) : Z :=
  let y := 1970 + (400 * d) / 146097 in
  if d <? DayFromYear y then y - 1
  else if DayFromYear (y + 1) <=? d then y + 1
  else y.

(** Day number, within its year, of the first day of month [m] (0-based);
    [m = 12] gives the length of the year. *)
Definition monthStart (leap m : Z) : Z :=
  if m <=? 0 then 0
  else if m =? 1 then 31
  else if m =? 2 then 59 + leap
  else if m =? 3 then 90 + leap
  else if m =? 4 then 120 + leap
  else if m =? 5 then 151 + leap
  else if m =? 6 then 181 + leap
  else if m =? 7 then 212 + leap
  else if m =? 8 then 243 + leap
  else if m =? 9 then 273 + leap
  else if m =? 10 then 304 + leap
  else if m =? 11 then 334 + leap
  else 365 + leap.

Definition MonthFromDayWithinYear (leap dwy : Z) : Z :=
  if dwy <? 31 then 0
  else if dwy <? 59 + leap then 1
  else if dwy <? 90 + leap then 2
  else if dwy <? 120 + leap then 3
  else if dwy <? 151 + leap then 4
  else if dwy <? 181 + leap then 5
  else if dwy <? 212 + leap then 6
  else if dwy <? 243 + leap then 7
  else if dwy <? 273 + leap then 8
  else if dwy <? 304 + leap then 9
  else if dwy <? 334 + leap then 10
  else 11.

Definition YearFromTime (t : Z) : Z := YearFromDay (Day t).
Definition DayWithinYear (t : Z) : Z := Day t - DayFromYear (YearFromTime t).
Definition MonthFromTime (t : Z) : Z :=
  MonthFromDayWithinYear (InLeapYear (YearFromTime t)) (DayWithinYear t).
Definition DateFromTime (t : Z) : Z :=
  DayWithinYear t
  - monthStart (InLeapYear (YearFromTime t)) (MonthFromTime t) + 1.

Definition MakeDay (year month date : Z) : Z :=
  let ym := year + month / 12 in
  let mn := month mod 12 in
  DayFromYear ym + monthStart (InLeapYear ym) mn + date - 1.

Definition MakeTime (hour min sec ms : Z) : Z :=
  hour * 3600000 + min * 60000 + sec * 1000 + ms.

Definition MakeDate (day time : Z) : Z := day * msPerDay + time.

(** Index of a month on the proleptic calendar, and the day on which the
    month of a given index starts. *)
Definition monthIndex (t : Z) : Z := 12 * YearFromTime t + MonthFromTime t.
Definition startDay (i : Z) : Z := MakeDay 0 i 1.

Section LocalZone.
(** Offset of local time from UTC, in milliseconds. *)
Variable tza : Z.

Definition LocalTime (t : Z) : Z := t + tza.
Definition UTC (t : Z) : Z := t - tza.

Definition getFullYear (t : Z) : Z := YearFromTime (LocalTime t).
Definition getMonth (t : Z) : Z := MonthFromTime (LocalTime t).
Definition getDate (t : Z) : Z := DateFromTime (LocalTime t).

(** [new Date(year, month, date, hours, minutes, seconds, ms).getTime()]:
    a year from 0 to 99 stands for 1900 + year. *)
Definition newDate (year month date hours minutes seconds ms : Z) : Z :=
  let yr := if (0 <=? year) && (year <=? 99) then 1900 + year else year in
  UTC (MakeDate (MakeDay yr month date) (MakeTime hours minutes seconds ms)).
End LocalZone.

End JsDate.

(** ** proxy-server.ts: [getNextMonthStartMs] *)

Definition getNextMonthStartMs (tza now : Z) : Z :=
  JsDate.newDate tza (JsDate.getFullYear tza now) (JsDate.getMonth tza now + 1)
                 1 0 0 0 0.


(** ** JavaScript values and string operations used by the sources

    Strings are sequences of bytes; the character classes of the regular
    expressions ([\s], [\w], the [i] flag) and [toLowerCase] are modelled
    on ASCII. *)

Module Js.

(** A thrown value: [error.response?.status], present when the error
    comes from an HTTP response, and the text
    [error?.message || String(error)]. *)
Record Error := mkError { err_status : option Z; err_message : string }.

(** [throw new Error(msg)]: no [response], hence no status. *)
Definition plainError (msg : string) : Error := mkError None msg.

Inductive Result (A : Type) : Type :=
| Ok (a : A)
| Throw (e : Error).
Arguments Ok {A} a.
Arguments Throw {A} e.

(** Parsed JSON.  Numbers are integers here. *)
Inductive JValue : Type :=
| JNull
| JBool (b : bool)
| JNum (n : Z)
| JStr (s : string)
| JArr (items : list JValue)
| JObj (fields : list (string * JValue)).

(** [typeof v === 'object' && v !== null] *)
Definition isObject (v : JValue) : bool :=
  match v with JArr _ | JObj _ => true | _ => false end.

(** Truthiness of a parsed value, as in [v || {}]. *)
Definition truthy (v : JValue) : bool :=
  match v with
  | JNull => false
  | JBool b => b
  | JNum n => negb (n =? 0)
  | JStr s => negb (s =? "")%string
  | JArr _ | JObj _ => true
  end.

(** Truthiness of a string: non-empty. *)
Definition nonEmpty (s : string) : bool := negb (s =? "")%string.

Definition ascii_eqb (a b : ascii) : bool := Ascii.eqb a b.

(** The double quote, and a string between double quotes. *)
Definition doubleQuote : ascii := "034".
Definition quoted (s : string) : string :=
  String doubleQuote (s ++ String doubleQuote EmptyString).

Definition isSpace (c : ascii) : bool :=
  let n := nat_of_ascii c in
  ((9 <=? n) && (n <=? 13))%nat || (n =? 32)%nat.

Definition isWord (c : ascii) : bool :=
  let n := nat_of_ascii c in
  (((48 <=? n) && (n <=? 57)) || ((65 <=? n) && (n <=? 90))
   || ((97 <=? n) && (n <=? 122)) || (n =? 95))%nat.

Definition lowerChar (c : ascii) : ascii :=
  let n := nat_of_ascii c in
  if ((65 <=? n) && (n <=? 90))%nat then ascii_of_nat (n + 32) else c.

Fixpoint toLowerCase (s : string) : string :=
  match s with
  | EmptyString => EmptyString
  | String c s' => String (lowerChar c) (toLowerCase s')
  end.

(** [s.indexOf(pat, from)], for a non-empty [pat]; [None] is [-1]. *)
Definition indexOf (pat : string) (from : nat) (s : string) : option nat :=
  String.index from pat s.

(** [s.includes(pat)] *)
Definition includes (pat s : string) : bool :=
  match indexOf pat 0 s with Some _ => true | None => false end.

(** [s.substring(a, b)] for [a <= b]. *)
Definition substring (a b : nat) (s : string) : string :=
  String.substring a (b - a) s.

(** [s.substring(a)] *)
Definition substringFrom (a : nat) (s : string) : string :=
  String.substring a (String.length s - a) s.

(** [s.lastIndexOf(c)] for a single character. *)
Fixpoint lastIndexOfFrom (c : ascii) (s : string) (i : nat) (found : option nat)
  : option nat :=
  match s with
  | EmptyString => found
  | String a s' =>
      lastIndexOfFrom c s' (S i) (if ascii_eqb a c then Some i else found)
  end.
Definition lastIndexOf (c : ascii) (s : string) : option nat :=
  lastIndexOfFrom c s 0 None.

Fixpoint trimStart (s : string) : string :=
  match s with
  | String c s' => if isSpace c then trimStart s' else s
  | EmptyString => EmptyString
  end.

(** Drops trailing white space: [None] stands for a string that is white
    space only. *)
Fixpoint trimEndAux (s : string) : option string :=
  match s with
  | EmptyString => None
  | String c s' =>
      match trimEndAux s' with
      | Some r => Some (String c r)
      | None => if isSpace c then None else Some (String c EmptyString)
      end
  end.
Definition trimEnd (s : string) : string :=
  match trimEndAux s with Some r => r | None => EmptyString end.

Definition trim (s : string) : string := trimEnd (trimStart s).

(** Positions of all occurrences of [pat], in increasing order: the loop
    [pos = s.indexOf(pat, start); start = pos + 1] run to its end. *)
Fixpoint occurrences (pat s : string) (i : nat) : list nat :=
  match s with
  | EmptyString => []
  | String _ s' =>
      (if String.prefix pat s then [i] else []) ++ occurrences pat s' (S i)
  end.

(** Case-insensitive match of the lower-case literal [lit] at the head of
    [s]; the rest of [s] on success. *)
Fixpoint stripPrefixCI (lit s : string) : option string :=
  match lit, s with
  | EmptyString, _ => Some s
  | String a lit', String b s' =>
      if ascii_eqb a (lowerChar b) then stripPrefixCI lit' s' else None
  | String _ _, EmptyString => None
  end.

(** Longest prefix of characters satisfying [p], and the rest. *)
Fixpoint span (p : ascii -> bool) (s : string) : string * string :=
  match s with
  | EmptyString => (EmptyString, EmptyString)
  | String c s' =>
      if p c then let '(a, b) := span p s' in (String c a, b)
      else (EmptyString, s)
  end.

(** [p+], greedy. *)
Definition span1 (p : ascii -> bool) (s : string) : option (string * string) :=
  match span p s with
  | (EmptyString, _) => None
  | r => Some r
  end.

End Js.


(** ** claude-kiro.ts: the Kiro adapter ([KiroApiService])

    The runtime's [JSON.parse] and [JSON.stringify], the regular-expression
    rewrites of [repairJson] and the random [uuidv4] are parameters of the
    embedding: [uuidv4 n] is the value of the [n]-th draw. *)

Module Kiro.
Import Js.

(** A tool call as the unary path and the bracket scanner build it:
    [{ id, type: 'function', function: { name, arguments } }]. *)
Record ToolCall := mkToolCall {
  tc_id : string;
  tc_name : string;
  tc_arguments : string
}.

(** [findMatchingBracket]: the scan of the characters after [startPos],
    [i] being the index of the head of [s]. *)
Fixpoint findMatchingBracket_scan (openChar closeChar : ascii) (s : string)
  (i bracketCount : nat) (inString escapeNext : bool) : option nat :=
  match s with
  | EmptyString => None
  | String char s' =>
      if escapeNext then
        findMatchingBracket_scan openChar closeChar s' (S i) bracketCount inString false
      else if ascii_eqb char "\" && inString then
        findMatchingBracket_scan openChar closeChar s' (S i) bracketCount inString true
      else if ascii_eqb char doubleQuote && negb escapeNext then
        findMatchingBracket_scan openChar closeChar s' (S i) bracketCount
          (negb inString) escapeNext
      else if negb inString then
        if ascii_eqb char openChar then
          findMatchingBracket_scan openChar closeChar s' (S i) (S bracketCount)
            inString escapeNext
        else if ascii_eqb char closeChar then
          if (bracketCount - 1 =? 0)%nat then Some i
          else findMatchingBracket_scan openChar closeChar s' (S i)
                 (bracketCount - 1) inString escapeNext
        else findMatchingBracket_scan openChar closeChar s' (S i) bracketCount
               inString escapeNext
      else findMatchingBracket_scan openChar closeChar s' (S i) bracketCount
             inString escapeNext
  end.

(** [findMatchingBracket(text, startPos, openChar, closeChar)]; [None] is
    [-1]. *)
Definition findMatchingBracket (text : string) (startPos : nat)
  (openChar closeChar : ascii) : option nat :=
  match String.get startPos text with
  | Some c =>
      if ascii_eqb c openChar then
        findMatchingBracket_scan openChar closeChar
          (substringFrom (S startPos) text) (S startPos) 1 false false
      else None
  | None => None
  end.

(** One attempt of [/\[Called\s+(\w+)\s+with\s+args:/i] at the head of
    [s]; the captured name on success.  White space and word characters
    are disjoint and no literal starts with white space, so the greedy
    match never has to give characters back. *)
Definition namePattern_at (s : string) : option string :=
  match stripPrefixCI "[called" s with
  | None => None
  | Some s1 =>
      match span1 isSpace s1 with
      | None => None
      | Some (_, s2) =>
          match span1 isWord s2 with
          | None => None
          | Some (name, s3) =>
              match span1 isSpace s3 with
              | None => None
              | Some (_, s4) =>
                  match stripPrefixCI "with" s4 with
                  | None => None
                  | Some s5 =>
                      match span1 isSpace s5 with
                      | None => None
                      | Some (_, s6) =>
                          match stripPrefixCI "args:" s6 with
                          | None => None
                          | Some _ => Some name
                          end
                      end
                  end
              end
          end
      end
  end.

(** [toolCallText.match(namePattern)]: the leftmost match. *)
Fixpoint namePattern_match (s : string) : option string :=
  match namePattern_at s with
  | Some name => Some name
  | None =>
      match s with
      | EmptyString => None
      | String _ s' => namePattern_match s'
      end
  end.

Section Runtime.
Variable JSON_parse : string -> option JValue.
Variable JSON_stringify : JValue -> string.
Variable repairJson : string -> string.
Variable uuidv4 : nat -> string.

(** [`call_${uuidv4().replace(/-/g, '').substring(0, 8)}`]: the draw is
    taken to be the eight characters already. *)
Definition freshCallId (n : nat) : string := "call_" ++ uuidv4 n.

(** [parseSingleToolCall]; [n] counts the identifiers drawn so far. *)
Definition parseSingleToolCall (toolCallText : string) (n : nat)
  : option ToolCall :=
  match namePattern_match toolCallText with
  | None => None
  | Some nameMatch =>
      let functionName := trim nameMatch in
      let argsStartMarker := "with args:" in
      match indexOf (toLowerCase argsStartMarker) 0 (toLowerCase toolCallText) with
      | None => None
      | Some argsStartPos =>
          let argsStart := (argsStartPos + String.length argsStartMarker)%nat in
          match lastIndexOf "]" toolCallText with
          | None => None
          | Some argsEnd =>
              if (argsEnd <=? argsStart)%nat then None
              else
                let jsonCandidate := trim (substring argsStart argsEnd toolCallText) in
                match JSON_parse (repairJson jsonCandidate) with
                | None => None
                | Some argumentsObj =>
                    if negb (isObject argumentsObj) then None
                    else Some (mkToolCall (freshCallId n) functionName
                                 (JSON_stringify argumentsObj))
                end
          end
      end
  end.

(** The loop of [parseBracketToolCalls] over the positions of ["[Called"]. *)
Fixpoint parseBracketToolCalls_loop (responseText : string)
  (callPositions : list nat) (n : nat) : list ToolCall * nat :=
  match callPositions with
  | [] => ([], n)
  | pos :: rest =>
      match findMatchingBracket responseText pos "[" "]" with
      | None => parseBracketToolCalls_loop responseText rest n
      | Some endPos =>
          let callText := substring pos (S endPos) responseText in
          match parseSingleToolCall callText n with
          | Some toolCall =>
              let '(more, n') := parseBracketToolCalls_loop responseText rest (S n) in
              (toolCall :: more, n')
          | None => parseBracketToolCalls_loop responseText rest n
          end
      end
  end.

(** [parseBracketToolCalls]: [None] is [null]. *)
Definition parseBracketToolCalls (responseText : string) (n : nat)
  : option (list ToolCall) * nat :=
  if negb (nonEmpty responseText) || negb (includes "[Called" responseText)
  then (None, n)
  else
    let callPositions := occurrences "[Called" responseText 0 in
    let '(toolCalls, n') := parseBracketToolCalls_loop responseText callPositions n in
    ((if (0 <? List.length toolCalls)%nat then Some toolCalls else None), n').

End Runtime.

(** [deduplicateToolCalls]: the key is [`${name}-${arguments}`]. *)
Definition toolCallKey (tc : ToolCall) : string :=
  tc_name tc ++ "-" ++ tc_arguments tc.

Fixpoint deduplicateToolCalls_loop (toolCalls : list ToolCall)
  (seen : gset string) : list ToolCall :=
  match toolCalls with
  | [] => []
  | tc :: rest =>
      let key := toolCallKey tc in
      if decide (key ∈ seen) then deduplicateToolCalls_loop rest seen
      else tc :: deduplicateToolCalls_loop rest ({[key]} ∪ seen)
  end.

Definition deduplicateToolCalls (toolCalls : list ToolCall) : list ToolCall :=
  deduplicateToolCalls_loop toolCalls ∅.


(** *** The request translator: [buildCodewhispererRequest] *)

(** A content part of a message; [POther] is a part of any other [type]. *)
Inductive Part : Type :=
| PText (text : string)
| PToolResult (tool_use_id : string) (content : Content)
| PToolUse (id name : string) (input : JValue)
| PImage (media_type data : string)
| POther (type : string)
with Content : Type :=
| CStr (s : string)
| CArr (parts : list Part)
| CNull.

Record Message := mkMessage { role : string; content : Content }.

(** A tool of the request body, in the Anthropic form
    [{ name, description, input_schema }]. *)
Record Tool := mkTool {
  tool_name : string;
  tool_description : string;
  tool_input_schema : JValue
}.

Record ToolResult := mkToolResult { tr_text : string; tr_toolUseId : string }.
Record ToolUse := mkToolUse {
  tu_input : JValue; tu_name : string; tu_toolUseId : string
}.
Record Image := mkImage { img_format : option string; img_bytes : string }.

(** [userInputMessage]; an empty list stands for an absent [images],
    [toolResults] or [tools] field. *)
Record UserInputMessage := mkUserInputMessage {
  uim_content : string;
  uim_modelId : option string;
  uim_images : list Image;
  uim_toolResults : list ToolResult;
  uim_tools : list Tool
}.

Record AssistantResponseMessage := mkAssistantResponseMessage {
  arm_content : string;
  arm_toolUses : list ToolUse
}.

Inductive HistoryEntry : Type :=
| HUser (userInputMessage : UserInputMessage)
| HAssistant (assistantResponseMessage : AssistantResponseMessage).

Record CodewhispererRequest := mkRequest {
  history : list HistoryEntry;
  currentMessage : UserInputMessage;
  profileArn : option string
}.

Definition FULL_MODEL_MAPPING (model : string) : option string :=
  if (model =? "claude-opus-4-5")%string then Some "claude-opus-4.5"
  else if (model =? "claude-opus-4-5-20251101")%string then Some "claude-opus-4.5"
  else if (model =? "claude-haiku-4-5")%string then Some "claude-haiku-4.5"
  else if (model =? "claude-sonnet-4-5")%string
  then Some "CLAUDE_SONNET_4_5_20250929_V1_0"
  else if (model =? "claude-sonnet-4-5-20250929")%string
  then Some "CLAUDE_SONNET_4_5_20250929_V1_0"
  else if (model =? "claude-sonnet-4-20250514")%string
  then Some "CLAUDE_SONNET_4_20250514_V1_0"
  else if (model =? "claude-3-7-sonnet-20250219")%string
  then Some "CLAUDE_3_7_SONNET_20250219_V1_0"
  else None.

Definition MODEL_MAPPING := FULL_MODEL_MAPPING.
Definition DEFAULT_MODEL_NAME : string := "claude-opus-4-5".

(** [parts.filter(p => p.type === 'text' && p.text).map(p => p.text).join('')] *)
Fixpoint joinTextParts (parts : list Part) : string :=
  match parts with
  | [] => ""
  | PText text :: rest => text ++ joinTextParts rest
  | _ :: rest => joinTextParts rest
  end.

(** [safeGetTextContent] applied to a content value itself (the system
    prompt, the content of a tool result). *)
Definition safeGetTextContent_value (c : Content) : string :=
  match c with
  | CNull => ""
  | CArr parts => joinTextParts parts
  | CStr s => s
  end.

(** [safeGetTextContent] applied to a message; a message without string
    or array content prints as an object. *)
Definition safeGetTextContent (message : Message) : string :=
  match content message with
  | CStr s => s
  | CArr parts => joinTextParts parts
  | CNull => "[object Object]"
  end.

(** The trailing assistant turn whose first part is the text ["{"] is
    popped. *)
Definition isBraceStub (m : Message) : bool :=
  (role m =? "assistant")%string
  && match content m with
     | CArr (PText text :: _) => (text =? "{")%string
     | _ => false
     end.

Definition popBraceStub (messages : list Message) : list Message :=
  match last messages with
  | Some lastMessage =>
      if isBraceStub lastMessage then removelast messages else messages
  | None => messages
  end.

(** The four branches that merge the content of a message into the
    previous one of the same role; with any other pair of contents the
    previous message stays as it is. *)
Definition mergeContent (lastContent currentContent : Content) : Content :=
  match lastContent, currentContent with
  | CArr a, CArr b => CArr (a ++ b)
  | CStr a, CStr b => CStr (a ++ String "010" b)
  | CArr a, CStr b => CArr (a ++ [PText b])
  | CStr a, CArr b => CArr (PText a :: b)
  | _, _ => lastContent
  end.

(** One round of the merge loop. *)
Definition mergeStep (mergedMessages : list Message) (currentMsg : Message)
  : list Message :=
  match last mergedMessages with
  | None => [currentMsg]
  | Some lastMsg =>
      if (role currentMsg =? role lastMsg)%string then
        removelast mergedMessages
        ++ [mkMessage (role lastMsg)
              (mergeContent (content lastMsg) (content currentMsg))]
      else mergedMessages ++ [currentMsg]
  end.

Definition mergeMessages (processedMessages : list Message) : list Message :=
  fold_left mergeStep processedMessages [].

(** [media_type.split('/')[1]] *)
Definition mediaFormat (media_type : string) : option string :=
  match indexOf "/" 0 media_type with
  | None => None
  | Some i =>
      let rest := substringFrom (S i) media_type in
      match indexOf "/" 0 rest with
      | None => Some rest
      | Some j => Some (substring 0 j rest)
      end
  end.

(** Tool results are kept once per [toolUseId], the first occurrence
    winning. *)
Fixpoint uniqueToolResults (toolResults : list ToolResult) (seenIds : gset string)
  : list ToolResult :=
  match toolResults with
  | [] => []
  | tr :: rest =>
      if decide (tr_toolUseId tr ∈ seenIds) then uniqueToolResults rest seenIds
      else tr :: uniqueToolResults rest ({[tr_toolUseId tr]} ∪ seenIds)
  end.

Fixpoint partsText (parts : list Part) : string :=
  match parts with
  | [] => ""
  | PText text :: rest => text ++ partsText rest
  | _ :: rest => partsText rest
  end.

Fixpoint partsToolResults (parts : list Part) : list ToolResult :=
  match parts with
  | [] => []
  | PToolResult tool_use_id c :: rest =>
      mkToolResult (safeGetTextContent_value c) tool_use_id :: partsToolResults rest
  | _ :: rest => partsToolResults rest
  end.

Fixpoint partsImages (parts : list Part) : list Image :=
  match parts with
  | [] => []
  | PImage media_type data :: rest =>
      mkImage (mediaFormat media_type) data :: partsImages rest
  | _ :: rest => partsImages rest
  end.

Fixpoint partsToolUses (parts : list Part) : list ToolUse :=
  match parts with
  | [] => []
  | PToolUse id name input :: rest => mkToolUse input name id :: partsToolUses rest
  | _ :: rest => partsToolUses rest
  end.

(** The history entry of a user turn. *)
Definition userEntry (codewhispererModel : option string) (message : Message)
  : HistoryEntry :=
  match content message with
  | CArr parts =>
      HUser (mkUserInputMessage (partsText parts) codewhispererModel
               (partsImages parts)
               (uniqueToolResults (partsToolResults parts) ∅) [])
  | _ =>
      HUser (mkUserInputMessage (safeGetTextContent message) codewhispererModel
               [] [] [])
  end.

(** The history entry of an assistant turn. *)
Definition assistantEntry (message : Message) : HistoryEntry :=
  match content message with
  | CArr parts =>
      HAssistant (mkAssistantResponseMessage (partsText parts) (partsToolUses parts))
  | _ => HAssistant (mkAssistantResponseMessage (safeGetTextContent message) [])
  end.

(** The loop over the messages before the last one: a message whose role
    is neither [user] nor [assistant] adds no entry. *)
Fixpoint historyEntries (codewhispererModel : option string)
  (messages : list Message) : list HistoryEntry :=
  match messages with
  | [] => []
  | message :: rest =>
      (if (role message =? "user")%string then [userEntry codewhispererModel message]
       else if (role message =? "assistant")%string then [assistantEntry message]
       else [])
      ++ historyEntries codewhispererModel rest
  end.

Definition isAssistantEntry (e : HistoryEntry) : bool :=
  match e with HAssistant _ => true | HUser _ => false end.

Definition typeError : Error :=
  plainError "Cannot read properties of undefined (reading 'role')".

(** [buildCodewhispererRequest(messages, model, tools, inSystemPrompt)].
    The function edits [messages] in place; the second component is the
    array as the call leaves it. *)
Definition buildCodewhispererRequest (authMethod arn : option string)
  (messages : list Message) (model : string) (tools : list Tool)
  (inSystemPrompt : Content)
  : Result (CodewhispererRequest * list Message) :=
  let systemPrompt := safeGetTextContent_value inSystemPrompt in
  if (List.length messages =? 0)%nat then Throw (plainError "No user messages found")
  else
    let processedMessages := mergeMessages (popBraceStub messages) in
    let codewhispererModel :=
      match MODEL_MAPPING model with
      | Some m => Some m
      | None => MODEL_MAPPING DEFAULT_MODEL_NAME
      end in
    match processedMessages with
    | [] => Throw typeError
    | first :: _ =>
        let firstIsUser := (role first =? "user")%string in
        let history0 :=
          if nonEmpty systemPrompt then
            if firstIsUser then
              [HUser (mkUserInputMessage
                        (systemPrompt ++ String "010" (String "010" (safeGetTextContent first)))
                        codewhispererModel [] [] [])]
            else
              [HUser (mkUserInputMessage systemPrompt codewhispererModel [] [] [])]
          else [] in
        let startIndex :=
          if nonEmpty systemPrompt && firstIsUser then 1%nat else 0%nat in
        let history1 : list HistoryEntry :=
          (history0
           ++ historyEntries codewhispererModel
                (drop startIndex (removelast processedMessages)))%list in
        match last processedMessages with
        | None => Throw typeError
        | Some currentMessage =>
            let '(history2, currentContent, currentImages, currentToolResults) :=
              if (role currentMessage =? "assistant")%string then
                ((history1 ++ [assistantEntry currentMessage])%list, "Continue", [], [])
              else
                let history' : list HistoryEntry :=
                  match last history1 with
                  | Some lastHistoryItem =>
                      if isAssistantEntry lastHistoryItem then history1
                      else (history1
                            ++ [HAssistant (mkAssistantResponseMessage "Continue" [])])%list
                  | None => history1
                  end in
                match content currentMessage with
                | CArr parts =>
                    let text := partsText parts in
                    let results := partsToolResults parts in
                    (history',
                     (if nonEmpty text then text
                      else if (0 <? List.length results)%nat
                           then "Tool results provided." else "Continue"),
                     partsImages parts, results)
                | _ =>
                    let text := safeGetTextContent currentMessage in
                    (history', (if nonEmpty text then text else "Continue"), [], [])
                end in
            Ok (mkRequest history2
                  (mkUserInputMessage currentContent codewhispererModel
                     currentImages (uniqueToolResults currentToolResults ∅) tools)
                  (if match authMethod with
                      | Some m => (m =? "social")%string
                      | None => false
                      end
                   then arn else None),
                processedMessages)
        end
    end.


(** *** The adapter calls: upstream, retries, streaming *)

(** An event of the Kiro event stream, as [parseAwsEventStreamBuffer]
    classifies a frame and as [streamApiReal] yields it: [content],
    [toolUse] (with [input] and [stop] defaulted), [toolUseInput],
    [toolUseStop]. *)
Inductive StreamEvent : Type :=
| EvContent (data : string)
| EvToolUse (name toolUseId input : string) (stop : bool)
| EvToolUseInput (input : string)
| EvToolUseStop (stop : bool).

(** The answer of the upstream to one streaming request: the chunks the
    response stream delivers, one per network read, and the error that
    ends the request, if any (a request refused outright has no
    chunks). *)
Record StreamResponse := mkStreamResponse {
  sr_chunks : list string;
  sr_error : option Error
}.

(** What the adapter does besides yielding: requests sent (numbered from
    0), forced credential refreshes, and back-off delays in
    milliseconds. *)
Inductive Action : Type :=
| Send (n : nat)
| Refresh
| Sleep (ms : Z).

(** The request body: [messages], [tools], [system]. *)
Record Body := mkBody {
  body_messages : list Message;
  body_tools : list Tool;
  body_system : Content
}.

(** The fields of the service the calls use. *)
Record Service := mkService {
  svc_authMethod : option string;
  svc_profileArn : option string;
  svc_REQUEST_MAX_RETRIES : option nat;
  svc_REQUEST_BASE_DELAY : option Z
}.

(** [error.response?.status === code] *)
Definition statusIs (e : Error) (code : Z) : bool :=
  match err_status e with Some s => s =? code | None => false end.

(** [error.response?.status >= 500] *)
Definition statusAtLeast500 (e : Error) : bool :=
  match err_status e with Some s => 500 <=? s | None => false end.

(** The content events pass a filter: an event without data is not
    yielded, and neither is one whose data equals the data of the content
    event yielded last. *)
Fixpoint yieldEvents (events : list StreamEvent) (lastContentEvent : option string)
  : list StreamEvent * option string :=
  match events with
  | [] => ([], lastContentEvent)
  | EvContent data :: rest =>
      if nonEmpty data then
        if match lastContentEvent with
           | Some l => (l =? data)%string
           | None => false
           end
        then yieldEvents rest lastContentEvent
        else let '(out, l') := yieldEvents rest (Some data) in
             (EvContent data :: out, l')
      else yieldEvents rest lastContentEvent
  | ev :: rest =>
      let '(out, l') := yieldEvents rest lastContentEvent in (ev :: out, l')
  end.

(** The fields of a parsed frame that [parseAwsEventStreamBuffer] reads.
    An absent field is [None]; [content], [name], [toolUseId] and [input]
    are strings and [stop] is a boolean when present; of
    [followupPrompt] only the truthiness is kept. *)
Record Frame := mkFrame {
  frame_content : option string;
  frame_followupPrompt : bool;
  frame_name : option string;
  frame_toolUseId : option string;
  frame_input : option string;
  frame_stop : option bool
}.

(** [field !== undefined] *)
Definition defined {A : Type} (field : option A) : bool :=
  match field with Some _ => true | None => false end.

(** Truthiness of a string field: present and non-empty. *)
Definition present (field : option string) : bool :=
  match field with Some s => nonEmpty s | None => false end.

(** The event pushed for a parsed frame, if any. *)
Definition frameEvent (parsed : Frame) : option StreamEvent :=
  if defined (frame_content parsed) && negb (frame_followupPrompt parsed) then
    Some (EvContent (default "" (frame_content parsed)))
  else if present (frame_name parsed) && present (frame_toolUseId parsed) then
    Some (EvToolUse (default "" (frame_name parsed))
            (default "" (frame_toolUseId parsed))
            (default "" (frame_input parsed))
            (default false (frame_stop parsed)))
  else if defined (frame_input parsed) && negb (present (frame_name parsed)) then
    Some (EvToolUseInput (default "" (frame_input parsed)))
  else if defined (frame_stop parsed) then
    Some (EvToolUseStop (default false (frame_stop parsed)))
  else None.

(** The smallest of the positions found. *)
Definition firstOf (candidates : list (option nat)) : option nat :=
  foldr (fun pos acc =>
           match pos, acc with
           | Some a, Some b => Some (Nat.min a b)
           | Some a, None => Some a
           | None, _ => acc
           end) None candidates.

(** The start of the next frame at or after [searchStart]: the least
    position of the five openings. *)
Definition frameStart (remaining : string) (searchStart : nat) : option nat :=
  firstOf
    [ indexOf ("{" ++ quoted "content" ++ ":") searchStart remaining;
      indexOf ("{" ++ quoted "name" ++ ":") searchStart remaining;
      indexOf ("{" ++ quoted "followupPrompt" ++ ":") searchStart remaining;
      indexOf ("{" ++ quoted "input" ++ ":") searchStart remaining;
      indexOf ("{" ++ quoted "stop" ++ ":") searchStart remaining ].

(** The scan for the brace that closes the frame: [s] is the text from
    position [i] on; the position of the closing brace, [None] when the
    text ends first ([jsonEnd] stays [-1]). *)
Fixpoint frameEnd (s : string) (i : nat) (braceCount : Z)
  (inString escapeNext : bool) : option nat :=
  match s with
  | EmptyString => None
  | String char s' =>
      if escapeNext then frameEnd s' (S i) braceCount inString false
      else if ascii_eqb char "\" then frameEnd s' (S i) braceCount inString true
      else if ascii_eqb char doubleQuote then
        frameEnd s' (S i) braceCount (negb inString) escapeNext
      else if negb inString then
        if ascii_eqb char "{" then
          frameEnd s' (S i) (braceCount + 1) inString escapeNext
        else if ascii_eqb char "}" then
          if braceCount - 1 =? 0 then Some i
          else frameEnd s' (S i) (braceCount - 1) inString escapeNext
        else frameEnd s' (S i) braceCount inString escapeNext
      else frameEnd s' (S i) braceCount inString escapeNext
  end.

(** What is kept after the loop:
    [if (searchStart > 0 && remaining.length > 0)
       remaining = remaining.substring(searchStart)]. *)
Definition keepRemaining (remaining : string) (searchStart : nat) : string :=
  if (0 <? searchStart)%nat && (0 <? String.length remaining)%nat
  then substringFrom searchStart remaining
  else remaining.

Lemma indexOf_from pat start s pos :
  indexOf pat start s = Some pos -> (start <= pos)%nat.
Proof.
  unfold indexOf. revert start pos.
  induction s as [|a s IH]; intros [|start] pos; cbn [String.index].
  - lia.
  - discriminate.
  - lia.
  - destruct (String.index start pat s) as [k|] eqn:E; [|discriminate].
    intros [= <-]. apply IH in E. lia.
Qed.

Lemma firstOf_from start candidates pos :
  Forall (fun c => forall k, c = Some k -> (start <= k)%nat) candidates ->
  firstOf candidates = Some pos -> (start <= pos)%nat.
Proof.
  intros H. revert pos. unfold firstOf.
  induction H as [|c cs Hc _ IH]; intros pos; cbn [foldr].
  - discriminate.
  - destruct c as [a|]; [|apply IH].
    destruct (foldr _ None cs) as [b|].
    + intros [= <-]. specialize (Hc a eq_refl). specialize (IH b eq_refl). lia.
    + intros [= <-]. auto.
Qed.

Lemma frameStart_from remaining searchStart jsonStart :
  frameStart remaining searchStart = Some jsonStart -> (searchStart <= jsonStart)%nat.
Proof.
  apply firstOf_from. repeat constructor; intros k; apply indexOf_from.
Qed.

Lemma frameEnd_from s i braceCount inString escapeNext jsonEnd :
  frameEnd s i braceCount inString escapeNext = Some jsonEnd -> (i <= jsonEnd)%nat.
Proof.
  revert i braceCount inString escapeNext.
  induction s as [|char s IH]; intros i braceCount inString escapeNext; cbn [frameEnd].
  - discriminate.
  - repeat match goal with
           | |- context [if ?b then _ else _] => destruct b
           end;
      try (intros H; apply IH in H; lia).
    intros [= <-]. lia.
Qed.

(** Outcome of an adapter call: what it returns or the error it throws,
    what it did, and the [messages] array as it leaves it. *)
Record Run (A : Type) := mkRun {
  run_result : Result A;
  run_trace : list Action;
  run_messages : list Message
}.
Arguments mkRun {A} _ _ _.
Arguments run_result {A} _.
Arguments run_trace {A} _.
Arguments run_messages {A} _.

(** Outcome of a streaming call: the values yielded, the error thrown
    after them if any, what the call did, and [messages] as it leaves it. *)
Record StreamRun (A : Type) := mkStreamRun {
  sr_yields : list A;
  sr_thrown : option Error;
  sr_trace : list Action;
  sr_messages : list Message
}.
Arguments mkStreamRun {A} _ _ _ _.
Arguments sr_yields {A} _.
Arguments sr_thrown {A} _.
Arguments sr_trace {A} _.
Arguments sr_messages {A} _.

(** Keeps the equation of a test for the proof that a call terminates. *)
Definition inspect {A : Type} (a : A) : {b : A | a = b} := exist _ a eq_refl.
Local Notation "x 'eqn:' p" := (exist _ x p) (only parsing, at level 20).

Section Parser.
(** [JSON.parse] on the text of a frame: the fields read, [None] when it
    throws. *)
Variable parseFrame : string -> option Frame.

(** The events of the frame text [jsonStr]; a parse error is ignored. *)
Definition parsedEvents (jsonStr : string) : list StreamEvent :=
  match parseFrame jsonStr with
  | Some parsed =>
      match frameEvent parsed with Some event => [event] | None => [] end
  | None => []
  end.

(** The loop of [parseAwsEventStreamBuffer]: every round moves
    [searchStart] forward. *)
Equations? parseFrames (remaining : string) (searchStart : nat)
  (events : list StreamEvent) : list StreamEvent * string
  by wf (String.length remaining - searchStart)%nat lt :=
parseFrames remaining searchStart events
  with inspect (frameStart remaining searchStart) => {
  | None eqn: noFrame => (events, keepRemaining remaining searchStart);
  | Some jsonStart eqn: found
      with inspect (frameEnd (substringFrom jsonStart remaining) jsonStart 0
                      false false) => {
    | None eqn: incomplete =>
        (events, keepRemaining (substringFrom jsonStart remaining) searchStart);
    | Some jsonEnd eqn: closed
        with inspect (String.length remaining <=? S jsonEnd)%nat => {
      | true eqn: atEnd =>
          ((events ++ parsedEvents (substring jsonStart (S jsonEnd) remaining))%list,
           EmptyString);
      | false eqn: more =>
          parseFrames remaining (S jsonEnd)
            (events ++ parsedEvents (substring jsonStart (S jsonEnd) remaining))%list } } }.
Proof.
  apply frameStart_from in found. apply frameEnd_from in closed.
  apply Nat.leb_gt in more. lia.
Qed.

(** [parseAwsEventStreamBuffer(buffer)]: the events and what is left of
    the buffer. *)
Definition parseAwsEventStreamBuffer (buffer : string)
  : list StreamEvent * string :=
  parseFrames buffer 0 [].

(** The loop of [streamApiReal] over the chunks of one response. *)
Fixpoint readChunks (chunks : list string) (buffer : string)
  (lastContentEvent : option string) : list StreamEvent :=
  match chunks with
  | [] => []
  | chunk :: rest =>
      let '(events, remaining) := parseAwsEventStreamBuffer (buffer ++ chunk) in
      let '(out, l') := yieldEvents events lastContentEvent in
      (out ++ readChunks rest remaining l')%list
  end.

End Parser.

Section Calls.
(** [JSON.parse] on the text of a frame. *)
Variable parseFrame : string -> option Frame.
Variable service : Service.
(** [unaryUpstream n] and [streamUpstream n] answer the request number
    [n] of the call; [forcedRefresh] is the outcome of
    [initializeAuth(true)], an error message when it fails. *)
Variable unaryUpstream : nat -> Result string.
Variable streamUpstream : nat -> StreamResponse.
Variable forcedRefresh : option string.
Variable model : string.
Variable tools : list Tool.
Variable system : Content.

(** Calls left before [callApi] must stop retrying. *)
Definition retryBudget (maxRetries : nat) (isRetry : bool) (retryCount : nat)
  : nat :=
  ((if isRetry then 0 else 1) + (maxRetries - retryCount))%nat.

(** [callApi(method, model, body, isRetry, retryCount)]; [n] numbers
    the request it sends, [messages] is [body.messages]. *)
Equations? callApi (messages : list Message) (n : nat) (isRetry : bool)
  (retryCount : nat) : Run string
  by wf (retryBudget 3 isRetry retryCount) lt :=
callApi messages n isRetry retryCount
  with buildCodewhispererRequest (svc_authMethod service) (svc_profileArn service)
         messages model tools system => {
  | Throw e => mkRun (Throw e) [] messages;
  | Ok (_, messages') with unaryUpstream n => {
    | Ok data => mkRun (Ok data) [Send n] messages';
    | Throw error with inspect (statusIs error 403 && negb isRetry) => {
      | true eqn: is403 with forcedRefresh => {
        | Some refreshError =>
            mkRun (Throw (plainError refreshError)) [Send n; Refresh] messages';
        | None =>
            let r := callApi messages' (S n) true retryCount in
            mkRun (run_result r) (Send n :: Refresh :: run_trace r) (run_messages r) };
      | false eqn: not403
          with inspect ((statusIs error 429 || statusAtLeast500 error)
                        && (retryCount <? 3)%nat) => {
        | true eqn: retryable =>
            let delay := 1000 * 2 ^ Z.of_nat retryCount in
            let r := callApi messages' (S n) isRetry (S retryCount) in
            mkRun (run_result r) (Send n :: Sleep delay :: run_trace r) (run_messages r);
        | false eqn: final => mkRun (Throw error) [Send n] messages' } } } }.
Proof.
  - apply andb_prop in is403. destruct is403 as [_ H].
    unfold retryBudget. destruct isRetry; [discriminate|]. simpl. lia.
  - apply andb_prop in retryable. destruct retryable as [_ H].
    apply Nat.ltb_lt in H. unfold retryBudget. destruct isRetry; simpl; lia.
Qed.

(** [this.config.REQUEST_MAX_RETRIES || 3], [this.config.REQUEST_BASE_DELAY || 1000] *)
Definition maxRetries : nat :=
  match svc_REQUEST_MAX_RETRIES service with
  | Some (S k) => S k
  | _ => 3%nat
  end.
Definition baseDelay : Z :=
  match svc_REQUEST_BASE_DELAY service with
  | Some d => if d =? 0 then 1000 else d
  | None => 1000
  end.

(** What the [for await] loop yields on the answer to request [n]. *)
Definition yielded (n : nat) : list StreamEvent :=
  readChunks parseFrame (sr_chunks (streamUpstream n)) EmptyString None.

(** [streamApiReal(method, model, body, isRetry, retryCount)].  The events
    yielded before an error stay yielded; a retry yields after them. *)
Equations? streamApiReal (messages : list Message) (n : nat) (isRetry : bool)
  (retryCount : nat) : StreamRun StreamEvent
  by wf (retryBudget maxRetries isRetry retryCount) lt :=
streamApiReal messages n isRetry retryCount
  with buildCodewhispererRequest (svc_authMethod service) (svc_profileArn service)
         messages model tools system => {
  | Throw e => mkStreamRun [] (Some e) [] messages;
  | Ok (_, messages') with sr_error (streamUpstream n) => {
    | None =>
        mkStreamRun (yielded n) None
          [Send n] messages';
    | Some error with inspect (statusIs error 403 && negb isRetry) => {
      | true eqn: is403 with forcedRefresh => {
        | Some refreshError =>
            mkStreamRun (yielded n)
              (Some (plainError refreshError)) [Send n; Refresh] messages';
        | None =>
            let r := streamApiReal messages' (S n) true retryCount in
            mkStreamRun
              (yielded n ++ sr_yields r)%list
              (sr_thrown r) (Send n :: Refresh :: sr_trace r) (sr_messages r) };
      | false eqn: not403
          with inspect (statusIs error 429 && (retryCount <? maxRetries)%nat) => {
        | true eqn: retryable =>
            let delay := baseDelay * 2 ^ Z.of_nat retryCount in
            let r := streamApiReal messages' (S n) isRetry (S retryCount) in
            mkStreamRun
              (yielded n ++ sr_yields r)%list
              (sr_thrown r) (Send n :: Sleep delay :: sr_trace r) (sr_messages r);
        | false eqn: final =>
            mkStreamRun (yielded n)
              (Some error) [Send n] messages' } } } }.
Proof.
  - apply andb_prop in is403. destruct is403 as [_ H].
    unfold retryBudget. destruct isRetry; [discriminate|]. simpl. lia.
  - apply andb_prop in retryable. destruct retryable as [_ H].
    apply Nat.ltb_lt in H. unfold retryBudget. destruct isRetry; simpl; lia.
Qed.

End Calls.


(** *** [generateContentStream] and [generateContent] *)

(** The chunks [generateContentStream] yields (Anthropic server-sent
    events). *)
Inductive SseEvent : Type :=
| MessageStart (id model : string) (input_tokens : Z)
| ContentBlockStartText (index : nat)
| ContentBlockDeltaText (index : nat) (text : string)
| ContentBlockStop (index : nat)
| ContentBlockStartToolUse (index : nat) (id name : string)
| ContentBlockDeltaInputJson (index : nat) (partial_json : string)
| MessageDelta (stop_reason : string) (output_tokens : Z)
| MessageStop.

(** The tool call under accumulation, its [input] still a string. *)
Record OpenToolCall := mkOpenToolCall {
  otc_toolUseId : string;
  otc_name : string;
  otc_input : string
}.

(** A finished tool call; [input] is the parsed value, or the raw string
    (as [JStr]) when it does not parse. *)
Record StreamToolCall := mkStreamToolCall {
  stc_toolUseId : string;
  stc_name : string;
  stc_input : JValue
}.

(** The variables of the loop of [generateContentStream]. *)
Record GenState := mkGenState {
  totalContent : string;
  toolCalls : list StreamToolCall;
  currentToolCall : option OpenToolCall;
  streamStarted : bool
}.

(** The message of the unary path. *)
Inductive ContentBlock : Type :=
| TextBlock (text : string)
| ToolUseBlock (name : string) (input : JValue).

Record ClaudeMessage := mkClaudeMessage {
  msg_id : string;
  msg_model : string;
  msg_stop_reason : string;
  msg_input_tokens : Z;
  msg_output_tokens : Z;
  msg_content : list ContentBlock
}.

(** A payload of the event stream as [JSON.parse] returns it, reduced to
    the fields [parseEventStreamChunk] reads. *)
Record EventData := mkEventData {
  ed_name : string;
  ed_toolUseId : string;
  ed_input : string;
  ed_stop : bool;
  ed_followupPrompt : bool;
  ed_content : string
}.

(** [s.replace(/(?<!\\)\\n/g, '\n')]: a backslash followed by [n] and not
    preceded by a backslash becomes a line feed. *)
Fixpoint unescapeNewlines (s : string) (afterBackslash : bool) : string :=
  match s with
  | EmptyString => EmptyString
  | String c tl =>
      match tl with
      | String "n" rest =>
          if ascii_eqb c "\" && negb afterBackslash
          then String "010" (unescapeNewlines rest false)
          else String c (unescapeNewlines tl (ascii_eqb c "\"))
      | _ => String c (unescapeNewlines tl (ascii_eqb c "\"))
      end
  end.

Section Generate.
Variable parseFrame : string -> option Frame.
Variable JSON_parse : string -> option JValue.
Variable JSON_stringify : JValue -> string.
Variable repairJson : string -> string.
Variable uuidv4 : nat -> string.
(** The identifier drawn for the message, and the one drawn for the tool
    block of a given index that has no identifier of its own. *)
Variable messageId : string.
Variable toolUuid : nat -> string.
(** The tokenizer, with its fallback, and [JSON.stringify(tools)]. *)
Variable countTextTokens : string -> Z.
Variable toolsJson : list Tool -> string.
(** The payloads that the two regular expressions of
    [parseEventStreamChunk] and its search for a parsable prefix extract
    from a raw response, in order. *)
Variable eventPayloads : string -> list EventData.

Variable service : Service.
Variable unaryUpstream : nat -> Result string.
Variable streamUpstream : nat -> StreamResponse.
Variable forcedRefresh : option string.

Definition contentTruthy (c : Content) : bool :=
  match c with
  | CStr s => nonEmpty s
  | CArr _ => true
  | CNull => false
  end.

Definition estimateInputTokens (requestBody : Body) : Z :=
  (if contentTruthy (body_system requestBody)
   then countTextTokens (safeGetTextContent_value (body_system requestBody))
   else 0)
  + fold_left
      (fun total message =>
         if contentTruthy (content message)
         then total + countTextTokens (safeGetTextContent message)
         else total)
      (body_messages requestBody) 0
  + countTextTokens (toolsJson (body_tools requestBody)).

(** [try { input = JSON.parse(input) } catch { keep raw input }] *)
Definition parseOrKeep (input : string) : JValue :=
  match JSON_parse input with
  | Some v => v
  | None => JStr input
  end.

Definition closeToolCall (c : OpenToolCall) : StreamToolCall :=
  mkStreamToolCall (otc_toolUseId c) (otc_name c) (parseOrKeep (otc_input c)).

(** [input || {}] *)
Definition orEmptyObject (v : JValue) : JValue :=
  if truthy v then v else JObj [].

(** [typeof input === 'string' ? input : JSON.stringify(input || {})] *)
Definition partialJson (input : JValue) : string :=
  match input with
  | JStr s => s
  | v => JSON_stringify (orEmptyObject v)
  end.

(** One round of the loop over the events of [streamApiReal]: the new
    state and the chunks yielded in the round. *)
Definition streamStep (model : string) (inputTokens : Z) (st : GenState)
  (event : StreamEvent) : GenState * list SseEvent :=
  let opening :=
    if streamStarted st then []
    else [MessageStart messageId model inputTokens; ContentBlockStartText 0] in
  match event with
  | EvContent data =>
      if nonEmpty data then
        (mkGenState (totalContent st ++ data) (toolCalls st)
           (currentToolCall st) true,
         (opening ++ [ContentBlockDeltaText 0 data])%list)
      else
        (mkGenState (totalContent st) (toolCalls st) (currentToolCall st) true,
         opening)
  | EvToolUse name toolUseId input stop =>
      if nonEmpty name && nonEmpty toolUseId then
        let '(calls, cur) :=
          match currentToolCall st with
          | Some c =>
              if (otc_toolUseId c =? toolUseId)%string then
                (toolCalls st,
                 mkOpenToolCall (otc_toolUseId c) (otc_name c) (otc_input c ++ input))
              else
                ((toolCalls st ++ [closeToolCall c])%list,
                 mkOpenToolCall toolUseId name input)
          | None => (toolCalls st, mkOpenToolCall toolUseId name input)
          end in
        if stop then
          (mkGenState (totalContent st) (calls ++ [closeToolCall cur])%list None true,
           opening)
        else (mkGenState (totalContent st) calls (Some cur) true, opening)
      else
        (mkGenState (totalContent st) (toolCalls st) (currentToolCall st) true,
         opening)
  | EvToolUseInput input =>
      (mkGenState (totalContent st) (toolCalls st)
         (match currentToolCall st with
          | Some c =>
              Some (mkOpenToolCall (otc_toolUseId c) (otc_name c) (otc_input c ++ input))
          | None => None
          end) true,
       opening)
  | EvToolUseStop stop =>
      match currentToolCall st with
      | Some c =>
          if stop then
            (mkGenState (totalContent st) (toolCalls st ++ [closeToolCall c])%list
               None true,
             opening)
          else (mkGenState (totalContent st) (toolCalls st) (Some c) true, opening)
      | None =>
          (mkGenState (totalContent st) (toolCalls st) None true, opening)
      end
  end.

Fixpoint streamLoop (model : string) (inputTokens : Z) (st : GenState)
  (events : list StreamEvent) : GenState * list SseEvent :=
  match events with
  | [] => (st, [])
  | event :: rest =>
      let '(st1, out1) := streamStep model inputTokens st event in
      let '(st2, out2) := streamLoop model inputTokens st1 rest in
      (st2, (out1 ++ out2)%list)
  end.

(** The tool calls of the bracket scan, as they are pushed after the
    structured ones; [JSON.parse] of their arguments may throw. *)
Fixpoint bracketStreamToolCalls (bracketToolCalls : list ToolCall)
  : Result (list StreamToolCall) :=
  match bracketToolCalls with
  | [] => Ok []
  | btc :: rest =>
      match JSON_parse (if nonEmpty (tc_arguments btc) then tc_arguments btc
                        else "{}") with
      | None => Throw (plainError "Unexpected token in JSON")
      | Some input =>
          match bracketStreamToolCalls rest with
          | Throw e => Throw e
          | Ok more =>
              Ok (mkStreamToolCall
                    (if nonEmpty (tc_id btc) then tc_id btc else "tool_" ++ toolUuid 0)
                    (tc_name btc) input :: more)
          end
      end
  end.

(** The three chunks of the tool call at position [i] of the list. *)
Definition toolUseBlock (i : nat) (tc : StreamToolCall) : list SseEvent :=
  let blockIndex := (i + 1)%nat in
  [ContentBlockStartToolUse blockIndex
     (if nonEmpty (stc_toolUseId tc) then stc_toolUseId tc
      else "tool_" ++ toolUuid blockIndex)
     (stc_name tc);
   ContentBlockDeltaInputJson blockIndex (partialJson (stc_input tc));
   ContentBlockStop blockIndex].

Fixpoint toolUseBlocks (i : nat) (calls : list StreamToolCall) : list SseEvent :=
  match calls with
  | [] => []
  | tc :: rest => (toolUseBlock i tc ++ toolUseBlocks (S i) rest)%list
  end.

Definition outputTokensOf (content : string) (calls : list StreamToolCall) : Z :=
  fold_left
    (fun total tc =>
       total + countTextTokens (JSON_stringify (orEmptyObject (stc_input tc))))
    calls (countTextTokens content).

(** What [generateContentStream] yields once the events of
    [streamApiReal] are exhausted. *)
Definition streamEpilogue (st : GenState) : list SseEvent * option Error :=
  let calls1 :=
    match currentToolCall st with
    | Some c => (toolCalls st ++ [closeToolCall c])%list
    | None => toolCalls st
    end in
  let bracketToolCalls :=
    match fst (parseBracketToolCalls JSON_parse JSON_stringify repairJson uuidv4
                 (totalContent st) 0) with
    | Some l => l
    | None => []
    end in
  match bracketStreamToolCalls bracketToolCalls with
  | Throw e => ([], Some e)
  | Ok more =>
      let calls := (calls1 ++ more)%list in
      ((ContentBlockStop 0 :: toolUseBlocks 0 calls
        ++ [MessageDelta (if (0 <? List.length calls)%nat then "tool_use" else "end_turn")
              (outputTokensOf (totalContent st) calls);
            MessageStop])%list,
       None)
  end.

Definition initialGenState : GenState := mkGenState "" [] None false.

(** [MODEL_MAPPING[model] ? model : this.modelName] *)
Definition finalModel (model : string) : string :=
  match MODEL_MAPPING model with
  | Some _ => model
  | None => DEFAULT_MODEL_NAME
  end.

(** [generateContentStream(model, requestBody)] *)
Definition generateContentStream (model : string) (requestBody : Body)
  : StreamRun SseEvent :=
  let inputTokens := estimateInputTokens requestBody in
  let r := streamApiReal parseFrame service streamUpstream forcedRefresh (finalModel model)
             (body_tools requestBody) (body_system requestBody)
             (body_messages requestBody) 0 false 0 in
  let '(st, out) := streamLoop model inputTokens initialGenState (sr_yields r) in
  match sr_thrown r with
  | Some e => mkStreamRun out (Some e) (sr_trace r) (sr_messages r)
  | None =>
      let '(tail, thrown) := streamEpilogue st in
      mkStreamRun (out ++ tail)%list thrown (sr_trace r) (sr_messages r)
  end.

(** The loop of [parseEventStreamChunk] over the payloads. *)
Fixpoint chunkLoop (payloads : list EventData) (fullContent : string)
  (calls : list ToolCall) (currentToolCallDict : option ToolCall)
  : string * list ToolCall * option ToolCall :=
  match payloads with
  | [] => (fullContent, calls, currentToolCallDict)
  | eventData :: rest =>
      if nonEmpty (ed_name eventData) && nonEmpty (ed_toolUseId eventData) then
        let cur :=
          match currentToolCallDict with
          | Some c => c
          | None => mkToolCall (ed_toolUseId eventData) (ed_name eventData) ""
          end in
        let cur1 :=
          mkToolCall (tc_id cur) (tc_name cur) (tc_arguments cur ++ ed_input eventData) in
        if ed_stop eventData then
          let cur2 :=
            match JSON_parse (tc_arguments cur1) with
            | Some args => mkToolCall (tc_id cur1) (tc_name cur1) (JSON_stringify args)
            | None => cur1
            end in
          chunkLoop rest fullContent (calls ++ [cur2])%list None
        else chunkLoop rest fullContent calls (Some cur1)
      else if negb (ed_followupPrompt eventData) && nonEmpty (ed_content eventData) then
        chunkLoop rest (fullContent ++ unescapeNewlines (ed_content eventData) false)
          calls currentToolCallDict
      else chunkLoop rest fullContent calls currentToolCallDict
  end.

(** [parseEventStreamChunk(rawData)]; [n] counts the identifiers drawn by
    the bracket scans. *)
Definition parseEventStreamChunk (rawStr : string) (n : nat)
  : string * list ToolCall * nat :=
  let '(fullContent, calls, cur) := chunkLoop (eventPayloads rawStr) "" [] None in
  let calls1 := match cur with Some c => (calls ++ [c])%list | None => calls end in
  let '(bracketToolCalls, n') :=
    parseBracketToolCalls JSON_parse JSON_stringify repairJson uuidv4 fullContent n in
  (fullContent,
   match bracketToolCalls with Some l => (calls1 ++ l)%list | None => calls1 end,
   n').

(** The tool calls [_processApiResponse] returns for a raw response text.
    (Its rewriting of the response text, which removes the bracketed calls
    and squeezes white space, is left out: [visibleText] stands for it.) *)
Variable visibleText : string -> list ToolCall -> string.

Definition _processApiResponse (rawResponseText : string)
  : string * list ToolCall :=
  let '(fullResponseText, parsedToolCalls, n) :=
    parseEventStreamChunk rawResponseText 0 in
  let allToolCalls :=
    match fst (parseBracketToolCalls JSON_parse JSON_stringify repairJson uuidv4
                 rawResponseText n) with
    | Some l => (parsedToolCalls ++ l)%list
    | None => parsedToolCalls
    end in
  let uniqueToolCalls := deduplicateToolCalls allToolCalls in
  ((if (0 <? List.length uniqueToolCalls)%nat
    then visibleText fullResponseText uniqueToolCalls
    else fullResponseText),
   uniqueToolCalls).

(** The [tool_use] blocks of [buildClaudeResponse]; [JSON.parse] of the
    arguments may throw. *)
Fixpoint toolUseContent (calls : list ToolCall) : Result (list ContentBlock) :=
  match calls with
  | [] => Ok []
  | toolCall :: rest =>
      match JSON_parse (tc_arguments toolCall) with
      | None => Throw (plainError "Unexpected token in JSON")
      | Some input =>
          match toolUseContent rest with
          | Throw e => Throw e
          | Ok more => Ok (ToolUseBlock (tc_name toolCall) input :: more)
          end
      end
  end.

Definition buildClaudeResponse (text : string) (model : string)
  (calls : list ToolCall) (inputTokens : Z) : Result ClaudeMessage :=
  match toolUseContent calls with
  | Throw e => Throw e
  | Ok blocks =>
      Ok (mkClaudeMessage messageId model "end_turn" inputTokens
            (countTextTokens text) (TextBlock text :: blocks))
  end.

(** [generateContent(model, requestBody)].  [callApi] returns
    [response.data] and [_processApiResponse] reads the [data] property
    of what it is given: of a string that property is [undefined], and
    [String(undefined)] is the text that is processed. *)
Definition generateContent (model : string) (requestBody : Body)
  : Run ClaudeMessage :=
  let inputTokens := estimateInputTokens requestBody in
  let r := callApi service unaryUpstream forcedRefresh (finalModel model)
             (body_tools requestBody) (body_system requestBody)
             (body_messages requestBody) 0 false 0 in
  match run_result r with
  | Throw e => mkRun (Throw e) (run_trace r) (run_messages r)
  | Ok response =>
      let '(responseText, calls) := _processApiResponse "undefined" in
      mkRun (buildClaudeResponse responseText model calls inputTokens)
        (run_trace r) (run_messages r)
  end.

End Generate.

End Kiro.


(** ** proxy-server.ts: the HTTP front end and the account-pool dispatcher *)

Module Proxy.
Import Js.

Record AccountCredentials := mkCredentials {
  accessToken : string;
  refreshToken : option string;
  clientId : option string;
  clientSecret : option string;
  region : option string;
  expiresAt : Z;
  authMethod : option string
}.

Record Account := mkAccount {
  id : string;
  email : string;
  credentials : AccountCredentials;
  status : option string;
  lastError : option string;
  quotaExhaustedUntil : option Z
}.

Record RefreshResult := mkRefreshResult {
  rr_accessToken : string;
  rr_refreshToken : option string;
  rr_expiresIn : option Z
}.

(** The [Partial<AccountCredentials>] that a refresh produces. *)
Record CredentialsUpdate := mkCredentialsUpdate {
  cu_accessToken : string;
  cu_refreshToken : option string;
  cu_expiresAt : Z
}.

(** The argument of [updateAccountStatus]; [None] in
    [su_quotaExhaustedUntil] is [null]. *)
Record StatusUpdate := mkStatusUpdate {
  su_status : string;
  su_quotaExhaustedUntil : option Z;
  su_lastError : string
}.

(** A call made to the account store. *)
Inductive StoreCall : Type :=
| UpdateAccountCredentials (id : string) (creds : CredentialsUpdate)
| UpdateAccountStatus (id : string) (updates : StatusUpdate).

(** *** Authorization and routing *)

Record Request := mkRequest {
  method : string;
  pathname : string;
  authorization : option string;
  x_api_key : option string
}.

Definition orEmpty (h : option string) : string :=
  match h with Some s => s | None => "" end.

(** [isAuthorized(req, apiKey)]; an empty key counts as no key. *)
Definition isAuthorized (req : Request) (apiKey : option string) : bool :=
  match apiKey with
  | None => true
  | Some key =>
      if negb (nonEmpty key) then true
      else
        let authHeader := orEmpty (authorization req) in
        let token :=
          if String.prefix "Bearer " authHeader then substringFrom 7 authHeader
          else "" in
        let headerKey := orEmpty (x_api_key req) in
        (token =? key)%string || (headerKey =? key)%string
  end.

(** What the request handler does with a request, up to the point where
    it either answers or hands the request to the dispatcher. *)
Inductive Routed : Type :=
| Preflight                (* OPTIONS: 204 *)
| Health                   (* 200 { ok: true } *)
| AdminPage                (* 200, the HTML of the portal *)
| Unauthorized             (* 401 { error: 'Unauthorized' } *)
| AdminData
| AdminProxy
| AdminUsageRefresh
| AdminAccountImport
| AdminAccountDelete
| Models
| NotFound                 (* 404 { error: 'Not found' } *)
| InvalidJsonBody          (* 400 *)
| UnsupportedEndpoint      (* 404 *)
| Dispatch (isOpenAI : bool).

Definition guarded (req : Request) (apiKey : option string) (served : Routed)
  : Routed :=
  if negb (isAuthorized req apiKey) then Unauthorized else served.

(** The chain of route tests of the request handler; [bodyParses] tells
    whether [parseBody] succeeds. *)
Definition route (apiKey : option string) (bodyParses : bool) (req : Request)
  : Routed :=
  let m := method req in
  let p := pathname req in
  if (m =? "OPTIONS")%string then Preflight
  else if (m =? "GET")%string && (p =? "/health")%string then Health
  else if (m =? "GET")%string && (p =? "/admin")%string then AdminPage
  else if (m =? "GET")%string && (p =? "/admin/data")%string
  then guarded req apiKey AdminData
  else if (m =? "POST")%string && (p =? "/admin/proxy")%string
  then guarded req apiKey AdminProxy
  else if (m =? "POST")%string && (p =? "/admin/usage/refresh")%string
  then guarded req apiKey AdminUsageRefresh
  else if (m =? "POST")%string && (p =? "/admin/account")%string
  then guarded req apiKey AdminAccountImport
  else if (m =? "DELETE")%string && (p =? "/admin/account")%string
  then guarded req apiKey AdminAccountDelete
  else if (m =? "GET")%string && (p =? "/v1/models")%string
  then guarded req apiKey Models
  else if negb (m =? "POST")%string then NotFound
  else if negb (isAuthorized req apiKey) then Unauthorized
  else if negb bodyParses then InvalidJsonBody
  else
    let isOpenAI := (p =? "/v1/chat/completions")%string in
    let isClaude := (p =? "/v1/messages")%string in
    if negb isOpenAI && negb isClaude then UnsupportedEndpoint
    else Dispatch isOpenAI.

(** *** The response *)

Inductive Payload : Type :=
| ErrorPayload (error : string) (warning : option (string * Z))
| ClaudePayload (result : Kiro.ClaudeMessage) (warning : option string)
| OpenAIPayload (result : string) (warning : option string).

(** What is written to the body of the response. *)
Inductive Write : Type :=
| WJson (payload : Payload)
| WWarningEvent (message : string) (tokenEstimate : Z)
| WEvent (chunk : Kiro.SseEvent)
| WData (chunk : string)
| WDone.

Record Res := mkRes {
  headersSent : bool;
  statusCode : Z;
  written : list Write;
  writableEnded : bool
}.

Definition freshRes : Res := mkRes false 200 [] false.

(** [res.writeHead(statusCode, ...)] *)
Definition writeHead (res : Res) (code : Z) : Res :=
  mkRes true code (written res) (writableEnded res).

(** [res.write(...)] *)
Definition write (res : Res) (w : Write) : Res :=
  mkRes (headersSent res) (statusCode res) (written res ++ [w]) (writableEnded res).

(** [res.end()] *)
Definition endRes (res : Res) : Res :=
  mkRes true (statusCode res) (written res) true.

(** [sendJson(res, statusCode, payload)] *)
Definition sendJson (res : Res) (code : Z) (payload : Payload) : Res :=
  endRes (write (writeHead res code) (WJson payload)).

(** [if (!res.writableEnded) res.end()] *)
Definition endIfOpen (res : Res) : Res :=
  if writableEnded res then res else endRes res.


(** *** The dispatcher *)

(** Everything outside the process: the clock ([clock k] is the value of
    the [k]-th call of [Date.now()] of a request), the local time zone,
    the token refresher of the account store, the upstream as each account
    sees it, and the runtime of the adapter. *)
Record World := mkWorld {
  clock : nat -> Z;
  tza : Z;
  refreshAccountToken : Account -> Result RefreshResult;
  unaryUpstream : string -> nat -> Result string;
  streamUpstream : string -> nat -> Kiro.StreamResponse;
  forcedRefresh : string -> option string;
  parseFrame : string -> option Kiro.Frame;
  JSON_parse : string -> option JValue;
  JSON_stringify : JValue -> string;
  repairJson : string -> string;
  uuidv4 : nat -> string;
  messageId : string;
  toolUuid : nat -> string;
  countTextTokens : string -> Z;
  toolsJson : list Kiro.Tool -> string;
  eventPayloads : string -> list Kiro.EventData;
  visibleText : string -> list Kiro.ToolCall -> string;
  (** [claudeToOpenAIResponse], [convertClaudeStreamChunkToOpenAIChunks]
      and [buildOpenAIStreamChunk], by the JSON text of their results. *)
  claudeToOpenAIResponse : Kiro.ClaudeMessage -> string;
  convertClaudeStreamChunkToOpenAIChunks :
    Kiro.SseEvent -> string -> string -> Z -> list string;
  buildOpenAIStreamChunk : string -> string -> Z -> string -> string;
  BASH_DESCRIPTION : string;
  (** [String(n)] for a number [n]. *)
  numberToString : Z -> string
}.

(** The options of [startKiroProxyServer] that the dispatcher reads. *)
Record ProxyOptions := mkProxyOptions {
  apiKey : option string;
  cooldownMs : Z;
  refreshBeforeExpiryMs : Z;
  hasUpdateAccountStatus : bool
}.

(** The parsed request, once routed to the dispatcher. *)
Record ChatRequest := mkChatRequest {
  isOpenAI : bool;
  req_model : option string;
  req_stream : bool;
  req_tools : list Kiro.Tool;
  req_system : Kiro.Content;
  contextWarning : option string;
  tokenEstimate : Z
}.

(** The state of the loop over the eligible accounts.  [ls_eligible] holds
    the account objects of the snapshot, which the loop edits in place;
    [ls_messages] is the [messages] array of the request body, shared by
    all attempts; [ls_store] lists the calls made to the account store,
    [ls_invoked] the accounts for which the adapter was called. *)
Record LoopState := mkLoopState {
  ls_disabledUntil : gmap string Z;
  ls_rrIndex : nat;
  ls_eligible : list Account;
  ls_messages : list Kiro.Message;
  ls_res : Res;
  ls_streamStarted : bool;
  ls_lastError : option string;
  ls_store : list StoreCall;
  ls_ticks : nat;
  ls_invoked : list string
}.

Definition set_res (st : LoopState) (res : Res) : LoopState :=
  mkLoopState (ls_disabledUntil st) (ls_rrIndex st) (ls_eligible st)
    (ls_messages st) res (ls_streamStarted st) (ls_lastError st) (ls_store st)
    (ls_ticks st) (ls_invoked st).

Definition set_streamStarted (st : LoopState) : LoopState :=
  mkLoopState (ls_disabledUntil st) (ls_rrIndex st) (ls_eligible st)
    (ls_messages st) (ls_res st) true (ls_lastError st) (ls_store st)
    (ls_ticks st) (ls_invoked st).

Definition set_lastError (st : LoopState) (msg : string) : LoopState :=
  mkLoopState (ls_disabledUntil st) (ls_rrIndex st) (ls_eligible st)
    (ls_messages st) (ls_res st) (ls_streamStarted st) (Some msg) (ls_store st)
    (ls_ticks st) (ls_invoked st).

Definition set_disabledUntil (st : LoopState) (m : gmap string Z) : LoopState :=
  mkLoopState m (ls_rrIndex st) (ls_eligible st)
    (ls_messages st) (ls_res st) (ls_streamStarted st) (ls_lastError st)
    (ls_store st) (ls_ticks st) (ls_invoked st).

Definition set_rrIndex (st : LoopState) (i : nat) : LoopState :=
  mkLoopState (ls_disabledUntil st) i (ls_eligible st)
    (ls_messages st) (ls_res st) (ls_streamStarted st) (ls_lastError st)
    (ls_store st) (ls_ticks st) (ls_invoked st).

Definition set_account (st : LoopState) (i : nat) (a : Account) : LoopState :=
  mkLoopState (ls_disabledUntil st) (ls_rrIndex st) (<[i:=a]> (ls_eligible st))
    (ls_messages st) (ls_res st) (ls_streamStarted st) (ls_lastError st)
    (ls_store st) (ls_ticks st) (ls_invoked st).

Definition set_messages (st : LoopState) (ms : list Kiro.Message) : LoopState :=
  mkLoopState (ls_disabledUntil st) (ls_rrIndex st) (ls_eligible st)
    ms (ls_res st) (ls_streamStarted st) (ls_lastError st)
    (ls_store st) (ls_ticks st) (ls_invoked st).

Definition log_store (st : LoopState) (c : StoreCall) : LoopState :=
  mkLoopState (ls_disabledUntil st) (ls_rrIndex st) (ls_eligible st)
    (ls_messages st) (ls_res st) (ls_streamStarted st) (ls_lastError st)
    (ls_store st ++ [c]) (ls_ticks st) (ls_invoked st).

Definition log_invoked (st : LoopState) (account : string) : LoopState :=
  mkLoopState (ls_disabledUntil st) (ls_rrIndex st) (ls_eligible st)
    (ls_messages st) (ls_res st) (ls_streamStarted st) (ls_lastError st)
    (ls_store st) (ls_ticks st) (ls_invoked st ++ [account]).

Definition tick (st : LoopState) : LoopState :=
  mkLoopState (ls_disabledUntil st) (ls_rrIndex st) (ls_eligible st)
    (ls_messages st) (ls_res st) (ls_streamStarted st) (ls_lastError st)
    (ls_store st) (S (ls_ticks st)) (ls_invoked st).

Definition with_credentials (a : Account) (c : AccountCredentials) : Account :=
  mkAccount (id a) (email a) c (status a) (lastError a) (quotaExhaustedUntil a).

Definition with_status (a : Account) (s : option string) (q : option Z) : Account :=
  mkAccount (id a) (email a) (credentials a) s (lastError a) q.

(** [Object.assign(creds, updated)] *)
Definition assignCredentials (creds : AccountCredentials) (updated : CredentialsUpdate)
  : AccountCredentials :=
  mkCredentials (cu_accessToken updated) (cu_refreshToken updated)
    (clientId creds) (clientSecret creds) (region creds)
    (cu_expiresAt updated) (authMethod creds).

(** [refreshed.refreshToken ?? creds.refreshToken] *)
Definition nullish {A : Type} (a b : option A) : option A :=
  match a with Some x => Some x | None => b end.

(** The object [updated] built after a refresh, [now] being the value of
    [Date.now()]. *)
Definition refreshedCredentials (creds : AccountCredentials)
  (refreshed : RefreshResult) (now : Z) : CredentialsUpdate :=
  mkCredentialsUpdate (rr_accessToken refreshed)
    (nullish (rr_refreshToken refreshed) (refreshToken creds))
    (now + match rr_expiresIn refreshed with Some s => s | None => 3600 end * 1000).

(** How an attempt or a handler ends: it has returned from the request
    handler, it goes on with the loop, or (inside [try]) it has thrown. *)
Inductive Flow : Type :=
| Returned (st : LoopState)
| Continue (st : LoopState)
| Threw (error : Error) (st : LoopState).

(** Reading [credentials] of an undefined account. *)
Definition typeErrorNoAccount : Error :=
  plainError "Cannot read properties of undefined (reading 'credentials')".

Section Dispatcher.
Variable w : World.
Variable options : ProxyOptions.
Variable request : ChatRequest.

(** [!creds.accessToken || isTokenNearExpiry(creds.expiresAt,
    refreshBeforeExpiryMs)], with the state after the reading of the
    clock, if any: [isTokenNearExpiry] reads it only for a non-zero
    [expiresAt]. *)
Definition tokenCheck (st : LoopState) (creds : AccountCredentials)
  : bool * LoopState :=
  if negb (nonEmpty (accessToken creds)) then (true, st)
  else if expiresAt creds =? 0 then (false, st)
  else (expiresAt creds <=? clock w (ls_ticks st) + refreshBeforeExpiryMs options,
        tick st).

(** The head of the [try] block: the token of the chosen account is
    refreshed when it is missing or near expiry.  The result is the
    state after it, or the error thrown. *)
Definition ensureFreshToken (st : LoopState) (i : nat) (account : Account)
  : Flow :=
  let creds := credentials account in
  let '(nearExpiry, st1) := tokenCheck st creds in
  if nearExpiry then
    match refreshAccountToken w account with
    | Throw e => Threw e st1
    | Ok refreshed =>
        if negb (nonEmpty (rr_accessToken refreshed))
        then Threw (plainError "Refresh returned no access token") st1
        else
          let updated :=
            refreshedCredentials creds refreshed (clock w (ls_ticks st1)) in
          let account' := with_credentials account (assignCredentials creds updated) in
          Continue
            (log_store (set_account (tick st1) i account')
               (UpdateAccountCredentials (id account) updated))
    end
  else Continue st1.

(** [sanitizeClaudeCodeTools]: the description of a tool named [Bash]
    that mentions Claude Code is replaced. *)
Definition sanitizeClaudeCodeTools (tools : list Kiro.Tool) : list Kiro.Tool :=
  map (fun tool =>
         if (Kiro.tool_name tool =? "Bash")%string
            && nonEmpty (BASH_DESCRIPTION w)
            && includes "Claude Code" (Kiro.tool_description tool)
         then Kiro.mkTool (Kiro.tool_name tool) (BASH_DESCRIPTION w)
                (Kiro.tool_input_schema tool)
         else tool)
      tools.

(** [apiRequestBody], with the current content of its [messages]. *)
Definition apiRequestBody (st : LoopState) : Kiro.Body :=
  Kiro.mkBody (ls_messages st)
    (if isOpenAI request then req_tools request
     else sanitizeClaudeCodeTools (req_tools request))
    (req_system request).

(** [requestBody?.model || 'claude-opus-4-5'] *)
Definition requestModel : string :=
  match req_model request with
  | Some m => if nonEmpty m then m else "claude-opus-4-5"
  | None => "claude-opus-4-5"
  end.

(** The service built from the credentials of the account:
    [new KiroApiService(kiroConfig)]. *)
Definition kiroService (account : Account) : Kiro.Service :=
  Kiro.mkService (authMethod (credentials account)) None None None.

Definition kiroStream (st : LoopState) (account : Account)
  : Kiro.StreamRun Kiro.SseEvent :=
  Kiro.generateContentStream (parseFrame w) (JSON_parse w) (JSON_stringify w)
    (repairJson w) (uuidv4 w) (messageId w) (toolUuid w) (countTextTokens w) (toolsJson w)
    (kiroService account) (streamUpstream w (id account))
    (forcedRefresh w (id account)) requestModel (apiRequestBody st).

Definition kiroUnary (st : LoopState) (account : Account)
  : Kiro.Run Kiro.ClaudeMessage :=
  Kiro.generateContent (JSON_parse w) (JSON_stringify w) (repairJson w)
    (uuidv4 w) (messageId w) (countTextTokens w) (toolsJson w)
    (eventPayloads w) (kiroService account) (unaryUpstream w (id account))
    (forcedRefresh w (id account)) (visibleText w) requestModel (apiRequestBody st).

(** The response headers of a stream, written with its first chunk. *)
Definition startStream (st : LoopState) (firstWrites : list Write) : LoopState :=
  if ls_streamStarted st then st
  else
    let res1 := writeHead (ls_res st) 200 in
    set_streamStarted (set_res st (fold_left write firstWrites res1)).

(** The body of [for await (const chunk of generateContentStream(...))] on
    the Anthropic endpoint. *)
Definition writeClaudeChunk (st : LoopState) (chunk : Kiro.SseEvent) : LoopState :=
  let st1 :=
    startStream st
      match contextWarning request with
      | Some message =>
          if nonEmpty message then [WWarningEvent message (tokenEstimate request)]
          else []
      | None => []
      end in
  set_res st1 (write (ls_res st1) (WEvent chunk)).

(** The same on the OpenAI endpoint; [openaiId] is carried along. *)
Definition writeOpenAIChunk (created : Z) (acc : LoopState * string)
  (chunk : Kiro.SseEvent) : LoopState * string :=
  let '(st, openaiId) := acc in
  let st1 :=
    startStream st
      match contextWarning request with
      | Some message =>
          if nonEmpty message then
            [WData (buildOpenAIStreamChunk w openaiId requestModel created "role");
             WData (buildOpenAIStreamChunk w openaiId requestModel created
                      ("[Warning] " ++ message))]
          else []
      | None => []
      end in
  let openaiId1 :=
    match chunk with
    | Kiro.MessageStart mid _ _ => if nonEmpty mid then mid else openaiId
    | _ => openaiId
    end in
  let openaiChunks :=
    convertClaudeStreamChunkToOpenAIChunks w chunk requestModel openaiId1 created in
  (set_res st1 (fold_left write (map WData openaiChunks) (ls_res st1)), openaiId1).

(** The [try] block of an attempt, after the choice of the account. *)
Definition tryBlock (st : LoopState) (i : nat) (account : Account) : Flow :=
  match ensureFreshToken st i account with
  | Threw e st1 => Threw e st1
  | Returned st1 => Returned st1
  | Continue st1 =>
      let account1 :=
        match ls_eligible st1 !! i with Some a => a | None => account end in
      let st2 := log_invoked st1 (id account1) in
      if req_stream request then
        if negb (isOpenAI request) then
          let r := kiroStream st2 account1 in
          let st3 :=
            set_messages (fold_left writeClaudeChunk (Kiro.sr_yields r) st2)
              (Kiro.sr_messages r) in
          match Kiro.sr_thrown r with
          | Some e => Threw e st3
          | None =>
              Returned (if ls_streamStarted st3
                        then set_res st3 (endRes (ls_res st3)) else st3)
          end
        else
          let created := clock w (ls_ticks st2) / 1000 in
          let openaiId := "chatcmpl_" ++ numberToString w (clock w (S (ls_ticks st2))) in
          let st2' := tick (tick st2) in
          let r := kiroStream st2' account1 in
          let '(st3a, _) :=
            fold_left (writeOpenAIChunk created) (Kiro.sr_yields r) (st2', openaiId) in
          let st3 := set_messages st3a (Kiro.sr_messages r) in
          match Kiro.sr_thrown r with
          | Some e => Threw e st3
          | None =>
              Returned (if ls_streamStarted st3
                        then set_res st3 (endRes (write (ls_res st3) WDone))
                        else st3)
          end
      else
        let r := kiroUnary st2 account1 in
        let st3 := set_messages st2 (Kiro.run_messages r) in
        match Kiro.run_result r with
        | Throw e => Threw e st3
        | Ok result =>
            Returned
              (set_res st3
                 (sendJson (ls_res st3) 200
                    (if isOpenAI request
                     then OpenAIPayload (claudeToOpenAIResponse w result)
                            (contextWarning request)
                     else ClaudePayload result (contextWarning request))))
        end
  end.

(** [if (streamStarted || res.headersSent)] *)
Definition responseStarted (st : LoopState) : bool :=
  ls_streamStarted st || headersSent (ls_res st).

(** [if (!res.writableEnded) res.end(); return] *)
Definition closeConnection (st : LoopState) : Flow :=
  Returned (set_res st (endIfOpen (ls_res st))).

(** [lastError || fallback] *)
Definition orFallback (msg fallback : string) : string :=
  if nonEmpty msg then msg else fallback.

(** The [catch] block of an attempt: the disposition of the error thrown
    for the account at position [i]. *)
Definition catchBlock (st0 : LoopState) (i : nat) (account : Account)
  (error : Error) : Flow :=
  let lastError := err_message error in
  let st := set_lastError st0 lastError in
  match err_status error with
  | None =>
      if responseStarted st then closeConnection st
      else Returned
             (set_res st
                (sendJson (ls_res st) 502
                   (ErrorPayload (orFallback lastError "Upstream connection failed")
                      None)))
  | Some statusCode =>
      if statusCode =? 400 then
        if responseStarted st then closeConnection st
        else Returned
               (set_res st
                  (sendJson (ls_res st) 400
                     (ErrorPayload (orFallback lastError "Bad Request")
                        match contextWarning request with
                        | Some message =>
                            if nonEmpty message
                            then Some (message, tokenEstimate request) else None
                        | None => None
                        end)))
      else
        let st1 :=
          if statusCode =? 402 then
            let resetAt := getNextMonthStartMs (tza w) (clock w (ls_ticks st)) in
            let st' :=
              set_account
                (set_disabledUntil (tick st)
                   (<[id account := resetAt]> (ls_disabledUntil st)))
                i (with_status account (Some "quota_exhausted") (Some resetAt)) in
            if hasUpdateAccountStatus options then
              log_store st'
                (UpdateAccountStatus (id account)
                   (mkStatusUpdate "quota_exhausted" (Some resetAt) lastError))
            else st'
          else
            set_disabledUntil (tick st)
              (<[id account := clock w (ls_ticks st) + cooldownMs options]>
                 (ls_disabledUntil st)) in
        if responseStarted st1 then closeConnection st1 else Continue st1
  end.

(** One round of the loop over the eligible accounts. *)
Definition attempt (st : LoopState) : Flow :=
  let n := List.length (ls_eligible st) in
  let i := (ls_rrIndex st mod n)%nat in
  match ls_eligible st !! i with
  | None => Threw typeErrorNoAccount st
  | Some account =>
      let st1 := set_rrIndex st ((ls_rrIndex st + 1) mod n)%nat in
      match tryBlock st1 i account with
      | Threw error st2 =>
          catchBlock st2 i
            (match ls_eligible st2 !! i with Some a => a | None => account end)
            error
      | flow => flow
      end
  end.

(** The loop [for (attempt = 0; attempt < eligible.length; attempt++)],
    with [remaining] rounds to go. *)
Fixpoint attempts (remaining : nat) (st : LoopState) : Flow :=
  match remaining with
  | O => Continue st
  | S k =>
      match attempt st with
      | Continue st' => attempts k st'
      | flow => flow
      end
  end.

(** The loop and what follows it: [502] when no response was started. *)
Definition runAttempts (st : LoopState) : LoopState :=
  match attempts (List.length (ls_eligible st)) st with
  | Returned st' => st'
  | Threw _ st' => st'
  | Continue st' =>
      if headersSent (ls_res st') then st'
      else set_res st'
             (sendJson (ls_res st') 502
                (ErrorPayload
                   (orFallback (match ls_lastError st' with Some m => m | None => "" end)
                      "Upstream failure")
                   None))
  end.

(** [account.credentials?.refreshToken], as a test. *)
Definition hasRefreshToken (account : Account) : bool :=
  match refreshToken (credentials account) with
  | Some t => nonEmpty t
  | None => false
  end.

(** One round of the loop that selects the eligible accounts at time
    [now]: an account in cooldown is skipped, an expired cooldown is
    deleted, an account whose quota window has not elapsed is skipped, and
    one whose window has elapsed is made [active] again. *)
Definition checkAccount (now : Z) (disabledUntil : gmap string Z)
  (account : Account) : option Account * gmap string Z * list StoreCall :=
  let disabled :=
    match disabledUntil !! id account with
    | Some d => if d =? 0 then None else Some d
    | None => None
    end in
  let quotaCheck (disabledUntil' : gmap string Z) :=
    match status account, quotaExhaustedUntil account with
    | Some s, Some q =>
        if (s =? "quota_exhausted")%string && negb (q =? 0) then
          if now <? q then (None, disabledUntil', [])
          else (Some (with_status account (Some "active") None), disabledUntil',
                if hasUpdateAccountStatus options
                then [UpdateAccountStatus (id account)
                        (mkStatusUpdate "active" None "")]
                else [])
        else (Some account, disabledUntil', [])
    | _, _ => (Some account, disabledUntil', [])
    end in
  match disabled with
  | Some d =>
      if now <? d then (None, disabledUntil, [])
      else quotaCheck (delete (id account) disabledUntil)
  | None => quotaCheck disabledUntil
  end.

Fixpoint selectEligible (now : Z) (accounts : list Account)
  (disabledUntil : gmap string Z)
  : list Account * gmap string Z * list StoreCall :=
  match accounts with
  | [] => ([], disabledUntil, [])
  | account :: rest =>
      let '(kept, disabledUntil1, calls1) := checkAccount now disabledUntil account in
      let '(eligible, disabledUntil2, calls2) := selectEligible now rest disabledUntil1 in
      ((match kept with Some a => [a] | None => [] end ++ eligible)%list,
       disabledUntil2, (calls1 ++ calls2)%list)
  end.

(** What the server keeps between requests. *)
Record ServerState := mkServerState {
  disabledUntil : gmap string Z;
  rrIndex : nat
}.

(** The dispatcher, for a request routed to it: [accountData] lists the
    accounts of the store in the order of [Object.entries], [messages] is
    the [messages] array of the body. *)
Definition dispatch (server : ServerState) (accountData : list Account)
  (messages : list Kiro.Message) : LoopState :=
  let st0 :=
    mkLoopState (disabledUntil server) (rrIndex server) [] messages freshRes
      false None [] 0 [] in
  let accounts := filter (fun a => hasRefreshToken a = true) accountData in
  if (List.length accounts =? 0)%nat then
    set_res st0 (sendJson freshRes 503 (ErrorPayload "No accounts available" None))
  else
    let now := clock w 0 in
    let '(eligible, disabledUntil', calls) :=
      selectEligible now accounts (disabledUntil server) in
    let st1 :=
      mkLoopState disabledUntil' (rrIndex server) eligible messages freshRes
        false None calls 1 [] in
    if (List.length eligible =? 0)%nat then
      set_res st1
        (sendJson freshRes 503 (ErrorPayload "No healthy accounts available" None))
    else runAttempts st1.

End Dispatcher.

End Proxy.


(** ** proxy-server.ts: the multipart parser of the account import

    A [Buffer] is a string of bytes. *)

Module Multipart.
Import Js.

Local Notation "x 'eqn:' p" := (exist _ x p) (only parsing, at level 20).

(** [buffer.slice(a, b)] for [0 <= a]: empty when [b <= a]. *)
Definition slice (a b : nat) (buffer : string) : string :=
  String.substring a (b - a) buffer.

Lemma substring_length (s : string) : forall a m,
  (String.length (String.substring a m s) <= String.length s - a)%nat.
Proof.
  induction s as [|x s IH]; intros [|a] [|m]; cbn [String.substring String.length];
    try lia.
  - specialize (IH 0%nat m). lia.
  - apply IH.
  - apply IH.
Qed.

Lemma indexOf_inside (c : ascii) (rest buffer : string) start index :
  indexOf (String c rest) start buffer = Some index ->
  (start <= index)%nat
  /\ (index + String.length (String c rest) <= String.length buffer)%nat
  /\ slice index (index + String.length (String c rest)) buffer = String c rest.
Proof.
  intros found. pose proof (Kiro.indexOf_from _ _ _ _ found) as Hle.
  apply String.index_correct1 in found.
  pose proof (substring_length buffer index (String.length (String c rest))) as L.
  rewrite found in L. unfold slice.
  replace (index + String.length (String c rest) - index)%nat
    with (String.length (String c rest)) by lia.
  cbn [String.length] in *. repeat split; [exact Hle|lia|exact found].
Qed.

(** The loop of [splitBuffer] for the delimiter [String c rest]; [start]
    and [parts] are its variables. *)
Equations? splitBuffer_loop (buffer : string) (c : ascii) (rest : string)
  (start : nat) (parts : list string) : list string
  by wf (String.length buffer - start)%nat lt :=
splitBuffer_loop buffer c rest start parts
  with Kiro.inspect (indexOf (String c rest) start buffer) => {
  | None eqn: none => (parts ++ [substringFrom start buffer])%list;
  | Some index eqn: found =>
      splitBuffer_loop buffer c rest (index + String.length (String c rest))
        (parts ++ [slice start index buffer])%list }.
Proof.
  apply indexOf_inside in found as (Hle & Hlen & _).
  cbn [String.length] in *. lia.
Qed.

(** [splitBuffer(buffer, delimiter)].  With an empty delimiter
    [indexOf] never answers [-1] and the loop of the source does not
    end: [None] stands for that. *)
Definition splitBuffer (buffer delimiter : string) : option (list string) :=
  match delimiter with
  | EmptyString => None
  | String c rest => Some (splitBuffer_loop buffer c rest 0 [])
  end.

(** An uploaded file. *)
Record File := mkFile {
  filename : string;
  content : string;
  contentType : string
}.

(** Match of the literal [lit] at the head of [s]; the rest of [s] on
    success. *)
Fixpoint stripPrefix (lit s : string) : option string :=
  match lit, s with
  | EmptyString, _ => Some s
  | String a lit', String b s' =>
      if ascii_eqb a b then stripPrefix lit' s' else None
  | String _ _, EmptyString => None
  end.

Definition notQuote (ch : ascii) : bool := negb (ascii_eqb ch doubleQuote).

(** [\r] and [\n] *)
Definition notBreak (ch : ascii) : bool :=
  negb (ascii_eqb ch "013") && negb (ascii_eqb ch "010").

(** One attempt, at the head of [s], of the pattern that reads [key=],
    a double quote, one or more characters other than the double quote
    (the capture), and a double quote: the run of such characters is
    taken whole, and a quote has to follow it. *)
Definition quotedAt (key s : string) : option string :=
  match stripPrefix (key ++ "=" ++ String doubleQuote "") s with
  | None => None
  | Some s1 =>
      match span notQuote s1 with
      | (String a value, String _ _) => Some (String a value)
      | _ => None
      end
  end.

(** [exec] of that pattern on [s]: the leftmost match. *)
Fixpoint quotedMatch (key s : string) : option string :=
  match quotedAt key s with
  | Some value => Some value
  | None =>
      match s with
      | EmptyString => None
      | String _ s' => quotedMatch key s'
      end
  end.

(** The last character of a run of white space that is not a line
    break. *)
Fixpoint lastNotBreak (ws : string) : option ascii :=
  match ws with
  | EmptyString => None
  | String ch ws' =>
      match lastNotBreak ws' with
      | Some found => Some found
      | None => if notBreak ch then Some ch else None
      end
  end.

(** One attempt of [/Content-Type:\s*([^\r\n]+)/i] at the head of [s].
    The white space is taken whole when a character follows it, which
    then is no line break and starts the capture; at the end of the
    text the white space gives back its characters down to the last one
    that is no line break, which is the capture. *)
Definition contentTypeAt (s : string) : option string :=
  match stripPrefixCI "content-type:" s with
  | None => None
  | Some s1 =>
      let '(ws, rest) := span isSpace s1 in
      match rest with
      | String _ _ => Some (fst (span notBreak rest))
      | EmptyString =>
          match lastNotBreak ws with
          | Some ch => Some (String ch EmptyString)
          | None => None
          end
      end
  end.

Fixpoint contentTypeMatch (s : string) : option string :=
  match contentTypeAt s with
  | Some value => Some value
  | None =>
      match s with
      | EmptyString => None
      | String _ s' => contentTypeMatch s'
      end
  end.

Definition CRLF : string := String "013" (String "010" EmptyString).

(** One round of the loop of [parseMultipart] over the parts.  [files]
    holds the own properties of the object: the assignment of an object
    to the key [__proto__] sets the prototype and adds no property.  The
    head is read as its bytes, which is [toString('utf8')] for a head of
    seven-bit characters. *)
Definition parsePart (files : gmap string File) (part : string)
  : gmap string File :=
  match indexOf (CRLF ++ CRLF) 0 part with
  | None => files
  | Some index =>
      let head := slice 0 index part in
      let content := slice (index + 4) (String.length part - 2) part in
      match quotedMatch "name" head, quotedMatch "filename" head with
      | Some name, Some filename =>
          if (name =? "__proto__")%string then files
          else
            <[name := mkFile filename content
                        (match contentTypeMatch head with
                         | Some contentType => contentType
                         | None => "application/octet-stream"
                         end)]> files
      | _, _ => files
      end
  end.

(** [parseMultipart(body, boundary)]: the [files] of its result.  The
    parts between the first and the last delimiter are read:
    [splitBuffer(body, delimiter).slice(1, -1)]. *)
Definition parseMultipart (body boundary : string) : gmap string File :=
  let parts := splitBuffer_loop body "-" ("-" ++ boundary) 0 [] in
  fold_left parsePart (removelast (tail parts)) ∅.

End Multipart.


(** ** proxy-server.ts: the chunks of the OpenAI endpoint

    [convertClaudeStreamChunkToOpenAIChunks] on the chunks that the
    adapter yields. *)

Module OpenAI.
Import Js.

Record Usage := mkUsage {
  prompt_tokens : Z;
  completion_tokens : Z;
  total_tokens : Z;
  cached_tokens : Z
}.

(** The [delta] of a chunk. *)
Inductive Delta : Type :=
| DRole (content : string)                 (* { role: 'assistant', content } *)
| DContent (content : string)              (* { content } *)
| DToolCall (index : nat) (id name arguments : string)
                                           (* the first chunk of a tool call *)
| DToolCallArguments (index : nat) (arguments : string)
| DNone.                                   (* {} *)

Record Chunk := mkChunk {
  chunk_id : string;
  chunk_created : Z;
  chunk_model : string;
  chunk_delta : Delta;
  chunk_finish_reason : option string;
  chunk_usage : option Usage
}.

Section Convert.
(** [Date.now()] and [String(n)]. *)
Variable now : Z.
Variable numberToString : Z -> string.

(** [id?.startsWith('call_') ? id : `call_${id || `${name}_${Date.now()}`}`] *)
Definition toolId (id name : string) : string :=
  if String.prefix "call_" id then id
  else "call_" ++ (if nonEmpty id then id else name ++ "_" ++ numberToString now).

(** The mapping of the stop reason to [finish_reason]. *)
Definition finishReason (stopReason : string) : string :=
  if (stopReason =? "end_turn")%string then "stop"
  else if (stopReason =? "max_tokens")%string then "length"
  else if (stopReason =? "tool_use")%string then "tool_calls"
  else if nonEmpty stopReason then stopReason else "stop".

Definition convertClaudeStreamChunkToOpenAIChunks (claudeChunk : Kiro.SseEvent)
  (model openaiId : string) (created : Z) : list Chunk :=
  let chunkId :=
    if nonEmpty openaiId then openaiId else "chatcmpl_" ++ numberToString now in
  let timestamp := if created =? 0 then now / 1000 else created in
  let buildChunk delta finish usage :=
    mkChunk chunkId timestamp model delta finish usage in
  match claudeChunk with
  | Kiro.MessageStart _ _ input_tokens =>
      [buildChunk (DRole "") None
         (Some (mkUsage input_tokens 0 input_tokens 0))]
  | Kiro.ContentBlockStartText _ => [buildChunk (DContent "") None None]
  | Kiro.ContentBlockStartToolUse index id name =>
      [buildChunk (DToolCall index (toolId id name) name "") None None]
  | Kiro.ContentBlockDeltaText _ text => [buildChunk (DContent text) None None]
  | Kiro.ContentBlockDeltaInputJson index partial_json =>
      [buildChunk (DToolCallArguments index partial_json) None None]
  | Kiro.ContentBlockStop _ => [buildChunk DNone None None]
  | Kiro.MessageDelta stop_reason output_tokens =>
      [buildChunk DNone (Some (finishReason stop_reason))
         (Some (mkUsage 0 output_tokens (0 + output_tokens) 0))]
  | Kiro.MessageStop => [buildChunk DNone (Some "stop") None]
  end.

(** The chunks written for the chunks of a stream. *)
Definition convertStream (chunks : list Kiro.SseEvent) (model openaiId : string)
  (created : Z) : list Chunk :=
  concat (map (fun chunk =>
                 convertClaudeStreamChunkToOpenAIChunks chunk model openaiId created)
            chunks).

End Convert.
End OpenAI.


(** ** A world for the concrete runs

    [JSON.parse] and [JSON.stringify] are given on the literals that occur
    in the runs; the clock stands at 12:00 UTC on 15 November 2026 and the
    local zone is UTC. *)

Module Demo.
Import Js.

(** The JSON text of an object with the single key [q] and the string
    value [v]. *)
Definition qObject (v : string) : string :=
  "{" ++ quoted "q" ++ ":" ++ quoted v ++ "}".

Definition JSON_parse (s : string) : option JValue :=
  if (s =? qObject "foo")%string then Some (JObj [("q", JStr "foo")])
  else if (s =? qObject "x")%string then Some (JObj [("q", JStr "x")])
  else if (s =? "{}")%string then Some (JObj [])
  else None.

Definition JSON_stringify (v : JValue) : string :=
  match v with
  | JObj [("q", JStr "foo")] => qObject "foo"
  | JObj [("q", JStr "x")] => qObject "x"
  | _ => "{}"
  end.

(** The JSON text of a string without control characters: quotes and
    backslashes are escaped. *)
Fixpoint escaped (s : string) : string :=
  match s with
  | EmptyString => EmptyString
  | String c s' =>
      if ascii_eqb c doubleQuote || ascii_eqb c "\"
      then String "\" (String c (escaped s'))
      else String c (escaped s')
  end.
Definition jsonString (s : string) : string := quoted (escaped s).

(** The text of a content frame and of a tool-use frame that is complete
    ([stop] is [true]). *)
Definition contentFrame (text : string) : string :=
  "{" ++ quoted "content" ++ ":" ++ jsonString text ++ "}".
Definition toolUseFrame (name toolUseId input : string) : string :=
  "{" ++ quoted "name" ++ ":" ++ jsonString name
  ++ "," ++ quoted "toolUseId" ++ ":" ++ jsonString toolUseId
  ++ "," ++ quoted "input" ++ ":" ++ jsonString input
  ++ "," ++ quoted "stop" ++ ":true}".

(** A tool call written into the text of the answer. *)
Definition calledSearch : string :=
  "[Called search with args: " ++ qObject "foo" ++ "]".

Definition contentOf (text : string) : Kiro.Frame :=
  Kiro.mkFrame (Some text) false None None None None.

(** [JSON.parse] on the frames of the runs. *)
Definition frames : list (string * Kiro.Frame) :=
  [ (contentFrame "par", contentOf "par");
    (contentFrame "a", contentOf "a");
    (contentFrame "b", contentOf "b");
    (contentFrame calledSearch, contentOf calledSearch);
    (toolUseFrame "search" "t1" (qObject "foo"),
     Kiro.mkFrame None false (Some "search") (Some "t1") (Some (qObject "foo"))
       (Some true)) ].
Definition parseFrame (s : string) : option Kiro.Frame :=
  match find (fun entry => (fst entry =? s)%string) frames with
  | Some entry => Some (snd entry)
  | None => None
  end.

Definition repairJson (s : string) : string := s.
Definition uuidv4 (n : nat) : string := "0000000" ++ String (ascii_of_nat (48 + n)) "".
Definition countTextTokens (s : string) : Z := (Z.of_nat (String.length s) + 3) / 4.
Definition now : Z := 1794744000000.

(** The upstream answers every request of every account with [answer]. *)
Definition world (unary : string -> nat -> Result string)
  (stream : string -> nat -> Kiro.StreamResponse) : Proxy.World :=
  Proxy.mkWorld (fun _ => now) 0
    (fun _ => Ok (Proxy.mkRefreshResult "fresh-access" None (Some 3600)))
    unary stream (fun _ => None) parseFrame
    JSON_parse JSON_stringify repairJson uuidv4 "msg_1" uuidv4
    countTextTokens (fun _ => "[]") (fun _ => []) (fun text _ => text)
    (fun _ => "{}") (fun _ _ _ _ => ["{}"]) (fun _ _ _ _ => "{}")
    "Executes a given bash command" (fun _ => "0").

Definition options : Proxy.ProxyOptions :=
  Proxy.mkProxyOptions (Some "secret") 60000 300000 true.

Definition account (name : string) : Proxy.Account :=
  Proxy.mkAccount name (name ++ "@example.com")
    (Proxy.mkCredentials "access" (Some "refresh") None None None
       (now + 3600000) (Some "social"))
    (Some "active") None None.

Definition server : Proxy.ServerState := Proxy.mkServerState ∅ 0.

Definition claudeRequest (stream : bool) : Proxy.ChatRequest :=
  Proxy.mkChatRequest false (Some "claude-opus-4-5") stream [] Kiro.CNull None 0.


Definition hi : list Kiro.Message := [Kiro.mkMessage "user" (Kiro.CStr "hi")].

(** The state of the loop at its start, for the eligible accounts and the
    messages given. *)
Definition loopState (eligible : list Proxy.Account) (messages : list Kiro.Message)
  : Proxy.LoopState :=
  Proxy.mkLoopState ∅ 0 eligible messages Proxy.freshRes false None [] 1 [].

(** An upstream that answers nothing of interest. *)
Definition idleUnary : string -> nat -> Result string := fun _ _ => Ok "".
Definition idleStream : string -> nat -> Kiro.StreamResponse :=
  fun _ _ => Kiro.mkStreamResponse [] None.

(** An upstream whose stream breaks after a first content frame, with an
    error that carries the status given, if any. *)
Definition brokenStream (status : option Z) : string -> nat -> Kiro.StreamResponse :=
  fun _ _ =>
    Kiro.mkStreamResponse [contentFrame "par"]
      (Some (mkError status "socket hang up")).

(** The upstream announces a tool call twice: in the text, as a bracketed
    call, and as a structured tool-use frame with the same name and
    arguments. *)
Definition announcedTwice : nat -> Kiro.StreamResponse :=
  fun _ =>
    Kiro.mkStreamResponse
      [contentFrame calledSearch ++ toolUseFrame "search" "t1" (qObject "foo")]
      None.


(** The upstream sends two content frames; the network read ends inside
    the second. *)
Definition splitFrame : nat -> Kiro.StreamResponse :=
  fun _ =>
    Kiro.mkStreamResponse
      [contentFrame "a" ++ Js.substring 0 13 (contentFrame "b");
       Js.substringFrom 13 (contentFrame "b")]
      None.

(** A conversation of the OpenAI endpoint, whose body reaches the
    translator as it is: a tool message stands between two assistant
    turns. *)
Definition toolConversation : list Kiro.Message :=
  [Kiro.mkMessage "user" (Kiro.CStr "a");
   Kiro.mkMessage "assistant" (Kiro.CStr "b");
   Kiro.mkMessage "tool" (Kiro.CStr "r");
   Kiro.mkMessage "assistant" (Kiro.CStr "c");
   Kiro.mkMessage "user" (Kiro.CStr "d")].

(** An account whose access token is missing. *)
Definition staleAccount (name : string) : Proxy.Account :=
  Proxy.mkAccount name (name ++ "@example.com")
    (Proxy.mkCredentials "" (Some "refresh") None None None 0 (Some "social"))
    (Some "active") None None.

(** A world in which the refresh of every account fails. *)
Definition refreshFails : Proxy.World :=
  Proxy.mkWorld (fun _ => now) 0
    (fun _ => Throw (plainError "invalid_grant"))
    idleUnary idleStream (fun _ => None) parseFrame
    JSON_parse JSON_stringify repairJson uuidv4 "msg_1" uuidv4
    countTextTokens (fun _ => "[]") (fun _ => []) (fun text _ => text)
    (fun _ => "{}") (fun _ _ _ _ => ["{}"]) (fun _ _ _ _ => "{}")
    "Executes a given bash command" (fun _ => "0").


(** The head of the part of an uploaded file, and a body with that
    part. *)
Definition uploadHead : string :=
  "Content-Disposition: form-data; name=" ++ quoted "tokenFile"
  ++ "; filename=" ++ quoted "token.json" ++ Multipart.CRLF
  ++ "Content-Type: application/json".

Definition uploadBody : string :=
  "--XYZ" ++ (Multipart.CRLF ++ uploadHead) ++ Multipart.CRLF ++ Multipart.CRLF ++ "{}"
  ++ Multipart.CRLF ++ "--XYZ" ++ "--" ++ Multipart.CRLF.

(** A server in which the account [A] is in cooldown for a minute. *)
Definition coolingServer : Proxy.ServerState :=
  Proxy.mkServerState (<["A" := now + 60000]> ∅) 0.

End Demo.


(** ** What the properties observe *)

Module Observe.
Import Js.

(** Number of forced credential refreshes in a trace, its back-off
    delays in order, and the number of requests sent. *)
Fixpoint refreshes (t : list Kiro.Action) : nat :=
  match t with
  | [] => 0
  | Kiro.Refresh :: t' => S (refreshes t')
  | _ :: t' => refreshes t'
  end.

Fixpoint sleeps (t : list Kiro.Action) : list Z :=
  match t with
  | [] => []
  | Kiro.Sleep ms :: t' => ms :: sleeps t'
  | _ :: t' => sleeps t'
  end.

Fixpoint sends (t : list Kiro.Action) : nat :=
  match t with
  | [] => 0
  | Kiro.Send _ :: t' => S (sends t')
  | _ :: t' => sends t'
  end.

(** The delays [base * 2^n] for [n = from, from + 1, ...], [count] of
    them. *)
Definition backoff (base : Z) (from count : nat) : list Z :=
  map (fun n => base * 2 ^ Z.of_nat n) (seq from count).

(** Concatenation of a list of strings. *)
Definition joinAll (l : list string) : string := fold_right String.append "" l.

(** The text of the text deltas of a sequence of chunks, in order. *)
Fixpoint emittedText (chunks : list Kiro.SseEvent) : string :=
  match chunks with
  | [] => ""
  | Kiro.ContentBlockDeltaText _ text :: rest => text ++ emittedText rest
  | _ :: rest => emittedText rest
  end.

(** The payloads of the content events of a list of events, in order. *)
Fixpoint contentPayloads (events : list Kiro.StreamEvent) : list string :=
  match events with
  | [] => []
  | Kiro.EvContent data :: rest => data :: contentPayloads rest
  | _ :: rest => contentPayloads rest
  end.

(** The non-empty payloads of the content events of a list. *)
Fixpoint nonEmptyPayloads (events : list Kiro.StreamEvent) : list string :=
  match events with
  | [] => []
  | Kiro.EvContent data :: rest =>
      if nonEmpty data then data :: nonEmptyPayloads rest else nonEmptyPayloads rest
  | _ :: rest => nonEmptyPayloads rest
  end.

(** The payload retained last, [previous] when none is retained. *)
Definition lastOf (previous : option string) (kept : list string) : option string :=
  match last kept with
  | Some p => Some p
  | None => previous
  end.

(** The events that [parseAwsEventStreamBuffer] extracts over the network
    reads of a response, in order; [buffer] is what the reads before
    left. *)
Fixpoint extracted (parseFrame : string -> option Kiro.Frame)
  (chunks : list string) (buffer : string) : list Kiro.StreamEvent :=
  match chunks with
  | [] => []
  | chunk :: rest =>
      let '(events, remaining) :=
        Kiro.parseAwsEventStreamBuffer parseFrame (buffer ++ chunk) in
      (events ++ extracted parseFrame rest remaining)%list
  end.

(** From the words of the amended text-preservation property: the
    payloads that are retained, an empty payload and a payload equal to
    the one retained last being dropped. *)
Fixpoint retained (payloads : list string) (previous : option string)
  : list string :=
  match payloads with
  | [] => []
  | p :: rest =>
      if (p =? "")%string then retained rest previous
      else if match previous with
              | Some q => (q =? p)%string
              | None => false
              end
           then retained rest previous
           else p :: retained rest (Some p)
  end.

(** The [tool_use] blocks opened in a sequence of chunks: index, name. *)
Fixpoint toolUseStarts (chunks : list Kiro.SseEvent) : list (nat * string) :=
  match chunks with
  | [] => []
  | Kiro.ContentBlockStartToolUse i _ name :: rest => (i, name) :: toolUseStarts rest
  | _ :: rest => toolUseStarts rest
  end.

(** The [input_json_delta] payloads of a sequence of chunks: index,
    arguments. *)
Fixpoint inputJsonDeltas (chunks : list Kiro.SseEvent) : list (nat * string) :=
  match chunks with
  | [] => []
  | Kiro.ContentBlockDeltaInputJson i json :: rest => (i, json) :: inputJsonDeltas rest
  | _ :: rest => inputJsonDeltas rest
  end.

(** The three chunks of the tool-use block of index [i]. *)
Definition toolUseTriple (i : nat) (block : string * string * string)
  : list Kiro.SseEvent :=
  let '(toolId, name, json) := block in
  [Kiro.ContentBlockStartToolUse i toolId name;
   Kiro.ContentBlockDeltaInputJson i json;
   Kiro.ContentBlockStop i].

Fixpoint toolUseTriples (i : nat) (blocks : list (string * string * string))
  : list Kiro.SseEvent :=
  match blocks with
  | [] => []
  | b :: rest => (toolUseTriple i b ++ toolUseTriples (S i) rest)%list
  end.

(** From the words of the specification: the event sequence of an
    Anthropic stream, with [deltas] text deltas and one triple per tool
    call, the stop reason telling whether there is a tool call. *)
Definition anthropicSequence (chunks : list Kiro.SseEvent) : Prop :=
  exists (mid model : string) (inputTokens outputTokens : Z)
         (deltas : list string) (blocks : list (string * string * string)),
    chunks =
      ([Kiro.MessageStart mid model inputTokens; Kiro.ContentBlockStartText 0]
       ++ map (Kiro.ContentBlockDeltaText 0) deltas
       ++ [Kiro.ContentBlockStop 0]
       ++ toolUseTriples 1 blocks
       ++ [Kiro.MessageDelta
             (match blocks with [] => "end_turn" | _ => "tool_use" end)
             outputTokens;
           Kiro.MessageStop])%list.

(** Kind of a history entry, and strict alternation of a history. *)
Fixpoint alternates (history : list Kiro.HistoryEntry) : bool :=
  match history with
  | e1 :: (e2 :: _) as rest =>
      negb (Bool.eqb (Kiro.isAssistantEntry e1) (Kiro.isAssistantEntry e2))
      && alternates rest
  | _ => true
  end.

(** A message with one of the two roles of the Anthropic format, and
    whether it is an assistant turn. *)
Definition conversational (m : Kiro.Message) : Prop :=
  Kiro.role m = "user" \/ Kiro.role m = "assistant".

Definition isAssistant (m : Kiro.Message) : bool :=
  (Kiro.role m =? "assistant")%string.

(** No two neighbours of a list of booleans are equal. *)
Fixpoint alternating (ks : list bool) : bool :=
  match ks with
  | a :: (b :: _) as rest => negb (Bool.eqb a b) && alternating rest
  | _ => true
  end.

(** From the words of the amended authorization property: the requests
    that are answered without a look at the key, namely an [OPTIONS]
    request, [GET /health], [GET /admin], and a request with a method other
    than [POST] that matches no route. *)
Definition answeredWithoutKey (req : Proxy.Request) : bool :=
  let m := Proxy.method req in
  let p := Proxy.pathname req in
  (m =? "OPTIONS")%string
  || ((m =? "GET")%string && ((p =? "/health")%string || (p =? "/admin")%string))
  || (negb (m =? "POST")%string
      && negb ((m =? "GET")%string
               && ((p =? "/admin/data")%string || (p =? "/v1/models")%string))
      && negb ((m =? "DELETE")%string && (p =? "/admin/account")%string)).



(** *** Observers of the bracket scanner *)

(** Openings minus closings in a text. *)
Fixpoint nesting (openChar closeChar : ascii) (s : string) : Z :=
  match s with
  | EmptyString => 0
  | String char s' =>
      (if ascii_eqb char openChar then 1
       else if ascii_eqb char closeChar then -1 else 0)
      + nesting openChar closeChar s'
  end.

(** A text without double quote and without backslash. *)
Fixpoint withoutQuotes (s : string) : bool :=
  match s with
  | EmptyString => true
  | String char s' =>
      negb (ascii_eqb char doubleQuote) && negb (ascii_eqb char "\") && withoutQuotes s'
  end.

(** *** Observers of the request translator *)

(** A list of roles with the repeats of a neighbour removed. *)
Fixpoint collapsed (roles : list string) : list string :=
  match roles with
  | a :: (b :: _) as rest =>
      if (a =? b)%string then collapsed rest else a :: collapsed rest
  | _ => roles
  end.

(** No two neighbours of a list of roles are equal. *)
Fixpoint neighboursDiffer (roles : list string) : bool :=
  match roles with
  | a :: (b :: _) as rest => negb (a =? b)%string && neighboursDiffer rest
  | _ => true
  end.

(** The tool results of the user turns of a history. *)
Definition entryToolResults (e : Kiro.HistoryEntry) : list Kiro.ToolResult :=
  match e with
  | Kiro.HUser m => Kiro.uim_toolResults m
  | Kiro.HAssistant _ => []
  end.

(** *** Observers of the streams *)

(** The chunks that close a text block, a message or a stream. *)
Definition closesBlock (chunk : Kiro.SseEvent) : bool :=
  match chunk with
  | Kiro.ContentBlockStop _ | Kiro.MessageDelta _ _ | Kiro.MessageStop => true
  | _ => false
  end.

(** Two upstreams that answer every request alike but for the body of an
    answer that is not an error. *)
Definition alikeButBody (u1 u2 : nat -> Result string) : Prop :=
  forall n,
    match u1 n, u2 n with
    | Ok _, Ok _ => True
    | Throw e1, Throw e2 => e1 = e2
    | _, _ => False
    end.

(** Name and input of the [tool_use] blocks of a content array. *)
Fixpoint toolUseBlocksOf (content : list Kiro.ContentBlock)
  : list (string * JValue) :=
  match content with
  | [] => []
  | Kiro.ToolUseBlock name input :: rest => (name, input) :: toolUseBlocksOf rest
  | Kiro.TextBlock _ :: rest => toolUseBlocksOf rest
  end.

(** The five openings of a frame. *)
Definition openings : list string :=
  [ "{" ++ quoted "content" ++ ":";
    "{" ++ quoted "name" ++ ":";
    "{" ++ quoted "followupPrompt" ++ ":";
    "{" ++ quoted "input" ++ ":";
    "{" ++ quoted "stop" ++ ":" ].

(** A whole frame: a text that starts with one of the openings and whose
    first brace is closed by its last character. *)
Definition wholeFrame (text : string) : bool :=
  existsb (fun opening => String.prefix opening text) openings
  && match Kiro.frameEnd text 0 0 false false with
     | Some jsonEnd => (S jsonEnd =? String.length text)%nat
     | None => false
     end.

(** *** Observers of the account pool *)

(** An account whose cooldown is in force at [now]. *)
Definition cooling (now : Z) (disabledUntil : gmap string Z) (a : Proxy.Account)
  : bool :=
  match disabledUntil !! Proxy.id a with
  | Some d => negb (d =? 0) && (now <? d)
  | None => false
  end.

(** An account marked [quota_exhausted] whose window has not elapsed at
    [now]. *)
Definition quotaBlocked (now : Z) (a : Proxy.Account) : bool :=
  match Proxy.status a, Proxy.quotaExhaustedUntil a with
  | Some s, Some q => (s =? "quota_exhausted")%string && negb (q =? 0) && (now <? q)
  | _, _ => false
  end.

(** The cooldowns in force at [now] in [du] are in [du'], which has no
    other entries than [du]. *)
Definition keepsCooldowns (now : Z) (du du' : gmap string Z) : Prop :=
  du' ⊆ du
  /\ forall k d, du !! k = Some d -> d <> 0 -> now < d -> du' !! k = Some d.

(** *** Observers of the chunks of the OpenAI endpoint *)

(** The text carried by the [content] of a chunk, and of a list of
    chunks, in order. *)
Definition deltaText (chunk : OpenAI.Chunk) : string :=
  match OpenAI.chunk_delta chunk with
  | OpenAI.DRole content | OpenAI.DContent content => content
  | _ => ""
  end.

Fixpoint contentText (chunks : list OpenAI.Chunk) : string :=
  match chunks with
  | [] => ""
  | chunk :: rest => deltaText chunk ++ contentText rest
  end.

(** The identifier of the tool call that a chunk opens. *)
Definition toolCallId (chunk : OpenAI.Chunk) : option string :=
  match OpenAI.chunk_delta chunk with
  | OpenAI.DToolCall _ id _ _ => Some id
  | _ => None
  end.

(** The chunks of the adapter that end a message or the stream. *)
Definition endsMessage (chunk : Kiro.SseEvent) : bool :=
  match chunk with
  | Kiro.MessageDelta _ _ | Kiro.MessageStop => true
  | _ => false
  end.

(** A text of seven-bit characters. *)
Fixpoint sevenBit (s : string) : bool :=
  match s with
  | EmptyString => true
  | String ch s' => (nat_of_ascii ch <? 128)%nat && sevenBit s'
  end.

End Observe.

Example getNextMonthStartMs_nov_2026 :
  getNextMonthStartMs 0 1793491200005 = 1796083200000.
Proof. reflexivity. Qed.

Example getNextMonthStartMs_dec_2026 :
  getNextMonthStartMs 0 1796083200000 = 1798761600000.
Proof. reflexivity. Qed.

Example getNextMonthStartMs_leap_feb :
  getNextMonthStartMs 0 1709164800000 = 1709251200000.
Proof. reflexivity. Qed.

(** In a zone nine hours ahead of UTC, 15:00 UTC on 31 January 2025 is
    already 1 February local time, and the next month starts on 1 March
    local time. *)
Example getNextMonthStartMs_east :
  getNextMonthStartMs 32400000 1738335600000 = 1740754800000.
Proof. reflexivity. Qed.

Module JsDateFacts.
Import JsDate.

Lemma DayFromYear_succ y : DayFromYear (y + 1) = DayFromYear y + 365 + InLeapYear y.
Proof.
  unfold DayFromYear, InLeapYear.
  destruct (Z.eqb_spec (y mod 4) 0), (Z.eqb_spec (y mod 100) 0),
    (Z.eqb_spec (y mod 400) 0); simpl; Z.div_mod_to_equations; lia.
Qed.

Lemma YearFromDay_spec d :
  DayFromYear (YearFromDay d) <= d < DayFromYear (YearFromDay d + 1).
Proof.
  unfold YearFromDay.
  set (y := 1970 + 400 * d / 146097).
  destruct (Z.ltb_spec d (DayFromYear y)).
  - replace (y - 1 + 1) with y by lia. split; [|lia].
    unfold DayFromYear in *. subst y. Z.div_mod_to_equations. lia.
  - destruct (Z.leb_spec (DayFromYear (y + 1)) d).
    + split; [lia|].
      unfold DayFromYear in *. subst y. Z.div_mod_to_equations. lia.
    + lia.
Qed.

Ltac case_ifs :=
  repeat match goal with
    | |- context [if ?b then _ else _] =>
        match b with
        | ?x <? ?y => destruct (Z.ltb_spec0 x y)
        | ?x <=? ?y => destruct (Z.leb_spec0 x y)
        | ?x =? ?y => destruct (Z.eqb_spec x y)
        end; cbv iota
    end.

(** Evaluates [monthStart] at a literal month. *)
Ltac eval_monthStart :=
  repeat match goal with
    | |- context [monthStart ?l ?m] =>
        let m' := eval vm_compute in m in
        let r := eval cbv [monthStart Z.leb Z.eqb Z.compare Pos.compare
                             Pos.compare_cont Pos.eqb] in (monthStart l m') in
        change (monthStart l m) with r
    end.

Lemma MakeDay_index y m : MakeDay y m 1 = startDay (12 * y + m).
Proof.
  unfold startDay, MakeDay. cbn zeta.
  replace ((12 * y + m) / 12) with (y + m / 12)
    by (Z.div_mod_to_equations; lia).
  replace ((12 * y + m) mod 12) with (m mod 12)
    by (Z.div_mod_to_equations; lia).
  reflexivity.
Qed.

Lemma InLeapYear_range y : 0 <= InLeapYear y <= 1.
Proof. unfold InLeapYear. destruct (_ && _); lia. Qed.

Lemma month_range t : 0 <= MonthFromTime t <= 11.
Proof. unfold MonthFromTime, MonthFromDayWithinYear. case_ifs; lia. Qed.

Lemma startDay_succ i : startDay i < startDay (i + 1).
Proof.
  unfold startDay, MakeDay. cbn zeta.
  assert (Hm : 0 <= i mod 12 < 12) by (apply Z.mod_pos_bound; lia).
  destruct (Z.eq_dec (i mod 12) 11) as [E|E].
  - replace ((i + 1) / 12) with (i / 12 + 1) by (Z.div_mod_to_equations; lia).
    replace ((i + 1) mod 12) with 0 by (Z.div_mod_to_equations; lia).
    rewrite E, !Z.add_0_l.
    rewrite DayFromYear_succ.
    pose proof (InLeapYear_range (i / 12)).
    eval_monthStart. lia.
  - replace ((i + 1) / 12) with (i / 12) by (Z.div_mod_to_equations; lia).
    replace ((i + 1) mod 12) with (i mod 12 + 1)
      by (Z.div_mod_to_equations; lia).
    rewrite !Z.add_0_l.
    pose proof (InLeapYear_range (i / 12)).
    assert (C : i mod 12 = 0 \/ i mod 12 = 1 \/ i mod 12 = 2 \/ i mod 12 = 3 \/
                i mod 12 = 4 \/ i mod 12 = 5 \/ i mod 12 = 6 \/ i mod 12 = 7 \/
                i mod 12 = 8 \/ i mod 12 = 9 \/ i mod 12 = 10) by lia.
    repeat destruct C as [C|C]; rewrite C; eval_monthStart; lia.
Qed.

Lemma startDay_lt i j : i < j -> startDay i < startDay j.
Proof.
  intros H. replace j with (i + 1 + (j - i - 1)) by lia.
  assert (Hk : 0 <= j - i - 1) by lia.
  generalize dependent (j - i - 1). intros k Hk. clear H j.
  pattern k. apply natlike_ind; [| |exact Hk].
  - rewrite Z.add_0_r. apply startDay_succ.
  - intros x Hx IH. replace (i + 1 + Z.succ x) with (i + 1 + x + 1) by lia.
    pose proof (startDay_succ (i + 1 + x)). lia.
Qed.

(** The month of a time value is the one whose days bracket its day. *)
Lemma month_bracket t :
  startDay (monthIndex t) <= Day t < startDay (monthIndex t + 1).
Proof.
  unfold monthIndex. pose proof (month_range t) as Hm.
  replace (12 * YearFromTime t + MonthFromTime t + 1)
    with (12 * YearFromTime t + (MonthFromTime t + 1)) by lia.
  rewrite <- !MakeDay_index. unfold MakeDay. cbn zeta.
  pose proof (YearFromDay_spec (Day t)) as Hy.
  fold (YearFromTime t) in Hy. rewrite DayFromYear_succ in Hy.
  pose proof (InLeapYear_range (YearFromTime t)) as Hl.
  rewrite (Z.div_small (MonthFromTime t)), (Z.mod_small (MonthFromTime t))
    by lia.
  rewrite Z.add_0_r.
  assert (Hs : DayFromYear (YearFromTime t + (MonthFromTime t + 1) / 12)
               + monthStart
                   (InLeapYear (YearFromTime t + (MonthFromTime t + 1) / 12))
                   ((MonthFromTime t + 1) mod 12)
               = DayFromYear (YearFromTime t)
                 + monthStart (InLeapYear (YearFromTime t)) (MonthFromTime t + 1)).
  { destruct (Z.eq_dec (MonthFromTime t) 11) as [E|E].
    - rewrite E. change ((11 + 1) / 12) with 1. change ((11 + 1) mod 12) with 0.
      rewrite DayFromYear_succ. eval_monthStart. lia.
    - rewrite (Z.div_small (MonthFromTime t + 1)),
        (Z.mod_small (MonthFromTime t + 1)) by lia.
      rewrite Z.add_0_r. reflexivity. }
  rewrite Hs. clear Hs.
  unfold MonthFromTime, DayWithinYear in *.
  revert Hy Hl.
  generalize (Day t) (DayFromYear (YearFromTime t)) (InLeapYear (YearFromTime t)).
  intros d y0 l Hy Hl. clear Hm.
  unfold MonthFromDayWithinYear. case_ifs; eval_monthStart; lia.
Qed.

Lemma monthIndex_unique t i :
  startDay i <= Day t < startDay (i + 1) -> monthIndex t = i.
Proof.
  intros H. pose proof (month_bracket t) as B.
  destruct (Z.lt_trichotomy (monthIndex t) i) as [L|[E|G]]; [|exact E|].
  - assert (startDay (monthIndex t + 1) <= startDay i).
    { destruct (Z.eq_dec (monthIndex t + 1) i) as [->|]; [lia|].
      apply Z.lt_le_incl, startDay_lt. lia. }
    lia.
  - assert (startDay (i + 1) <= startDay (monthIndex t)).
    { destruct (Z.eq_dec (i + 1) (monthIndex t)) as [->|]; [lia|].
      apply Z.lt_le_incl, startDay_lt. lia. }
    lia.
Qed.

Lemma monthIndex_mono t u : Day t <= Day u -> monthIndex t <= monthIndex u.
Proof.
  intros H. pose proof (month_bracket t). pose proof (month_bracket u).
  destruct (Z.le_gt_cases (monthIndex t) (monthIndex u)) as [L|G]; [exact L|].
  assert (startDay (monthIndex u + 1) <= startDay (monthIndex t)).
  { destruct (Z.eq_dec (monthIndex u + 1) (monthIndex t)) as [->|]; [lia|].
    apply Z.lt_le_incl, startDay_lt. lia. }
  lia.
Qed.

Lemma Day_lt_mul t k : Day t < k <-> t < k * msPerDay.
Proof. unfold Day, msPerDay. split; intros; Z.div_mod_to_equations; lia. Qed.

Lemma Day_le t u : t <= u -> Day t <= Day u.
Proof. unfold Day, msPerDay. intros. Z.div_mod_to_equations. lia. Qed.

Lemma year_after_epoch t : 0 <= t -> 1970 <= YearFromTime t.
Proof.
  intros H. unfold YearFromTime.
  assert (Hd : 0 <= Day t) by (unfold Day, msPerDay; Z.div_mod_to_equations; lia).
  pose proof (YearFromDay_spec (Day t)) as [_ Hy].
  destruct (Z.le_gt_cases 1970 (YearFromDay (Day t))) as [L|G]; [exact L|].
  exfalso. revert Hy. unfold DayFromYear. generalize (YearFromDay (Day t)) G.
  intros y Gy Hy. Z.div_mod_to_equations. lia.
Qed.

End JsDateFacts.

(** In local time, [getNextMonthStartMs] is midnight of the first day of
    the month after the local month of [now]. *)
Lemma getNextMonthStartMs_local (tza now : Z) :
  0 <= now + tza ->
  JsDate.LocalTime tza (getNextMonthStartMs tza now)
  = JsDate.startDay (JsDate.monthIndex (JsDate.LocalTime tza now) + 1)
    * JsDate.msPerDay.
Proof.
  intros Hpos.
  pose proof (JsDateFacts.year_after_epoch _ Hpos) as Hy.
  unfold getNextMonthStartMs, JsDate.newDate, JsDate.getFullYear, JsDate.getMonth.
  unfold JsDate.monthIndex.
  unfold JsDate.LocalTime in *.
  generalize dependent (JsDate.YearFromTime (now + tza)).
  generalize (JsDate.MonthFromTime (now + tza)).
  intros m y Hy.
  destruct (Z.leb_spec y 99); [lia|].
  rewrite andb_false_r, JsDateFacts.MakeDay_index.
  unfold JsDate.UTC, JsDate.MakeDate, JsDate.MakeTime.
  replace (12 * y + (m + 1)) with (12 * y + m + 1) by lia.
  generalize (JsDate.startDay (12 * y + m + 1) * JsDate.msPerDay).
  intros. lia.
Qed.

(** [getNextMonthStartMs] is the first millisecond of the calendar month
    that follows the local month of [now]: it lies after [now], it is
    midnight of day 1 of the next month in local time, and no month boundary
    lies between [now] and it. *)
Lemma getNextMonthStartMs_first_ms (tza now : Z) :
  0 <= now + tza ->
  let r := getNextMonthStartMs tza now in
  now < r /\
  JsDate.monthIndex (JsDate.LocalTime tza r)
    = JsDate.monthIndex (JsDate.LocalTime tza now) + 1 /\
  JsDate.getDate tza r = 1 /\
  JsDate.TimeWithinDay (JsDate.LocalTime tza r) = 0 /\
  (forall t, now <= t < r ->
     JsDate.monthIndex (JsDate.LocalTime tza t)
       = JsDate.monthIndex (JsDate.LocalTime tza now)).
Proof.
  intros Hpos. cbv zeta.
  pose proof (getNextMonthStartMs_local tza now Hpos) as Hr.
  pose proof (JsDateFacts.month_bracket (JsDate.LocalTime tza now)) as [Hlo Hhi].
  revert Hr Hlo Hhi.
  generalize (JsDate.monthIndex (JsDate.LocalTime tza now)).
  generalize (getNextMonthStartMs tza now).
  intros r i Hr Hlo Hhi.
  assert (Hday : JsDate.Day (JsDate.LocalTime tza r) = JsDate.startDay (i + 1)).
  { rewrite Hr. unfold JsDate.Day. apply Z.div_mul. unfold JsDate.msPerDay. lia. }
  assert (Hidx : JsDate.monthIndex (JsDate.LocalTime tza r) = i + 1).
  { apply JsDateFacts.monthIndex_unique. rewrite Hday.
    pose proof (JsDateFacts.startDay_succ (i + 1)). lia. }
  assert (Hlt : now < r).
  { apply JsDateFacts.Day_lt_mul in Hhi. rewrite <- Hr in Hhi.
    unfold JsDate.LocalTime in Hhi. lia. }
  split; [exact Hlt|]. split; [exact Hidx|]. split; [|split].
  - unfold JsDate.getDate, JsDate.DateFromTime, JsDate.DayWithinYear.
    pose proof (JsDateFacts.month_range (JsDate.LocalTime tza r)) as Hm.
    assert (E : JsDate.startDay (JsDate.monthIndex (JsDate.LocalTime tza r))
                = JsDate.Day (JsDate.LocalTime tza r)) by (rewrite Hidx, Hday; reflexivity).
    unfold JsDate.monthIndex in E. rewrite <- JsDateFacts.MakeDay_index in E.
    unfold JsDate.MakeDay in E. cbv zeta in E.
    rewrite Z.div_small, Z.mod_small, Z.add_0_r in E by lia. lia.
  - rewrite Hr. unfold JsDate.TimeWithinDay. apply Z.mod_mul.
    unfold JsDate.msPerDay. lia.
  - intros t [Ht1 Ht2].
    assert (L1 : JsDate.Day (JsDate.LocalTime tza now) <= JsDate.Day (JsDate.LocalTime tza t))
      by (apply JsDateFacts.Day_le; unfold JsDate.LocalTime; lia).
    assert (L2 : JsDate.Day (JsDate.LocalTime tza t) < JsDate.startDay (i + 1)).
    { apply JsDateFacts.Day_lt_mul. rewrite <- Hr. unfold JsDate.LocalTime. lia. }
    apply JsDateFacts.monthIndex_unique. lia.
Qed.


(** ** Facts about the adapter: retries *)

Module RetryFacts.
Import Js Kiro Observe.

Section Calls.
Variable parseFrame : string -> option Frame.
Variable service : Service.
Variable unaryUpstream : nat -> Result string.
Variable streamUpstream : nat -> StreamResponse.
Variable forcedRefresh : option string.
Variable model : string.
Variable tools : list Tool.
Variable system : Content.

Local Abbreviation build messages :=
  (buildCodewhispererRequest (svc_authMethod service) (svc_profileArn service)
     messages model tools system).
Local Abbreviation callApi' := (callApi service unaryUpstream forcedRefresh model tools system).
Local Abbreviation streamApiReal' :=
  (streamApiReal parseFrame service streamUpstream forcedRefresh model tools
     system).

(** The body of [callApi], as the source has it. *)
Lemma callApi_unfold messages n isRetry retryCount :
  callApi' messages n isRetry retryCount =
  match build messages with
  | Throw e => mkRun (Throw e) [] messages
  | Ok (_, messages') =>
      match unaryUpstream n with
      | Ok data => mkRun (Ok data) [Send n] messages'
      | Throw error =>
          if statusIs error 403 && negb isRetry then
            match forcedRefresh with
            | Some refreshError =>
                mkRun (Throw (plainError refreshError)) [Send n; Refresh] messages'
            | None =>
                let r := callApi' messages' (S n) true retryCount in
                mkRun (run_result r) (Send n :: Refresh :: run_trace r) (run_messages r)
            end
          else if (statusIs error 429 || statusAtLeast500 error)
                  && (retryCount <? 3)%nat then
            let r := callApi' messages' (S n) isRetry (S retryCount) in
            mkRun (run_result r)
              (Send n :: Sleep (1000 * 2 ^ Z.of_nat retryCount) :: run_trace r)
              (run_messages r)
          else mkRun (Throw error) [Send n] messages'
      end
  end.
Proof.
  funelim (callApi' messages n isRetry retryCount);
    repeat match goal with
      | H : _ = _ |- _ => rewrite H
      end; reflexivity.
Qed.

(** The body of [streamApiReal], as the source has it. *)
Lemma streamApiReal_unfold messages n isRetry retryCount :
  streamApiReal' messages n isRetry retryCount =
  match build messages with
  | Throw e => mkStreamRun [] (Some e) [] messages
  | Ok (_, messages') =>
      let yielded := yielded parseFrame streamUpstream n in
      match sr_error (streamUpstream n) with
      | None => mkStreamRun yielded None [Send n] messages'
      | Some error =>
          if statusIs error 403 && negb isRetry then
            match forcedRefresh with
            | Some refreshError =>
                mkStreamRun yielded (Some (plainError refreshError))
                  [Send n; Refresh] messages'
            | None =>
                let r := streamApiReal' messages' (S n) true retryCount in
                mkStreamRun (yielded ++ sr_yields r) (sr_thrown r)
                  (Send n :: Refresh :: sr_trace r) (sr_messages r)
            end
          else if statusIs error 429 && (retryCount <? maxRetries service)%nat then
            let r := streamApiReal' messages' (S n) isRetry (S retryCount) in
            mkStreamRun (yielded ++ sr_yields r) (sr_thrown r)
              (Send n :: Sleep (baseDelay service * 2 ^ Z.of_nat retryCount)
                 :: sr_trace r)
              (sr_messages r)
          else mkStreamRun yielded (Some error) [Send n] messages'
      end
  end.
Proof.
  funelim (streamApiReal' messages n isRetry retryCount);
    repeat match goal with
      | H : _ = _ |- _ => rewrite H
      end; reflexivity.
Qed.

(** Within one unary call at most one credential refresh is forced, and
    none once the call is the retry after a 403. *)
Lemma callApi_refreshes messages n isRetry retryCount :
  (refreshes (run_trace (callApi' messages n isRetry retryCount))
   <= if isRetry then 0 else 1)%nat.
Proof.
  funelim (callApi' messages n isRetry retryCount); simpl.
  - destruct isRetry; lia.
  - destruct isRetry; lia.
  - destruct (andb_prop _ _ is403) as [_ R].
    destruct isRetry; [discriminate|]. simpl. lia.
  - destruct (andb_prop _ _ is403) as [_ R].
    destruct isRetry; [discriminate|]. simpl in *. lia.
  - exact H.
  - destruct isRetry; lia.
Qed.

(** The delays of a unary call are [1000 * 2^n] for consecutive [n] from
    [retryCount] on, and [n] stays below 3. *)
Lemma callApi_sleeps messages n isRetry retryCount :
  exists k : nat,
    (retryCount + k <= Nat.max retryCount 3)%nat /\
    sleeps (run_trace (callApi' messages n isRetry retryCount))
    = backoff 1000 retryCount k.
Proof.
  funelim (callApi' messages n isRetry retryCount); simpl.
  - exists 0%nat. split; [lia|reflexivity].
  - exists 0%nat. split; [lia|reflexivity].
  - exists 0%nat. split; [lia|reflexivity].
  - exact H.
  - destruct H as [k [Hk Hs]]. exists (S k).
    destruct (andb_prop _ _ retryable) as [_ R].
    apply Nat.ltb_lt in R. split; [lia|].
    rewrite Hs. reflexivity.
  - exists 0%nat. split; [lia|reflexivity].
Qed.

(** A unary call sends at most five requests. *)
Lemma callApi_sends messages n isRetry retryCount :
  (sends (run_trace (callApi' messages n isRetry retryCount))
   <= 1 + retryBudget 3 isRetry retryCount)%nat.
Proof.
  funelim (callApi' messages n isRetry retryCount); simpl; try lia.
  - destruct (andb_prop _ _ is403) as [_ R].
    destruct isRetry; [discriminate|].
    unfold retryBudget in *. simpl in *. lia.
  - destruct (andb_prop _ _ retryable) as [_ R].
    apply Nat.ltb_lt in R. unfold retryBudget in *.
    destruct isRetry; simpl in *; lia.
Qed.

(** The retry policy of the unary path: a first 403 forces one refresh
    and one retry, 429 and statuses from 500 on are retried after
    [1000 * 2^retryCount] ms while [retryCount < 3], and any other error
    is thrown at once. *)
Lemma callApi_retry_policy messages req messages' n isRetry retryCount error :
  build messages = Ok (req, messages') ->
  unaryUpstream n = Throw error ->
  callApi' messages n isRetry retryCount =
  if statusIs error 403 && negb isRetry then
    match forcedRefresh with
    | Some refreshError =>
        mkRun (Throw (plainError refreshError)) [Send n; Refresh] messages'
    | None =>
        let r := callApi' messages' (S n) true retryCount in
        mkRun (run_result r) (Send n :: Refresh :: run_trace r) (run_messages r)
    end
  else if (statusIs error 429 || statusAtLeast500 error) && (retryCount <? 3)%nat then
    let r := callApi' messages' (S n) isRetry (S retryCount) in
    mkRun (run_result r)
      (Send n :: Sleep (1000 * 2 ^ Z.of_nat retryCount) :: run_trace r)
      (run_messages r)
  else mkRun (Throw error) [Send n] messages'.
Proof.
  intros Hb Hu. rewrite callApi_unfold, Hb, Hu. reflexivity.
Qed.

(** C4 (the streaming path breaks the claim).  The claim asks both paths
    to retry a 429 or any 5xx status after [base * 2^n], at most three
    times.  [streamApiReal] retries a 429 only: an error whose status is
    500 or more ends the call at once, with one request sent, no delay and
    no retry, whatever [isRetry] and [retryCount] are. *)
Theorem streamApiReal_5xx_not_retried messages req messages' n isRetry retryCount
  error s :
  build messages = Ok (req, messages') ->
  sr_error (streamUpstream n) = Some error ->
  err_status error = Some s ->
  500 <= s ->
  streamApiReal' messages n isRetry retryCount
  = mkStreamRun (yielded parseFrame streamUpstream n) (Some error)
      [Send n] messages'.
Proof.
  intros Hb He Hs Hge. rewrite streamApiReal_unfold, Hb, He. cbn zeta.
  unfold statusIs. rewrite Hs.
  destruct (Z.eqb_spec s 403) as [->|_]; [lia|].
  destruct (Z.eqb_spec s 429) as [->|_]; [lia|].
  reflexivity.
Qed.

(** On the same answer the unary path retries. *)
Lemma callApi_5xx_retried messages req messages' n isRetry retryCount error s :
  build messages = Ok (req, messages') ->
  unaryUpstream n = Throw error ->
  err_status error = Some s ->
  500 <= s ->
  (retryCount < 3)%nat ->
  run_trace (callApi' messages n isRetry retryCount)
  = Send n :: Sleep (1000 * 2 ^ Z.of_nat retryCount)
      :: run_trace (callApi' messages' (S n) isRetry (S retryCount)).
Proof.
  intros Hb Hu Hs Hge Hlt.
  rewrite (callApi_retry_policy _ _ _ _ _ _ _ Hb Hu).
  unfold statusIs, statusAtLeast500. rewrite Hs.
  destruct (Z.eqb_spec s 403) as [->|_]; [lia|].
  destruct (Z.leb_spec 500 s); [|lia].
  rewrite orb_true_r. simpl.
  destruct (Nat.ltb_spec retryCount 3); [reflexivity|lia].
Qed.

(** The streaming path does retry a 429, with the delay
    [baseDelay * 2^retryCount]. *)
Lemma streamApiReal_429_retried messages req messages' n isRetry retryCount error :
  build messages = Ok (req, messages') ->
  sr_error (streamUpstream n) = Some error ->
  err_status error = Some 429 ->
  (retryCount < maxRetries service)%nat ->
  sr_trace (streamApiReal' messages n isRetry retryCount)
  = Send n :: Sleep (baseDelay service * 2 ^ Z.of_nat retryCount)
      :: sr_trace (streamApiReal' messages' (S n) isRetry (S retryCount)).
Proof.
  intros Hb He Hs Hlt. rewrite streamApiReal_unfold, Hb, He. cbn zeta.
  unfold statusIs. rewrite Hs. simpl.
  destruct (Nat.ltb_spec retryCount (maxRetries service)); [reflexivity|lia].
Qed.

End Calls.

(** A streaming call whose first request is answered 500. *)
Lemma streamApiReal_5xx_not_retried_witness :
  streamApiReal Demo.parseFrame (mkService None None None None)
    (fun _ => mkStreamResponse [] (Some (mkError (Some 500) "Internal Server Error")))
    None "claude-opus-4-5" [] CNull Demo.hi 0 false 0
  = mkStreamRun [] (Some (mkError (Some 500) "Internal Server Error"))
      [Send 0] Demo.hi.
Proof.
  eapply (streamApiReal_5xx_not_retried Demo.parseFrame
            (mkService None None None None)
            (fun _ => mkStreamResponse []
                        (Some (mkError (Some 500) "Internal Server Error")))
            None "claude-opus-4-5" [] CNull Demo.hi _ Demo.hi 0 false 0
            (mkError (Some 500) "Internal Server Error") 500).
  - reflexivity.
  - reflexivity.
  - reflexivity.
  - lia.
Defined.

End RetryFacts.


(** ** Facts about the adapter: the streaming translation *)

Module StreamFacts.
Import Js Kiro Observe.

Lemma append_nil_l (s : string) : ("" ++ s)%string = s.
Proof. reflexivity. Qed.

Lemma append_cons (c : ascii) (s t : string) :
  (String c s ++ t)%string = String c (s ++ t)%string.
Proof. reflexivity. Qed.

Lemma append_nil_r (s : string) : (s ++ "")%string = s.
Proof.
  induction s as [|c s IH]; [reflexivity|]. rewrite append_cons, IH. reflexivity.
Qed.

Lemma append_assoc (a b c : string) : ((a ++ b) ++ c = a ++ (b ++ c))%string.
Proof.
  induction a as [|x a IH]; [reflexivity|]. rewrite !append_cons, IH. reflexivity.
Qed.



Lemma lastOf_cons previous p kept : lastOf previous (p :: kept) = lastOf (Some p) kept.
Proof.
  unfold lastOf. rewrite last_cons. destruct (last kept); reflexivity.
Qed.

Lemma retained_app a b previous :
  retained (a ++ b) previous
  = (retained a previous ++ retained b (lastOf previous (retained a previous)))%list.
Proof.
  revert previous. induction a as [|p a IH]; intros previous; simpl.
  - reflexivity.
  - destruct (p =? "")%string; [apply IH|].
    destruct (match previous with
              | Some q => (q =? p)%string
              | None => false
              end); [apply IH|].
    rewrite IH. simpl. rewrite lastOf_cons. reflexivity.
Qed.

Lemma contentPayloads_app a b :
  contentPayloads (a ++ b) = (contentPayloads a ++ contentPayloads b)%list.
Proof.
  induction a as [|ev a IH]; simpl; [reflexivity|].
  destruct ev; simpl; rewrite IH; reflexivity.
Qed.

Lemma nonEmptyPayloads_app a b :
  nonEmptyPayloads (a ++ b) = (nonEmptyPayloads a ++ nonEmptyPayloads b)%list.
Proof.
  induction a as [|ev a IH]; simpl; [reflexivity|].
  destruct ev as [data| | |]; simpl; try exact IH.
  destruct (nonEmpty data); simpl; rewrite IH; reflexivity.
Qed.

Lemma nonEmptyPayloads_cons event events :
  nonEmptyPayloads (event :: events)
  = (nonEmptyPayloads [event] ++ nonEmptyPayloads events)%list.
Proof. exact (nonEmptyPayloads_app [event] events). Qed.



Section Generate.
Variable parseFrame : string -> option Frame.
Variable JSON_parse : string -> option JValue.
Variable JSON_stringify : JValue -> string.
Variable repairJson : string -> string.
Variable uuidv4 : nat -> string.
Variable messageId : string.
Variable toolUuid : nat -> string.
Variable countTextTokens : string -> Z.
Variable toolsJson : list Tool -> string.
Variable service : Service.
Variable streamUpstream : nat -> StreamResponse.
Variable forcedRefresh : option string.

Local Abbreviation streamStep' :=
  (streamStep JSON_parse messageId).
Local Abbreviation streamLoop' :=
  (streamLoop JSON_parse messageId).
Local Abbreviation streamEpilogue' :=
  (streamEpilogue JSON_parse JSON_stringify repairJson uuidv4 toolUuid countTextTokens).
Local Abbreviation generateContentStream' :=
  (generateContentStream parseFrame JSON_parse JSON_stringify repairJson uuidv4 messageId
     toolUuid countTextTokens toolsJson service streamUpstream forcedRefresh).

(** The chunks of one round of the loop: the two opening chunks in the
    first round, then the text delta of a non-empty content event. *)
Lemma streamStep_out model inputTokens st event :
  snd (streamStep' model inputTokens st event)
  = ((if streamStarted st then []
      else [MessageStart messageId model inputTokens; ContentBlockStartText 0])
     ++ map (ContentBlockDeltaText 0) (nonEmptyPayloads [event]))%list
  /\ streamStarted (fst (streamStep' model inputTokens st event)) = true
  /\ totalContent (fst (streamStep' model inputTokens st event))
     = (totalContent st ++ joinAll (nonEmptyPayloads [event]))%string.
Proof.
  destruct event as [data|name toolUseId input stop|input|stop]; simpl.
  - destruct (nonEmpty data); simpl.
    + rewrite append_nil_r. repeat split; reflexivity.
    + rewrite app_nil_r, append_nil_r. repeat split; reflexivity.
  - rewrite app_nil_r, append_nil_r.
    destruct (nonEmpty name && nonEmpty toolUseId); [|repeat split; reflexivity].
    destruct (currentToolCall st) as [c|].
    + destruct (otc_toolUseId c =? toolUseId)%string; destruct stop;
        repeat split; reflexivity.
    + destruct stop; repeat split; reflexivity.
  - rewrite app_nil_r, append_nil_r. repeat split; reflexivity.
  - rewrite app_nil_r, append_nil_r.
    destruct (currentToolCall st) as [c|]; [destruct stop|]; repeat split; reflexivity.
Qed.

Lemma joinAll_app a b : joinAll (a ++ b) = (joinAll a ++ joinAll b)%string.
Proof.
  induction a as [|x a IH]; simpl; [reflexivity|].
  rewrite IH, append_assoc. reflexivity.
Qed.

(** The chunks of the whole loop. *)
Lemma streamLoop_out model inputTokens st events :
  snd (streamLoop' model inputTokens st events)
  = ((if streamStarted st then []
      else match events with
           | [] => []
           | _ => [MessageStart messageId model inputTokens; ContentBlockStartText 0]
           end)
     ++ map (ContentBlockDeltaText 0) (nonEmptyPayloads events))%list
  /\ totalContent (fst (streamLoop' model inputTokens st events))
     = (totalContent st ++ joinAll (nonEmptyPayloads events))%string.
Proof.
  revert st. induction events as [|event events IH]; intros st.
  - simpl. rewrite append_nil_r. destruct (streamStarted st); split; reflexivity.
  - rewrite (nonEmptyPayloads_cons event events).
    cbn [streamLoop].
    destruct (streamStep' model inputTokens st event) as [st1 out1] eqn:E1.
    destruct (streamLoop' model inputTokens st1 events) as [st2 out2] eqn:E2.
    pose proof (streamStep_out model inputTokens st event) as [S1 [S2 S3]].
    rewrite E1 in S1, S2, S3. cbn [fst snd] in S1, S2, S3.
    specialize (IH st1). rewrite E2 in IH. cbn [fst snd] in IH.
    destruct IH as [L1 L2]. rewrite S2 in L1. cbn [app] in L1.
    cbn [fst snd]. rewrite L2, S3, L1, S1.
    rewrite map_app, joinAll_app, append_assoc, <- app_assoc.
    split; reflexivity.
Qed.



Local Abbreviation upstreamRun model requestBody :=
  (streamApiReal parseFrame service streamUpstream forcedRefresh (finalModel model)
     (body_tools requestBody) (body_system requestBody)
     (body_messages requestBody) 0 false 0).


Local Abbreviation translated model requestBody :=
  (buildCodewhispererRequest (svc_authMethod service) (svc_profileArn service)
     (body_messages requestBody) (finalModel model) (body_tools requestBody)
     (body_system requestBody)).


(** C2 (the code breaks the claim).  When the upstream response ends
    without error and [streamApiReal] yields no event, the chunks are
    [content_block_stop], [message_delta] and [message_stop] alone:
    [message_start] and the [content_block_start] of the text block, which
    the loop yields with its first event, are missing, and the sequence
    is not the one of the specification. *)
Theorem generateContentStream_without_events model requestBody req messages' :
  translated model requestBody = Ok (req, messages') ->
  sr_error (streamUpstream 0) = None ->
  yielded parseFrame streamUpstream 0 = [] ->
  sr_yields (generateContentStream' model requestBody)
  = [ContentBlockStop 0; MessageDelta "end_turn" (countTextTokens ""); MessageStop]
  /\ sr_thrown (generateContentStream' model requestBody) = None
  /\ ~ anthropicSequence (sr_yields (generateContentStream' model requestBody)).
Proof.
  intros Hb He Hy.
  assert (E : generateContentStream' model requestBody
              = mkStreamRun
                  [ContentBlockStop 0; MessageDelta "end_turn" (countTextTokens "");
                   MessageStop]
                  None [Send 0] messages').
  { unfold generateContentStream.
    rewrite RetryFacts.streamApiReal_unfold, Hb. cbn zeta. rewrite He, Hy.
    reflexivity. }
  rewrite E. cbn [sr_yields sr_thrown]. split; [reflexivity|]. split; [reflexivity|].
  intros (mid & m & it & ot & deltas & blocks & H). discriminate H.
Qed.



End Generate.

(** [deduplicateToolCalls] keeps one tool call per key. *)
Lemma deduplicateToolCalls_loop_keys calls (seen : gset string) :
  NoDup (map toolCallKey (deduplicateToolCalls_loop calls seen))
  /\ (forall k, k ∈ map toolCallKey (deduplicateToolCalls_loop calls seen) <->
                 k ∈ map toolCallKey calls /\ k ∉ seen).
Proof.
  revert seen. induction calls as [|tc calls IH]; intros seen.
  - simpl. split; [constructor|]. intros k. set_solver.
  - cbn [deduplicateToolCalls_loop]. destruct (decide (toolCallKey tc ∈ seen)) as [Hin|Hout].
    + destruct (IH seen) as [N M]. split; [exact N|].
      intros k. rewrite M. cbn [map]. set_solver.
    + destruct (IH ({[toolCallKey tc]} ∪ seen)) as [N M]. split.
      * cbn [map]. constructor; [|exact N]. rewrite M. set_solver.
      * intros k. cbn [map]. rewrite elem_of_cons, M, elem_of_cons.
        destruct (decide (k = toolCallKey tc)) as [->|Hne]; set_solver.
Qed.

(** The tool calls of the unary path: no key occurs twice, and every key
    produced, by the structured events or by a bracket scan, occurs. *)
Lemma deduplicateToolCalls_unique calls :
  NoDup (map toolCallKey (deduplicateToolCalls calls))
  /\ (forall tc, tc ∈ calls ->
        toolCallKey tc ∈ map toolCallKey (deduplicateToolCalls calls)).
Proof.
  unfold deduplicateToolCalls.
  destruct (deduplicateToolCalls_loop_keys calls ∅) as [N M]. split; [exact N|].
  intros tc Hin. apply M. split; [|set_solver].
  apply list_elem_of_fmap. exists tc. split; [reflexivity|exact Hin].
Qed.

Section Unary.
Variable JSON_parse : string -> option JValue.
Variable JSON_stringify : JValue -> string.
Variable repairJson : string -> string.
Variable uuidv4 : nat -> string.
Variable eventPayloads : string -> list EventData.
Variable visibleText : string -> list ToolCall -> string.

(** On the unary path no two tool calls returned for a raw response have
    the same name and arguments: they would have the same key. *)
Lemma processApiResponse_unique rawResponseText :
  NoDup (map toolCallKey
           (snd (_processApiResponse JSON_parse JSON_stringify repairJson uuidv4
                   eventPayloads visibleText rawResponseText))).
Proof.
  unfold _processApiResponse.
  destruct (parseEventStreamChunk _ _ _ _ _ _ _) as [[text calls] n].
  cbn [snd]. apply deduplicateToolCalls_unique.
Qed.

End Unary.

(** C7 (the streaming path breaks the claim).  The stream then carries two
    tool-use blocks with the name [search] and the arguments
    [{"q":"foo"}]: [generateContentStream] appends the calls of the bracket
    scan to the structured ones and never calls [deduplicateToolCalls]. *)
Theorem generateContentStream_duplicate_tool_use :
  let chunks :=
    sr_yields
      (generateContentStream Demo.parseFrame Demo.JSON_parse Demo.JSON_stringify
         Demo.repairJson
         Demo.uuidv4 "msg_1" Demo.uuidv4 Demo.countTextTokens (fun _ => "[]")
         (mkService None None None None) Demo.announcedTwice None
         "claude-opus-4-5" (mkBody Demo.hi [] CNull)) in
  toolUseStarts chunks = [(1%nat, "search"); (2%nat, "search")]
  /\ inputJsonDeltas chunks
     = [(1%nat, Demo.qObject "foo"); (2%nat, Demo.qObject "foo")].
Proof. vm_compute. split; reflexivity. Qed.

(** An upstream response without any frame. *)
Lemma generateContentStream_without_events_witness :
  sr_yields
    (generateContentStream Demo.parseFrame Demo.JSON_parse Demo.JSON_stringify
         Demo.repairJson
       Demo.uuidv4 "msg_1" Demo.uuidv4 Demo.countTextTokens (fun _ => "[]")
       (mkService None None None None) (fun _ => mkStreamResponse [] None) None
       "claude-opus-4-5" (mkBody Demo.hi [] CNull))
  = [ContentBlockStop 0; MessageDelta "end_turn" 0; MessageStop].
Proof.
  refine (proj1 (generateContentStream_without_events Demo.parseFrame
                   Demo.JSON_parse Demo.JSON_stringify Demo.repairJson Demo.uuidv4 "msg_1" Demo.uuidv4
                   Demo.countTextTokens (fun _ => "[]")
                   (mkService None None None None)
                   (fun _ => mkStreamResponse [] None) None
                   "claude-opus-4-5" (mkBody Demo.hi [] CNull) _ Demo.hi _ _ _)).
  - reflexivity.
  - reflexivity.
  - reflexivity.
Defined.



(** The parser on the frames of the runs: two frames of one read, and a
    frame whose text arrives in two reads, are extracted whole. *)
Example extracted_two_frames :
  extracted Demo.parseFrame [Demo.contentFrame "a" ++ Demo.contentFrame "b"] ""
  = [EvContent "a"; EvContent "b"].
Proof. vm_compute. reflexivity. Qed.

Example extracted_frame_in_two_reads :
  extracted Demo.parseFrame
    [Js.substring 0 13 (Demo.contentFrame "b");
     Js.substringFrom 13 (Demo.contentFrame "b")] ""
  = [EvContent "b"].
Proof. vm_compute. reflexivity. Qed.

(** A read that ends inside a frame, after a complete one: the start of
    the cut frame is kept as [remaining] and then cut a second time at
    [searchStart], the end of the frame before it, so that nothing of it
    is left for the next read and its payload never shows. *)
Example parseAwsEventStreamBuffer_cut_frame :
  parseAwsEventStreamBuffer Demo.parseFrame
    (Demo.contentFrame "a" ++ Js.substring 0 13 (Demo.contentFrame "b"))
  = ([EvContent "a"], "")
  /\ extracted Demo.parseFrame (sr_chunks (Demo.splitFrame 0)) ""
     = [EvContent "a"].
Proof. vm_compute. split; reflexivity. Qed.


End StreamFacts.


(** ** Facts about the request translator *)

Module RequestFacts.
Import Js Kiro Observe.

(** C6 (the code breaks the claim).  The translator accepts the
    conversation and builds a history of three entries, user, assistant,
    assistant: the message of role [tool] adds no entry, and the two
    assistant turns around it become neighbours. *)
Theorem buildCodewhispererRequest_tool_role_history :
  exists req messages',
    buildCodewhispererRequest None None Demo.toolConversation "claude-opus-4-5" [] CNull
    = Ok (req, messages')
    /\ map isAssistantEntry (history req) = [false; true; true]
    /\ alternates (history req) = false.
Proof. eexists _, _. split; [reflexivity|]. split; reflexivity. Qed.

Lemma alternates_kinds history :
  alternates history = alternating (map isAssistantEntry history).
Proof.
  induction history as [|e1 [|e2 rest] IH]; try reflexivity.
  cbn [alternates map alternating] in *. rewrite IH. reflexivity.
Qed.

Lemma alternating_snoc ks a :
  alternating (ks ++ [a])%list
  = alternating ks && match last ks with Some b => negb (Bool.eqb b a) | None => true end.
Proof.
  induction ks as [|k [|k' ks] IH]; [reflexivity|cbn; destruct (eqb k a); reflexivity|].
  change ((k :: k' :: ks) ++ [a])%list with (k :: ((k' :: ks) ++ [a]))%list.
  cbn [alternating app] in *. rewrite IH. rewrite (last_cons k).
  destruct (last (k' :: ks)) eqn:E.
  - rewrite andb_assoc. reflexivity.
  - rewrite last_cons in E. destruct (last ks); discriminate.
Qed.

Lemma alternating_app_inv a b : alternating (a ++ b)%list = true -> alternating a = true /\ alternating b = true.
Proof.
  induction a as [|x [|y a] IH]; intros H.
  - split; [reflexivity|exact H].
  - split; [reflexivity|]. destruct b; [reflexivity|]. cbn in H. apply andb_prop in H. apply H.
  - change (alternating (x :: (y :: a) ++ b)%list = true) in H.
    cbn [alternating app] in H. apply andb_prop in H. destruct H as [H1 H2].
    destruct (IH H2) as [Ha Hb]. split; [|exact Hb].
    cbn [alternating]. rewrite H1. exact Ha.
Qed.

Lemma historyEntries_kinds model ms :
  Forall conversational ms ->
  map isAssistantEntry (historyEntries model ms) = map isAssistant ms.
Proof.
  induction 1 as [|m ms Hm _ IH]; [reflexivity|].
  cbn [historyEntries]. rewrite map_app, IH. cbn [map]. unfold isAssistant.
  destruct Hm as [Hm|Hm]; rewrite Hm; cbn.
  - unfold userEntry. destruct (content m); reflexivity.
  - unfold assistantEntry. destruct (content m); reflexivity.
Qed.

Lemma mergeStep_invariant acc cur :
  Forall conversational acc -> alternating (map isAssistant acc) = true ->
  conversational cur ->
  Forall conversational (mergeStep acc cur)
  /\ alternating (map isAssistant (mergeStep acc cur)) = true.
Proof.
  intros Hacc Halt Hcur. unfold mergeStep.
  destruct (last acc) as [lastMsg|] eqn:El.
  - apply last_Some in El. destruct El as [init ->].
    rewrite removelast_last.
    apply Forall_app in Hacc. destruct Hacc as [Hinit Hlast].
    apply Forall_cons in Hlast. destruct Hlast as [Hlast _].
    destruct (String.eqb_spec (role cur) (role lastMsg)) as [E|N].
    + split.
      * apply Forall_app. split; [exact Hinit|]. constructor; [|constructor].
        exact Hlast.
      * rewrite map_app in *. exact Halt.
    + split.
      * apply Forall_app. split; [|constructor; [exact Hcur|constructor]].
        apply Forall_app. split; [exact Hinit|]. constructor; [exact Hlast|constructor].
      * rewrite map_app. cbn [map]. rewrite alternating_snoc, Halt.
        rewrite map_app. cbn [map]. rewrite last_snoc. cbn.
        unfold isAssistant. destruct Hcur as [Hc|Hc], Hlast as [Hl|Hl];
          rewrite Hc, Hl in *; try reflexivity; congruence.
  - apply last_None in El. subst acc. split; [constructor; [exact Hcur|constructor]|reflexivity].
Qed.

Lemma mergeMessages_invariant ms :
  Forall conversational ms ->
  Forall conversational (mergeMessages ms)
  /\ alternating (map isAssistant (mergeMessages ms)) = true.
Proof.
  unfold mergeMessages. intros H.
  assert (G : forall acc, Forall conversational acc ->
                alternating (map isAssistant acc) = true ->
                Forall conversational (fold_left mergeStep ms acc)
                /\ alternating (map isAssistant (fold_left mergeStep ms acc)) = true).
  { induction H as [|m ms Hm _ IH]; intros acc Ha Hk; [split; assumption|].
    cbn [fold_left]. destruct (mergeStep_invariant acc m Ha Hk Hm) as [H1 H2].
    apply IH; assumption. }
  apply G; [constructor|reflexivity].
Qed.

Lemma popBraceStub_conversational ms :
  Forall conversational ms -> Forall conversational (popBraceStub ms).
Proof.
  intros H. unfold popBraceStub. destruct (last ms) as [l|] eqn:E; [|exact H].
  destruct (isBraceStub l); [|exact H].
  apply last_Some in E. destruct E as [init ->]. rewrite removelast_last.
  apply Forall_app in H. apply H.
Qed.

Lemma entries_snoc_assistant h m :
  alternating (map isAssistantEntry (h ++ [assistantEntry m])%list)
  = alternating (map isAssistantEntry h ++ [true])%list.
Proof.
  rewrite map_app. cbn [map]. unfold assistantEntry. destruct (content m); reflexivity.
Qed.

(** X12: for a message list with the roles [user] and [assistant] only,
    the history of every request built alternates strictly. *)
Lemma history_alternates authMethod arn messages model tools system req messages' :
  Forall conversational messages ->
  buildCodewhispererRequest authMethod arn messages model tools system
  = Ok (req, messages') ->
  alternates (history req) = true.
Proof.
  intros Hua. unfold buildCodewhispererRequest.
  destruct (length messages =? 0)%nat; [discriminate|].
  pose proof (mergeMessages_invariant _ (popBraceStub_conversational _ Hua)) as [Hc Ha].
  set (merged := mergeMessages (popBraceStub messages)) in *.
  set (cwModel := match MODEL_MAPPING model with Some m => Some m | None => MODEL_MAPPING DEFAULT_MODEL_NAME end).
  destruct merged as [|first rest] eqn:Em; [discriminate|].
  destruct (last (first :: rest)) as [cur|] eqn:El; [|discriminate].
  apply last_Some in El. destruct El as [R ER].
  rewrite ER, removelast_last.
  rewrite ER in Hc, Ha.
  apply Forall_app in Hc. destruct Hc as [HR Hcur].
  apply Forall_cons in Hcur. destruct Hcur as [Hcur _].
  set (sys := safeGetTextContent_value system).
  set (history0 := if nonEmpty sys then if (role first =? "user")%string then _ else _ else _).
  set (start := if nonEmpty sys && (role first =? "user")%string then 1%nat else 0%nat).
  set (history1 := (history0 ++ historyEntries cwModel (drop start R))%list).
  assert (K1 : map isAssistantEntry history1
               = (map isAssistantEntry history0 ++ map isAssistant (drop start R))%list).
  { unfold history1. rewrite map_app, historyEntries_kinds; [reflexivity|].
    apply Forall_drop. exact HR. }
  (* the kinds of history1, by the shape of R *)
  assert (Shape :
    (R = [] /\ first = cur /\ map isAssistantEntry history1 = map isAssistantEntry history0)
    \/ (exists R', R = first :: R' /\
          ((map isAssistantEntry history1 = map isAssistant R)
           \/ (isAssistant first = true /\
               map isAssistantEntry history1 = false :: map isAssistant R)))).
  { destruct R as [|r R'].
    - left. cbn in ER. injection ER as -> ->. repeat split.
      rewrite K1, drop_nil, app_nil_r. reflexivity.
    - right. cbn in ER. injection ER as <- _. exists R'. split; [reflexivity|].
      rewrite K1. unfold history0, start.
      destruct (nonEmpty sys); [|left; reflexivity].
      apply Forall_cons in HR. destruct HR as [[Hf|Hf] _]; rewrite Hf; cbn.
      + left. unfold isAssistant. rewrite Hf. reflexivity.
      + right. unfold isAssistant. rewrite Hf. split; reflexivity. }
  rewrite map_app in Ha. cbn [map] in Ha. rewrite alternating_snoc in Ha.
  apply andb_prop in Ha. destruct Ha as [HaR Hlast].
  rewrite fmap_last in Hlast.
  destruct (String.eqb_spec (role cur) "assistant") as [Eas|Nas].
  - (* the last message is an assistant turn *)
    intros H. injection H as <- _. cbn [history]. rewrite alternates_kinds.
    rewrite entries_snoc_assistant, alternating_snoc.
    destruct Shape as [(-> & <- & Hk)|(R' & -> & [Hk|[Hf Hk]])]; rewrite Hk.
    + unfold history0. destruct (nonEmpty sys); [|reflexivity].
      destruct (role first =? "user")%string; reflexivity.
    + rewrite HaR, fmap_last. cbn [andb]. cbn in Hlast |- *.
      destruct (last (first :: R')) as [l|]; [|reflexivity]. cbn in *.
      unfold isAssistant in *. rewrite Eas in Hlast. cbn in Hlast. exact Hlast.
    + change (false :: map isAssistant (first :: R'))
        with (false :: isAssistant first :: map isAssistant R').
      rewrite last_cons_cons.
      change (isAssistant first :: map isAssistant R') with (map isAssistant (first :: R')).
      rewrite fmap_last.
      change (alternating (false :: map isAssistant (first :: R')))
        with (negb (Bool.eqb false (isAssistant first)) && alternating (map isAssistant (first :: R'))).
      rewrite Hf, HaR. cbn [negb Bool.eqb andb].
      destruct (last (first :: R')) as [l|]; [|reflexivity]. cbn in *.
      unfold isAssistant in *. rewrite Eas in Hlast. cbn in Hlast. exact Hlast.
  - (* the last message is a user turn *)
    assert (Hcu : isAssistant cur = false).
    { unfold isAssistant. destruct (String.eqb_spec (role cur) "assistant"); [contradiction|reflexivity]. }
    rewrite Hcu in Hlast.
    assert (Hinj : alternates
                     (match last history1 with
                      | Some lastHistoryItem =>
                          if isAssistantEntry lastHistoryItem then history1
                          else (history1 ++ [HAssistant (mkAssistantResponseMessage "Continue" [])])%list
                      | None => history1
                      end) = true).
    { rewrite alternates_kinds.
      assert (FL : last (map isAssistantEntry history1)
                   = isAssistantEntry <$> last history1) by apply fmap_last.
      destruct Shape as [(-> & <- & Hk)|(R' & -> & [Hk|[Hf Hk]])].
      - destruct (last history1) as [e|] eqn:Ele.
        + destruct (isAssistantEntry e) eqn:Ee.
          * rewrite Hk. unfold history0. destruct (nonEmpty sys); [|reflexivity].
            destruct (role first =? "user")%string; reflexivity.
          * rewrite map_app, Hk. unfold history0. destruct (nonEmpty sys); [|reflexivity].
            destruct (role first =? "user")%string; reflexivity.
        + rewrite Hk. unfold history0. destruct (nonEmpty sys); [|reflexivity].
          destruct (role first =? "user")%string; reflexivity.
      - rewrite Hk, fmap_last in FL.
        destruct (last (first :: R')) as [l|] eqn:Ell;
          [|apply last_None in Ell; discriminate].
        cbn in FL, Hlast. destruct (isAssistant l) eqn:Eil; [|discriminate].
        destruct (last history1) as [e|]; [|discriminate]. cbn in FL.
        injection FL as FL. rewrite <- FL, Hk. exact HaR.
      - rewrite Hk in FL.
        change (false :: map isAssistant (first :: R'))
          with (false :: isAssistant first :: map isAssistant R') in FL.
        rewrite last_cons_cons in FL.
        change (isAssistant first :: map isAssistant R') with (map isAssistant (first :: R')) in FL.
        rewrite fmap_last in FL.
        destruct (last (first :: R')) as [l|] eqn:Ell;
          [|apply last_None in Ell; discriminate].
        cbn in FL, Hlast. destruct (isAssistant l) eqn:Eil; [|discriminate].
        destruct (last history1) as [e|]; [|discriminate]. cbn in FL.
        injection FL as FL. rewrite <- FL, Hk.
        change (alternating (false :: map isAssistant (first :: R')))
          with (negb (Bool.eqb false (isAssistant first)) && alternating (map isAssistant (first :: R'))).
        rewrite Hf, HaR. reflexivity. }
    destruct (content cur); intros H; injection H as <- _; exact Hinj.
Qed.

(** The translator rejects an empty [messages] array with an error that
    carries no status. *)
Lemma buildCodewhispererRequest_empty authMethod arn model tools system :
  buildCodewhispererRequest authMethod arn [] model tools system
  = Throw (plainError "No user messages found").
Proof. reflexivity. Qed.

Section Generate.
Variable parseFrame : string -> option Frame.
Variable JSON_parse : string -> option JValue.
Variable JSON_stringify : JValue -> string.
Variable repairJson : string -> string.
Variable uuidv4 : nat -> string.
Variable messageId : string.
Variable toolUuid : nat -> string.
Variable countTextTokens : string -> Z.
Variable toolsJson : list Tool -> string.
Variable eventPayloads : string -> list EventData.
Variable visibleText : string -> list ToolCall -> string.
Variable service : Service.
Variable unaryUpstream : nat -> Result string.
Variable streamUpstream : nat -> StreamResponse.
Variable forcedRefresh : option string.



End Generate.

Lemma history_alternates_witness :
  exists req messages',
    buildCodewhispererRequest None None
      [mkMessage "user" (CStr "a"); mkMessage "assistant" (CStr "b");
       mkMessage "user" (CStr "c")] "claude-opus-4-5" [] CNull
    = Ok (req, messages')
    /\ alternates (history req) = true.
Proof.
  eexists _, _. split; [reflexivity|].
  assert (Forall conversational
            [mkMessage "user" (CStr "a"); mkMessage "assistant" (CStr "b");
             mkMessage "user" (CStr "c")]) as roles.
  { repeat constructor; (left; reflexivity) || (right; reflexivity). }
  apply (history_alternates None None _ "claude-opus-4-5" [] CNull _ _
           roles eq_refl).
Defined.

End RequestFacts.


(** ** Facts about the front end and the dispatcher *)

Module ProxyFacts.
Import Js Proxy Observe.

(** C8 (counterexample).  With the key ["secret"] configured, a
    [GET /admin] that presents no key is not answered 401: the page of the
    portal is served. *)
Lemma route_admin_page_without_key :
  let req := mkRequest "GET" "/admin" None None in
  isAuthorized req (Some "secret") = false
  /\ pathname req <> "/health"
  /\ route (Some "secret") true req = AdminPage
  /\ route (Some "secret") true req <> Unauthorized.
Proof.
  cbv zeta. split; [reflexivity|]. split; [discriminate|].
  split; [reflexivity|discriminate].
Qed.

(** C8 (amended).  With a key configured, a request that presents it
    neither as a bearer token nor in [x-api-key] is answered 401 and is
    not served otherwise, unless it is one of the requests answered
    without a look at the key: an [OPTIONS] request, [GET /health],
    [GET /admin] (the page of the portal), or a request with a method
    other than [POST] that matches no route (answered 404). *)
Theorem route_unauthorized (key : string) (bodyParses : bool) (req : Request) :
  nonEmpty key = true ->
  isAuthorized req (Some key) = false ->
  answeredWithoutKey req = false ->
  route (Some key) bodyParses req = Unauthorized.
Proof.
  intros Hk Hauth Hopen. unfold route, guarded. rewrite Hauth. cbn [negb].
  unfold answeredWithoutKey in Hopen.
  destruct (method req =? "OPTIONS")%string; [discriminate|].
  destruct (method req =? "GET")%string, (method req =? "POST")%string,
    (method req =? "DELETE")%string,
    (pathname req =? "/health")%string, (pathname req =? "/admin")%string,
    (pathname req =? "/admin/data")%string, (pathname req =? "/admin/proxy")%string,
    (pathname req =? "/admin/usage/refresh")%string,
    (pathname req =? "/admin/account")%string, (pathname req =? "/v1/models")%string;
    cbn in Hopen |- *; try reflexivity; try discriminate.
Qed.

(** A [POST /v1/messages] with a wrong bearer token. *)
Lemma route_unauthorized_witness :
  route (Some "secret") true
    (mkRequest "POST" "/v1/messages" (Some "Bearer guess") None)
  = Unauthorized.
Proof.
  apply (route_unauthorized "secret" true
           (mkRequest "POST" "/v1/messages" (Some "Bearer guess") None));
    reflexivity.
Defined.

Section Dispatcher.
Variable w : World.
Variable options : ProxyOptions.
Variable request : ChatRequest.

(** The token check leaves everything but the count of clock readings. *)
Lemma tokenCheck_state st creds :
  let st1 := snd (tokenCheck w options st creds) in
  ls_disabledUntil st1 = ls_disabledUntil st
  /\ ls_eligible st1 = ls_eligible st
  /\ ls_res st1 = ls_res st
  /\ ls_streamStarted st1 = ls_streamStarted st
  /\ ls_store st1 = ls_store st
  /\ ls_messages st1 = ls_messages st
  /\ ls_invoked st1 = ls_invoked st
  /\ ls_rrIndex st1 = ls_rrIndex st.
Proof.
  unfold tokenCheck.
  destruct (negb (nonEmpty (accessToken creds))); [cbn; repeat split; reflexivity|].
  destruct (expiresAt creds =? 0); cbn; repeat split; reflexivity.
Qed.



(** Once the response has been started, the [catch] block closes the
    connection and returns, whatever the error is. *)
Lemma catchBlock_started st i account error :
  responseStarted st = true ->
  exists st3,
    catchBlock w options request st i account error = Returned st3
    /\ ls_res st3 = endIfOpen (ls_res st)
    /\ ls_invoked st3 = ls_invoked st.
Proof.
  intros Hs. unfold catchBlock.
  assert (R : forall s, ls_streamStarted s = ls_streamStarted st ->
                        ls_res s = ls_res st -> responseStarted s = true).
  { intros s H1 H2. unfold responseStarted in *. rewrite H1, H2. exact Hs. }
  destruct (err_status error) as [code|].
  - destruct (code =? 400).
    + rewrite R by reflexivity. eexists. split; [reflexivity|]. split; reflexivity.
    + destruct (code =? 402).
      * destruct (hasUpdateAccountStatus options);
          rewrite R by reflexivity; eexists; split; [reflexivity| |reflexivity|];
          split; reflexivity.
      * rewrite R by reflexivity. eexists. split; [reflexivity|]. split; reflexivity.
  - rewrite R by reflexivity. eexists. split; [reflexivity|]. split; reflexivity.
Qed.

(** C5.  When the [try] block of an attempt throws after the response
    headers have been sent, the loop ends with that attempt, however many
    rounds remain: the handler returns, the response is ended with the
    status and the body it had, and the adapter is not called for another
    account. *)
Theorem attempts_stop_once_started k st account error st2 :
  let n := length (ls_eligible st) in
  let i := (ls_rrIndex st mod n)%nat in
  ls_eligible st !! i = Some account ->
  tryBlock w options request (set_rrIndex st ((ls_rrIndex st + 1) mod n)%nat) i account
  = Threw error st2 ->
  headersSent (ls_res st2) = true ->
  exists st3,
    attempts w options request (S k) st = Returned st3
    /\ statusCode (ls_res st3) = statusCode (ls_res st2)
    /\ written (ls_res st3) = written (ls_res st2)
    /\ writableEnded (ls_res st3) = true
    /\ ls_invoked st3 = ls_invoked st2.
Proof.
  cbv zeta. intros Hacc Htry Hsent. cbn [attempts]. unfold attempt.
  rewrite Hacc, Htry.
  assert (Hs : responseStarted st2 = true).
  { unfold responseStarted. rewrite Hsent. apply orb_true_r. }
  destruct (catchBlock_started st2 (ls_rrIndex st mod length (ls_eligible st))
              (match ls_eligible st2 !! (ls_rrIndex st mod length (ls_eligible st))%nat with
               | Some a => a
               | None => account
               end) error Hs) as (st3 & Hc & Hres & Hinv).
  rewrite Hc. exists st3. split; [reflexivity|]. rewrite Hres.
  unfold endIfOpen. destruct (writableEnded (ls_res st2)) eqn:Ew; cbn;
    repeat split; try reflexivity; try assumption.
Qed.



End Dispatcher.



(** The stream of the first of two accounts breaks with status 500 after a
    first frame: the loop ends there. *)
Lemma attempts_stop_once_started_witness :
  exists st3,
    attempts (Demo.world Demo.idleUnary (Demo.brokenStream (Some 500))) Demo.options
      (Demo.claudeRequest true) 2
      (Demo.loopState [Demo.account "A"; Demo.account "B"] Demo.hi)
    = Returned st3
    /\ statusCode (ls_res st3) = 200
    /\ writableEnded (ls_res st3) = true
    /\ ls_invoked st3 = ["A"].
Proof.
  edestruct (attempts_stop_once_started
               (Demo.world Demo.idleUnary (Demo.brokenStream (Some 500)))
               Demo.options (Demo.claudeRequest true) 1
               (Demo.loopState [Demo.account "A"; Demo.account "B"] Demo.hi)
               (Demo.account "A")) as (st3 & H1 & H2 & H3 & H4 & H5).
  - reflexivity.
  - vm_compute. reflexivity.
  - reflexivity.
  - exists st3. split; [exact H1|]. split; [rewrite H2; reflexivity|].
    split; [exact H4|]. rewrite H5. reflexivity.
Defined.




End ProxyFacts.


(** ** Facts about texts *)

Module StringFacts.
Import Js.

Lemma length_append (a b : string) :
  String.length (a ++ b) = (String.length a + String.length b)%nat.
Proof. induction a as [|c a IH]; simpl; [reflexivity|]. rewrite IH. reflexivity. Qed.

Lemma substring_all (s : string) : String.substring 0 (String.length s) s = s.
Proof. induction s as [|c s IH]; simpl; [reflexivity|]. rewrite IH. reflexivity. Qed.

Lemma substring_app_l (a b : string) :
  String.substring 0 (String.length a) (a ++ b) = a.
Proof.
  induction a as [|c a IH]; simpl; [destruct b; reflexivity|]. rewrite IH. reflexivity.
Qed.

Lemma substring_skip (a b : string) m :
  String.substring (String.length a) m (a ++ b) = String.substring 0 m b.
Proof. induction a as [|c a IH]; simpl; [reflexivity|exact IH]. Qed.

Lemma substringFrom_app (a b : string) : substringFrom (String.length a) (a ++ b) = b.
Proof.
  unfold substringFrom. rewrite substring_skip, length_append.
  replace (String.length a + String.length b - String.length a)%nat
    with (String.length b) by lia.
  apply substring_all.
Qed.

Lemma prefix_app opening (a b : string) :
  String.prefix opening a = true -> String.prefix opening (a ++ b) = true.
Proof.
  revert a. induction opening as [|c opening IH]; intros a.
  - destruct a; simpl; [destruct b|]; reflexivity.
  - destruct a as [|d a]; simpl; [discriminate|].
    destruct (ascii_dec c d); [apply IH|discriminate].
Qed.

(** [indexOf] finds a text at the position it is looked for from, when it
    starts there. *)
Lemma indexOf_here opening (a b : string) :
  opening <> "" -> String.prefix opening b = true ->
  indexOf opening (String.length a) (a ++ b) = Some (String.length a).
Proof.
  intros Hne Hp. unfold indexOf. induction a as [|c a IH].
  - change ("" ++ b) with b. cbn [String.length]. destruct b as [|d b].
    + destruct opening; [contradiction|discriminate].
    + cbn [String.index]. rewrite Hp. reflexivity.
  - change (String c a ++ b) with (String c (a ++ b)).
    cbn [String.length String.index]. rewrite IH. reflexivity.
Qed.

End StringFacts.


(** ** Facts about the scan for tool calls *)

Module ToolFacts.
Import Js Kiro Observe.

Lemma get_lt s i a : String.get i s = Some a -> (i < String.length s)%nat.
Proof.
  revert i. induction s as [|c s IH]; intros [|i]; simpl; try discriminate; try lia.
  intros H. apply IH in H. lia.
Qed.

Lemma get_substringFrom s n p a :
  String.get p (substringFrom n s) = Some a -> String.get (p + n) s = Some a.
Proof.
  unfold substringFrom. intros H.
  destruct (Nat.lt_ge_cases p (String.length s - n)) as [Hlt|Hge].
  - rewrite String.substring_correct1 in H by exact Hlt. exact H.
  - rewrite String.substring_correct2 in H by exact Hge. discriminate.
Qed.

Lemma substring_head s p m a :
  String.get p s = Some a ->
  String.substring p (S m) s = String a (String.substring (S p) m s).
Proof.
  revert p. induction s as [|c s IH]; intros [|p]; simpl; try discriminate.
  - intros [= ->]. reflexivity.
  - intros H. rewrite (IH p H). reflexivity.
Qed.

Lemma substring_prefix s n m k :
  (k <= m)%nat ->
  String.substring 0 k (String.substring n m s) = String.substring n k s.
Proof.
  revert n m k. induction s as [|c s IH]; intros n m k Hk.
  - destruct n, m, k; reflexivity.
  - destruct n as [|n].
    + destruct m as [|m]; [replace k with 0%nat by lia; reflexivity|].
      destruct k as [|k]; [reflexivity|]. simpl. f_equal.
      apply (IH 0%nat). lia.
    + simpl. apply IH. exact Hk.
Qed.

Lemma withoutQuotes_substring s n m : withoutQuotes s = true -> withoutQuotes (String.substring n m s) = true.
Proof.
  revert n m. induction s as [|c s IH]; intros n m H.
  - destruct n, m; reflexivity.
  - simpl in H. apply andb_prop in H as [Hc Hs].
    destruct n as [|n]; [|simpl; apply IH; exact Hs].
    destruct m as [|m]; [reflexivity|]. simpl. rewrite Hc. simpl. apply IH. exact Hs.
Qed.

(** The scan returns only at a closing character, at or after the
    position it starts from. *)
Lemma scan_position o c s i cnt inS esc e :
  findMatchingBracket_scan o c s i cnt inS esc = Some e ->
  (i <= e)%nat /\ String.get (e - i) s = Some c.
Proof.
  revert i cnt inS esc.
  induction s as [|char s IH]; intros i cnt inS esc; cbn [findMatchingBracket_scan].
  - discriminate.
  - assert (Step : forall cnt' inS' esc',
               findMatchingBracket_scan o c s (S i) cnt' inS' esc' = Some e ->
               (i <= e)%nat /\ String.get (e - i) (String char s) = Some c).
    { intros cnt' inS' esc' H. apply IH in H as [Hle Hget]. split; [lia|].
      replace (e - i)%nat with (S (e - S i)) by lia. exact Hget. }
    repeat match goal with
           | |- context [if ?b then _ else _] => destruct b eqn:?
           end; try (apply Step).
    intros [= <-]. split; [lia|]. rewrite Nat.sub_diag. simpl.
    match goal with H : ascii_eqb char c = true |- _ => apply Ascii.eqb_eq in H; rewrite H end.
    reflexivity.
Qed.

(** A position is answered by the scan, and only when the character at
    [startPos] is the opening one. *)
Lemma findMatchingBracket_scanned text startPos openChar closeChar endPos :
  findMatchingBracket text startPos openChar closeChar = Some endPos ->
  String.get startPos text = Some openChar
  /\ findMatchingBracket_scan openChar closeChar
       (substringFrom (S startPos) text) (S startPos) 1 false false
     = Some endPos.
Proof.
  unfold findMatchingBracket.
  destruct (String.get startPos text) as [a|] eqn:Ha; [|discriminate].
  destruct (ascii_eqb a openChar) eqn:Eo; [|discriminate].
  apply Ascii.eqb_eq in Eo. subst a. intros H. split; [reflexivity|exact H].
Qed.

Lemma scan_inside o c text startPos cnt inS esc e :
  findMatchingBracket_scan o c (substringFrom (S startPos) text) (S startPos)
    cnt inS esc = Some e ->
  (startPos < e < String.length text)%nat /\ String.get e text = Some c.
Proof.
  intros H. apply scan_position in H as [Hle Hget].
  apply get_substringFrom in Hget.
  replace (e - S startPos + S startPos)%nat with e in Hget by lia.
  pose proof (get_lt _ _ _ Hget). repeat split; [lia|lia|exact Hget].
Qed.

(** X1: [findMatchingBracket] answers a position only when the character
    at [startPos] is the opening one; the position lies after [startPos],
    inside the text, and holds the closing character. *)
Theorem findMatchingBracket_position text startPos openChar closeChar endPos :
  findMatchingBracket text startPos openChar closeChar = Some endPos ->
  (startPos < endPos < String.length text)%nat
  /\ String.get startPos text = Some openChar
  /\ String.get endPos text = Some closeChar.
Proof.
  intros H. apply findMatchingBracket_scanned in H as [Ho H].
  apply scan_inside in H as [Hin Hc]. repeat split; [lia|lia|exact Ho|exact Hc].
Qed.

(** In a text without quotes and backslashes the scan stops at the first
    position where the closings outnumber the openings by
    [bracketCount]. *)
Lemma scan_balanced o c s : forall i cnt e,
  withoutQuotes s = true -> (1 <= cnt)%nat ->
  findMatchingBracket_scan o c s i cnt false false = Some e ->
  nesting o c (String.substring 0 (S (e - i)) s) = - Z.of_nat cnt
  /\ (forall k, (k <= e - i)%nat ->
        - Z.of_nat cnt < nesting o c (String.substring 0 k s)).
Proof.
  induction s as [|char s IH]; intros i cnt e Hp Hc; cbn [findMatchingBracket_scan].
  - discriminate.
  - simpl in Hp. apply andb_prop in Hp as [Hq Hs]. apply andb_prop in Hq as [Hq Hb].
    apply negb_true_iff in Hq, Hb. rewrite Hb, Hq. cbn [andb negb].
    assert (Step : forall cnt' d,
               (1 <= cnt')%nat -> Z.of_nat cnt' = Z.of_nat cnt + d ->
               (if ascii_eqb char o then 1
                else if ascii_eqb char c then -1 else 0) = d ->
               findMatchingBracket_scan o c s (S i) cnt' false false = Some e ->
               nesting o c (String.substring 0 (S (e - i)) (String char s))
               = - Z.of_nat cnt
               /\ (forall k, (k <= e - i)%nat ->
                     - Z.of_nat cnt
                     < nesting o c (String.substring 0 k (String char s)))).
    { intros cnt' d Hc' Hd Hstep H.
      pose proof (scan_position _ _ _ _ _ _ _ _ H) as [Hle _].
      destruct (IH (S i) cnt' e Hs Hc' H) as [Hfull Hpre].
      replace (e - i)%nat with (S (e - S i)) by lia. split.
      - cbn [String.substring nesting]. rewrite Hfull, Hstep. lia.
      - intros [|k] Hk; cbn [String.substring nesting]; [lia|].
        specialize (Hpre k ltac:(lia)). rewrite Hstep. lia. }
    destruct (ascii_eqb char o) eqn:Eo.
    + apply (Step (S cnt) 1); [lia|lia|reflexivity].
    + destruct (ascii_eqb char c) eqn:Ec.
      * destruct (cnt - 1 =? 0)%nat eqn:E1.
        -- apply Nat.eqb_eq in E1. intros [= <-]. rewrite Nat.sub_diag.
           cbn [String.substring nesting]. rewrite Eo, Ec.
           assert (cnt = 1%nat) by lia. subst cnt. split.
           ++ destruct s; reflexivity.
           ++ intros k Hk. replace k with 0%nat by lia. simpl. lia.
        -- apply Nat.eqb_neq in E1. apply (Step (cnt - 1)%nat (-1)); [lia|lia|reflexivity].
      * apply (Step cnt 0); [lia|lia|reflexivity].
Qed.

(** X2: in a text without double quotes and backslashes, the text from
    [startPos] to the position answered is balanced: it has as many
    closing as opening characters, and each shorter non-empty prefix of
    it has more openings than closings. *)
Theorem findMatchingBracket_balanced text startPos openChar closeChar endPos :
  withoutQuotes text = true ->
  findMatchingBracket text startPos openChar closeChar = Some endPos ->
  nesting openChar closeChar (Js.substring startPos (S endPos) text) = 0
  /\ (forall k, (startPos < k <= endPos)%nat ->
        0 < nesting openChar closeChar (Js.substring startPos k text)).
Proof.
  intros Hp H. apply findMatchingBracket_scanned in H as [Ho H].
  pose proof (scan_inside _ _ _ _ _ _ _ _ H) as [[Hlo Hhi] _].
  assert (Refl : ascii_eqb openChar openChar = true) by apply Ascii.eqb_refl.
  apply scan_balanced in H; [|apply withoutQuotes_substring; exact Hp|lia].
  destruct H as [Hfull Hpre]. unfold substringFrom in Hfull, Hpre.
  assert (Head : forall m,
             nesting openChar closeChar (String.substring startPos (S m) text)
             = 1 + nesting openChar closeChar (String.substring (S startPos) m text)).
  { intros m. rewrite (substring_head _ _ _ _ Ho). cbn [nesting].
    unfold ascii_eqb. rewrite Ascii.eqb_refl. reflexivity. }
  unfold Js.substring. split.
  - replace (S endPos - startPos)%nat with (S (S (endPos - S startPos))) by lia.
    rewrite Head. rewrite substring_prefix in Hfull by lia. rewrite Hfull. lia.
  - intros k Hk. replace (k - startPos)%nat with (S (k - S startPos)) by lia.
    rewrite Head. specialize (Hpre (k - S startPos)%nat ltac:(lia)).
    rewrite substring_prefix in Hpre by lia. lia.
Qed.

(** The calls kept are calls of the list, in their order. *)
Lemma deduplicateToolCalls_loop_sublist calls (seen : gset string) :
  sublist (deduplicateToolCalls_loop calls seen) calls.
Proof.
  revert seen. induction calls as [|tc calls IH]; intros seen; cbn [deduplicateToolCalls_loop].
  - constructor.
  - destruct (decide (toolCallKey tc ∈ seen)).
    + apply sublist_cons, IH.
    + apply sublist_skip, IH.
Qed.

(** The first call of a key that was not seen is kept. *)
Lemma deduplicateToolCalls_loop_first before tc after (seen : gset string) :
  toolCallKey tc ∉ map toolCallKey before ->
  toolCallKey tc ∉ seen ->
  tc ∈ deduplicateToolCalls_loop (before ++ tc :: after) seen.
Proof.
  revert seen. induction before as [|b before IH]; intros seen Hb Hs.
  - cbn [app deduplicateToolCalls_loop].
    destruct (decide (toolCallKey tc ∈ seen)); [contradiction|]. left.
  - cbn [map] in Hb. apply not_elem_of_cons in Hb as [Hne Hb].
    cbn [app deduplicateToolCalls_loop].
    destruct (decide (toolCallKey b ∈ seen)).
    + apply IH; assumption.
    + right. apply IH; [exact Hb|]. set_solver.
Qed.

(** A list whose keys are distinct and unseen is kept whole. *)
Lemma deduplicateToolCalls_loop_id calls (seen : gset string) :
  NoDup (map toolCallKey calls) ->
  (forall k, k ∈ map toolCallKey calls -> k ∉ seen) ->
  deduplicateToolCalls_loop calls seen = calls.
Proof.
  revert seen. induction calls as [|tc calls IH]; intros seen Hn Hs; [reflexivity|].
  cbn [map] in Hn, Hs. apply NoDup_cons in Hn as [Hnotin Hn].
  cbn [deduplicateToolCalls_loop].
  destruct (decide (toolCallKey tc ∈ seen)) as [Hin|_].
  - exfalso. apply (Hs (toolCallKey tc)); [left|exact Hin].
  - f_equal. apply IH; [exact Hn|].
    intros k Hk. specialize (Hs k ltac:(right; exact Hk)).
    assert (k <> toolCallKey tc) by (intros ->; contradiction). set_solver.
Qed.

(** X3: [deduplicateToolCalls] keeps the calls of the list in their
    order, one per key [name-arguments], and the one kept is the first
    call of its key. *)
Theorem deduplicateToolCalls_first_of_each_key calls :
  sublist (deduplicateToolCalls calls) calls
  /\ NoDup (map toolCallKey (deduplicateToolCalls calls))
  /\ (forall before tc after,
        calls = (before ++ tc :: after)%list ->
        toolCallKey tc ∉ map toolCallKey before ->
        tc ∈ deduplicateToolCalls calls).
Proof.
  unfold deduplicateToolCalls. split; [apply deduplicateToolCalls_loop_sublist|].
  split; [apply StreamFacts.deduplicateToolCalls_loop_keys|].
  intros before tc after -> Hb.
  apply deduplicateToolCalls_loop_first; [exact Hb|set_solver].
Qed.

(** X4: deduplicating twice changes nothing more. *)
Theorem deduplicateToolCalls_idempotent calls :
  deduplicateToolCalls (deduplicateToolCalls calls) = deduplicateToolCalls calls.
Proof.
  unfold deduplicateToolCalls at 1. apply deduplicateToolCalls_loop_id.
  - apply StreamFacts.deduplicateToolCalls_loop_keys.
  - intros k _. set_solver.
Qed.

Section Runtime.
Variable JSON_parse : string -> option JValue.
Variable JSON_stringify : JValue -> string.
Variable repairJson : string -> string.
Variable uuidv4 : nat -> string.

Local Abbreviation parseSingleToolCall' :=
  (parseSingleToolCall JSON_parse JSON_stringify repairJson uuidv4).
Local Abbreviation parseBracketToolCalls_loop' :=
  (parseBracketToolCalls_loop JSON_parse JSON_stringify repairJson uuidv4).
Local Abbreviation parseBracketToolCalls' :=
  (parseBracketToolCalls JSON_parse JSON_stringify repairJson uuidv4).

(** A call parsed carries the identifier of the draw, and arguments that
    are the JSON text of an object or array parsed from the text. *)
Lemma parseSingleToolCall_some toolCallText n tc :
  parseSingleToolCall' toolCallText n = Some tc ->
  tc_id tc = freshCallId uuidv4 n
  /\ exists argumentsObj,
       isObject argumentsObj = true
       /\ tc_arguments tc = JSON_stringify argumentsObj.
Proof.
  unfold parseSingleToolCall.
  destruct (namePattern_match toolCallText); [|discriminate].
  destruct (indexOf _ _ _); [|discriminate].
  destruct (lastIndexOf _ _); [|discriminate].
  destruct (_ <=? _)%nat; [discriminate|].
  destruct (JSON_parse _) as [argumentsObj|]; [|discriminate].
  destruct (isObject argumentsObj) eqn:E; [|discriminate].
  intros [= <-]. split; [reflexivity|]. exists argumentsObj. split; [exact E|reflexivity].
Qed.

Lemma parseBracketToolCalls_loop_calls responseText callPositions n :
  let '(calls, n') := parseBracketToolCalls_loop' responseText callPositions n in
  n' = (n + List.length calls)%nat
  /\ (List.length calls <= List.length callPositions)%nat
  /\ map tc_id calls = map (freshCallId uuidv4) (seq n (List.length calls))
  /\ Forall (fun tc => exists argumentsObj,
                isObject argumentsObj = true
                /\ tc_arguments tc = JSON_stringify argumentsObj) calls.
Proof.
  revert n. induction callPositions as [|pos rest IH]; intros n;
    cbn [parseBracketToolCalls_loop].
  - split; [simpl; lia|]. split; [simpl; lia|]. split; [reflexivity|constructor].
  - assert (Skip : let '(calls, n') := parseBracketToolCalls_loop' responseText rest n in
                   n' = (n + List.length calls)%nat
                   /\ (List.length calls <= List.length (pos :: rest))%nat
                   /\ map tc_id calls
                      = map (freshCallId uuidv4) (seq n (List.length calls))
                   /\ Forall (fun tc => exists argumentsObj,
                                 isObject argumentsObj = true
                                 /\ tc_arguments tc = JSON_stringify argumentsObj) calls).
    { specialize (IH n). destruct (parseBracketToolCalls_loop' responseText rest n).
      destruct IH as (H1 & H2 & H3 & H4). cbn [List.length].
      split; [exact H1|]. split; [lia|]. split; [exact H3|exact H4]. }
    destruct (findMatchingBracket responseText pos "[" "]"); [|exact Skip].
    destruct (parseSingleToolCall' _ n) as [tc|] eqn:Etc; [|exact Skip].
    apply parseSingleToolCall_some in Etc as [Hid Hargs].
    specialize (IH (S n)). destruct (parseBracketToolCalls_loop' responseText rest (S n)).
    destruct IH as (H1 & H2 & H3 & H4). cbn [List.length map seq].
    split; [lia|]. split; [lia|]. split; [rewrite Hid, H3; reflexivity|].
    constructor; assumption.
Qed.

(** X5: when [parseBracketToolCalls] answers calls, they are at least
    one and at most one per occurrence of ["[Called"]; each draws one
    identifier, in order, and carries as arguments the JSON text of an
    object or array. *)
Theorem parseBracketToolCalls_calls responseText n calls n' :
  parseBracketToolCalls' responseText n = (Some calls, n') ->
  calls <> []
  /\ (List.length calls <= List.length (occurrences "[Called" responseText 0))%nat
  /\ n' = (n + List.length calls)%nat
  /\ map tc_id calls = map (freshCallId uuidv4) (seq n (List.length calls))
  /\ Forall (fun tc => exists argumentsObj,
                isObject argumentsObj = true
                /\ tc_arguments tc = JSON_stringify argumentsObj) calls.
Proof.
  unfold parseBracketToolCalls.
  destruct (negb (nonEmpty responseText) || negb (includes "[Called" responseText));
    [discriminate|].
  pose proof (parseBracketToolCalls_loop_calls responseText
                (occurrences "[Called" responseText 0) n) as L.
  destruct (parseBracketToolCalls_loop' responseText _ n) as [found m].
  destruct L as (H1 & H2 & H3 & H4).
  destruct found as [|tc found]; cbn [List.length Nat.ltb Nat.leb]; [discriminate|].
  intros [= <- <-]. split; [discriminate|]. split; [exact H2|]. split; [exact H1|].
  split; [exact H3|exact H4].
Qed.

End Runtime.

Lemma findMatchingBracket_position_witness :
  (0 < 6 < String.length "[a[b]c]")%nat
  /\ String.get 0 "[a[b]c]" = Some "["%char
  /\ String.get 6 "[a[b]c]" = Some "]"%char.
Proof. apply (findMatchingBracket_position "[a[b]c]" 0 "[" "]" 6). reflexivity. Defined.

Lemma findMatchingBracket_balanced_witness :
  nesting "[" "]" (Js.substring 0 7 "[a[b]c]") = 0
  /\ (forall k, (0 < k <= 6)%nat -> 0 < nesting "[" "]" (Js.substring 0 k "[a[b]c]")).
Proof.
  apply (findMatchingBracket_balanced "[a[b]c]" 0 "[" "]" 6); reflexivity.
Defined.

Lemma parseBracketToolCalls_calls_witness :
  exists calls,
    parseBracketToolCalls Demo.JSON_parse Demo.JSON_stringify Demo.repairJson
      Demo.uuidv4 Demo.calledSearch 0 = (Some calls, 1%nat)
    /\ map tc_id calls = ["call_00000000"].
Proof.
  eexists. split; [reflexivity|].
  apply (parseBracketToolCalls_calls Demo.JSON_parse Demo.JSON_stringify
           Demo.repairJson Demo.uuidv4 Demo.calledSearch 0 _ 1 eq_refl).
Defined.

End ToolFacts.


(** ** Facts about the adapter: the effort of a call *)

Module RetryBounds.
Import Js Kiro Observe.

Section Calls.
Variable parseFrame : string -> option Frame.
Variable service : Service.
Variable unaryUpstream : nat -> Result string.
Variable streamUpstream : nat -> StreamResponse.
Variable forcedRefresh : option string.
Variable model : string.
Variable tools : list Tool.
Variable system : Content.

Local Abbreviation callApi' :=
  (callApi service unaryUpstream forcedRefresh model tools system).
Local Abbreviation streamApiReal' :=
  (streamApiReal parseFrame service streamUpstream forcedRefresh model tools
     system).

(** X6: whatever the upstream answers, a unary call sends at most
    [1 + (3 - retryCount)] requests, one more when the retry after a 403
    is still open; it forces at most one refresh, none once it is that
    retry; and its delays are [1000 * 2^n] ms for consecutive [n] from
    [retryCount] on, [n] below 3. *)
Theorem callApi_effort messages n isRetry retryCount :
  let trace := run_trace (callApi' messages n isRetry retryCount) in
  (sends trace <= 1 + retryBudget 3 isRetry retryCount)%nat
  /\ (refreshes trace <= if isRetry then 0 else 1)%nat
  /\ exists k : nat,
       (retryCount + k <= Nat.max retryCount 3)%nat
       /\ sleeps trace = backoff 1000 retryCount k.
Proof.
  cbv zeta. split; [apply RetryFacts.callApi_sends|].
  split; [apply RetryFacts.callApi_refreshes|apply RetryFacts.callApi_sleeps].
Qed.

(** X7: the same for a streaming call, with the configured number of
    retries and base delay: at most [1 + (maxRetries - retryCount)]
    requests and one more for the retry after a 403, at most one forced
    refresh, and the delays [baseDelay * 2^n] for consecutive [n] from
    [retryCount] on, [n] below [maxRetries]. *)
Theorem streamApiReal_effort messages n isRetry retryCount :
  let trace := sr_trace (streamApiReal' messages n isRetry retryCount) in
  (sends trace <= 1 + retryBudget (maxRetries service) isRetry retryCount)%nat
  /\ (refreshes trace <= if isRetry then 0 else 1)%nat
  /\ exists k : nat,
       (retryCount + k <= Nat.max retryCount (maxRetries service))%nat
       /\ sleeps trace = backoff (baseDelay service) retryCount k.
Proof.
  cbv zeta.
  funelim (streamApiReal' messages n isRetry retryCount); cbn [sr_trace sends refreshes sleeps].
  - split; [lia|]. split; [destruct isRetry; lia|]. exists 0%nat. split; [lia|reflexivity].
  - split; [lia|]. split; [destruct isRetry; lia|]. exists 0%nat. split; [lia|reflexivity].
  - destruct (andb_prop _ _ is403) as [_ R]. destruct isRetry; [discriminate|].
    split; [unfold retryBudget; simpl; lia|]. split; [lia|].
    exists 0%nat. split; [lia|reflexivity].
  - destruct (andb_prop _ _ is403) as [_ R]. destruct isRetry; [discriminate|].
    destruct H as (Hs & Hr & k & Hk & Hsl).
    split; [unfold retryBudget in *; simpl in *; lia|]. split; [simpl in *; lia|].
    exists k. split; [exact Hk|exact Hsl].
  - destruct (andb_prop _ _ retryable) as [_ R]. apply Nat.ltb_lt in R.
    destruct H as (Hs & Hr & k & Hk & Hsl).
    split; [unfold retryBudget in *; destruct isRetry; simpl in *; lia|].
    split; [exact Hr|]. exists (S k). split; [lia|]. rewrite Hsl. reflexivity.
  - split; [lia|]. split; [destruct isRetry; lia|]. exists 0%nat. split; [lia|reflexivity].
Qed.

End Calls.
End RetryBounds.


(** ** Facts about the request translator: what every request has *)

Module TranslatorFacts.
Import Js Kiro Observe.

(** What is common to the requests that the translator builds: the list
    merged is not empty, its last message is the current one, and the
    history ends with an assistant entry unless it is empty. *)
Ltac open_build H :=
  unfold buildCodewhispererRequest in H;
  destruct (List.length _ =? 0)%nat eqn:Hlen in H; [discriminate H|];
  destruct (mergeMessages (popBraceStub _)) as [|first rest] eqn:Em in H;
    [discriminate H|];
  destruct (last (first :: rest)) as [cur|] eqn:El in H; [|discriminate H].

Lemma uniqueToolResults_ids results (seenIds : gset string) :
  NoDup (map tr_toolUseId (uniqueToolResults results seenIds))
  /\ (forall k, k ∈ map tr_toolUseId (uniqueToolResults results seenIds) <->
                 k ∈ map tr_toolUseId results /\ k ∉ seenIds).
Proof.
  revert seenIds. induction results as [|tr results IH]; intros seenIds.
  - simpl. split; [constructor|]. intros k. set_solver.
  - cbn [uniqueToolResults]. destruct (decide (tr_toolUseId tr ∈ seenIds)) as [Hin|Hout].
    + destruct (IH seenIds) as [N M]. split; [exact N|].
      intros k. rewrite M. cbn [map]. set_solver.
    + destruct (IH ({[tr_toolUseId tr]} ∪ seenIds)) as [N M]. split.
      * cbn [map]. constructor; [|exact N]. rewrite M. set_solver.
      * intros k. cbn [map]. rewrite elem_of_cons, M, elem_of_cons.
        destruct (decide (k = tr_toolUseId tr)) as [->|Hne]; set_solver.
Qed.

Lemma uniqueToolResults_NoDup results :
  NoDup (map tr_toolUseId (uniqueToolResults results ∅)).
Proof. apply uniqueToolResults_ids. Qed.

Lemma historyEntries_toolResults model ms :
  Forall (fun e => NoDup (map tr_toolUseId (entryToolResults e)))
    (historyEntries model ms).
Proof.
  induction ms as [|m ms IH]; cbn [historyEntries]; [constructor|].
  apply Forall_app. split; [|exact IH].
  destruct (role m =? "user")%string.
  - constructor; [|constructor]. unfold userEntry.
    destruct (content m); cbn [entryToolResults uim_toolResults];
      try constructor. apply uniqueToolResults_NoDup.
  - destruct (role m =? "assistant")%string; [|constructor].
    constructor; [|constructor]. unfold assistantEntry.
    destruct (content m); cbn [entryToolResults]; constructor.
Qed.

(** X8: in every request built, no user turn, of the history or current,
    carries two tool results with the same [toolUseId]. *)
Theorem buildCodewhispererRequest_toolResults_unique
  authMethod arn messages model tools system req messages' :
  buildCodewhispererRequest authMethod arn messages model tools system
  = Ok (req, messages') ->
  NoDup (map tr_toolUseId (uim_toolResults (currentMessage req)))
  /\ Forall (fun e => NoDup (map tr_toolUseId (entryToolResults e))) (history req).
Proof.
  intros H. open_build H.
  set (cwModel := match MODEL_MAPPING model with
                  | Some m => Some m
                  | None => MODEL_MAPPING DEFAULT_MODEL_NAME
                  end) in H.
  set (history0 := if nonEmpty (safeGetTextContent_value system) then _ else _) in H.
  assert (H0 : Forall (fun e => NoDup (map tr_toolUseId (entryToolResults e))) history0).
  { unfold history0. destruct (nonEmpty _); [|constructor].
    destruct (role first =? "user")%string; repeat constructor. }
  set (history1 := (history0 ++ historyEntries cwModel _)%list) in H.
  assert (H1 : Forall (fun e => NoDup (map tr_toolUseId (entryToolResults e))) history1).
  { apply Forall_app. split; [exact H0|apply historyEntries_toolResults]. }
  assert (HA : forall m, NoDup (map tr_toolUseId (entryToolResults (assistantEntry m)))).
  { intros m. unfold assistantEntry. destruct (content m); constructor. }
  destruct (role cur =? "assistant")%string.
  - injection H as <- _. cbn [currentMessage history uim_toolResults]. split.
    + constructor.
    + apply Forall_app. split; [exact H1|]. constructor; [apply HA|constructor].
  - set (history' := match last history1 with Some _ => _ | None => _ end) in H.
    assert (H' : Forall (fun e => NoDup (map tr_toolUseId (entryToolResults e))) history').
    { unfold history'. destruct (last history1) as [item|]; [|exact H1].
      destruct (isAssistantEntry item); [exact H1|].
      apply Forall_app. split; [exact H1|]. repeat constructor. }
    destruct (content cur); injection H as <- _;
      cbn [currentMessage history uim_toolResults];
      (split; [first [apply uniqueToolResults_NoDup | constructor]|exact H']).
Qed.

(** X9: in every request built, the content of the current message is
    not empty, and the history, unless it is empty, ends with an
    assistant turn. *)
Theorem buildCodewhispererRequest_current_turn
  authMethod arn messages model tools system req messages' :
  buildCodewhispererRequest authMethod arn messages model tools system
  = Ok (req, messages') ->
  nonEmpty (uim_content (currentMessage req)) = true
  /\ match last (history req) with
     | Some e => isAssistantEntry e = true
     | None => True
     end.
Proof.
  intros H. open_build H.
  set (cwModel := match MODEL_MAPPING model with
                  | Some m => Some m
                  | None => MODEL_MAPPING DEFAULT_MODEL_NAME
                  end) in H.
  set (history0 := if nonEmpty (safeGetTextContent_value system) then _ else _) in H.
  set (history1 := (history0 ++ historyEntries cwModel _)%list) in H.
  destruct (role cur =? "assistant")%string.
  - injection H as <- _. cbn [currentMessage history uim_content]. split; [reflexivity|].
    rewrite last_snoc. unfold assistantEntry. destruct (content cur); reflexivity.
  - set (history' := match last history1 with Some _ => _ | None => _ end) in H.
    assert (H' : match last history' with
                 | Some e => isAssistantEntry e = true
                 | None => True
                 end).
    { unfold history'. destruct (last history1) as [item|] eqn:E1.
      - destruct (isAssistantEntry item) eqn:Ei; [rewrite E1; exact Ei|].
        rewrite last_snoc. reflexivity.
      - rewrite E1. exact I. }
    destruct (content cur); injection H as <- _;
      cbn [currentMessage history uim_content]; (split; [|exact H']);
      repeat match goal with
             | |- context [if ?b then _ else _] => destruct b eqn:?
             end; try assumption; reflexivity.
Qed.





Lemma collapsed_head a l : head (collapsed (a :: l)) = Some a.
Proof.
  revert a. induction l as [|b l IH]; intros a; [reflexivity|].
  change (collapsed (a :: b :: l))
    with (if (a =? b)%string then collapsed (b :: l) else a :: collapsed (b :: l)).
  destruct (String.eqb_spec a b) as [->|_]; [apply IH|reflexivity].
Qed.

Lemma collapsed_neighboursDiffer l : neighboursDiffer (collapsed l) = true.
Proof.
  induction l as [|a [|b l] IH]; try reflexivity.
  change (collapsed (a :: b :: l))
    with (if (a =? b)%string then collapsed (b :: l) else a :: collapsed (b :: l)).
  destruct (String.eqb_spec a b) as [->|Hne]; [exact IH|].
  pose proof (collapsed_head b l) as Hh.
  destruct (collapsed (b :: l)) as [|c rest]; [discriminate Hh|].
  injection Hh as ->. cbn [neighboursDiffer] in *.
  destruct (String.eqb_spec a b); [contradiction|]. exact IH.
Qed.

Lemma mergeLoop_roles ms : forall (front : list Message) (x : Message),
  map role (fold_left mergeStep ms (front ++ [x])%list)
  = (map role front ++ collapsed (role x :: map role ms))%list.
Proof.
  induction ms as [|m ms IH]; intros front x.
  - cbn [fold_left map collapsed]. rewrite map_app. reflexivity.
  - cbn [fold_left map]. unfold mergeStep at 2. rewrite last_snoc.
    cbn [collapsed]. rewrite String.eqb_sym.
    destruct (role x =? role m)%string eqn:E.
    + rewrite removelast_last, IH. cbn [role].
      apply String.eqb_eq in E. rewrite E. reflexivity.
    + rewrite IH, map_app, <- app_assoc. reflexivity.
Qed.

(** X11: the merge of the translator leaves the roles of the messages in
    their order with the repeats of a neighbour removed: no two
    neighbours of the merged list share a role. *)
Theorem mergeMessages_roles ms :
  map role (mergeMessages ms) = collapsed (map role ms)
  /\ neighboursDiffer (map role (mergeMessages ms)) = true.
Proof.
  assert (E : map role (mergeMessages ms) = collapsed (map role ms)).
  { destruct ms as [|m ms]; [reflexivity|].
    unfold mergeMessages. cbn [fold_left]. change (mergeStep [] m) with ([] ++ [m])%list.
    rewrite mergeLoop_roles. reflexivity. }
  split; [exact E|]. rewrite E. apply collapsed_neighboursDiffer.
Qed.

Lemma buildCodewhispererRequest_toolResults_unique_witness :
  exists req messages',
    buildCodewhispererRequest None None Demo.toolConversation "claude-opus-4-5" [] CNull
    = Ok (req, messages')
    /\ NoDup (map tr_toolUseId (uim_toolResults (currentMessage req))).
Proof.
  eexists _, _. split; [reflexivity|].
  apply (buildCodewhispererRequest_toolResults_unique None None
           Demo.toolConversation "claude-opus-4-5" [] CNull _ _ eq_refl).
Defined.

Lemma buildCodewhispererRequest_current_turn_witness :
  exists req messages',
    buildCodewhispererRequest None None Demo.hi "claude-opus-4-5" [] CNull
    = Ok (req, messages')
    /\ nonEmpty (uim_content (currentMessage req)) = true.
Proof.
  eexists _, _. split; [reflexivity|].
  apply (buildCodewhispererRequest_current_turn None None
           Demo.hi "claude-opus-4-5" [] CNull _ _ eq_refl).
Defined.

End TranslatorFacts.


(** ** Facts about the streaming path: events and chunks *)

Module StreamExtras.
Import Js Kiro Observe.

(** What [retained] keeps: no empty payload, no payload equal to the one
    before it, and none equal to [previous] at the head. *)
Lemma retained_kept payloads previous :
  Forall (fun p => nonEmpty p = true) (retained payloads previous)
  /\ neighboursDiffer (retained payloads previous) = true
  /\ match head (retained payloads previous), previous with
     | Some p, Some q => q <> p
     | _, _ => True
     end.
Proof.
  revert previous. induction payloads as [|p payloads IH]; intros previous.
  - simpl. split; [constructor|]. split; [reflexivity|exact I].
  - cbn [retained]. destruct (String.eqb_spec p "") as [->|Hne]; [apply IH|].
    destruct (match previous with
              | Some q => (q =? p)%string
              | None => false
              end) eqn:E; [apply IH|].
    destruct (IH (Some p)) as (F & N & Hd). split; [|split].
    + constructor; [|exact F]. unfold nonEmpty.
      destruct (String.eqb_spec p ""); [contradiction|reflexivity].
    + destruct (retained payloads (Some p)) as [|q rest] eqn:Er; [reflexivity|].
      cbn [neighboursDiffer]. cbn [head] in Hd.
      destruct (String.eqb_spec p q) as [->|_]; [contradiction|exact N].
    + cbn [head]. destruct previous as [q|]; [|exact I].
      apply String.eqb_neq. exact E.
Qed.

Lemma yieldEvents_contentPayloads events previous :
  contentPayloads (fst (yieldEvents events previous))
  = retained (contentPayloads events) previous
  /\ snd (yieldEvents events previous)
     = lastOf previous (retained (contentPayloads events) previous).
Proof.
  revert previous. induction events as [|ev events IH]; intros previous.
  - simpl. split; reflexivity.
  - destruct ev as [data| | |]; cbn [yieldEvents contentPayloads retained].
    + unfold nonEmpty. destruct (String.eqb_spec data "") as [->|Hne]; cbn [negb].
      * apply IH.
      * destruct (match previous with
                  | Some l => (l =? data)%string
                  | None => false
                  end) eqn:E; [apply IH|].
        specialize (IH (Some data)).
        destruct (yieldEvents events (Some data)) as [out l']. cbn [fst snd] in *.
        destruct IH as [IH1 IH2]. cbn [contentPayloads].
        rewrite IH1, IH2, StreamFacts.lastOf_cons. split; reflexivity.
    + specialize (IH previous). destruct (yieldEvents events previous) as [out l'].
      exact IH.
    + specialize (IH previous). destruct (yieldEvents events previous) as [out l'].
      exact IH.
    + specialize (IH previous). destruct (yieldEvents events previous) as [out l'].
      exact IH.
Qed.

Lemma readChunks_contentPayloads parseFrame chunks buffer previous :
  contentPayloads (readChunks parseFrame chunks buffer previous)
  = retained (contentPayloads (extracted parseFrame chunks buffer)) previous.
Proof.
  revert buffer previous.
  induction chunks as [|chunk chunks IH]; intros buffer previous;
    cbn [readChunks extracted]; [reflexivity|].
  destruct (parseAwsEventStreamBuffer parseFrame (buffer ++ chunk))
    as [events remaining].
  pose proof (yieldEvents_contentPayloads events previous) as [H1 H2].
  destruct (yieldEvents events previous) as [out l']. cbn [fst snd] in H1, H2.
  rewrite !StreamFacts.contentPayloads_app, StreamFacts.retained_app, H1, IH, H2.
  reflexivity.
Qed.

(** X13: of the content events that [streamApiReal] yields over the reads
    of a response, none has an empty payload and none has the payload of
    the content event yielded before it. *)
Theorem readChunks_content_events parseFrame chunks buffer :
  let payloads := contentPayloads (readChunks parseFrame chunks buffer None) in
  Forall (fun p => nonEmpty p = true) payloads
  /\ neighboursDiffer payloads = true.
Proof.
  cbv zeta. rewrite readChunks_contentPayloads.
  destruct (retained_kept (contentPayloads (extracted parseFrame chunks buffer)) None)
    as (F & N & _).
  split; assumption.
Qed.

Section Generate.
Variable parseFrame : string -> option Frame.
Variable JSON_parse : string -> option JValue.
Variable JSON_stringify : JValue -> string.
Variable repairJson : string -> string.
Variable uuidv4 : nat -> string.
Variable messageId : string.
Variable toolUuid : nat -> string.
Variable countTextTokens : string -> Z.
Variable toolsJson : list Tool -> string.
Variable service : Service.
Variable streamUpstream : nat -> StreamResponse.
Variable forcedRefresh : option string.

Local Abbreviation streamLoop' := (streamLoop JSON_parse messageId).
Local Abbreviation generateContentStream' :=
  (generateContentStream parseFrame JSON_parse JSON_stringify repairJson uuidv4
     messageId toolUuid countTextTokens toolsJson service streamUpstream
     forcedRefresh).
Local Abbreviation upstreamRun model requestBody :=
  (streamApiReal parseFrame service streamUpstream forcedRefresh (finalModel model)
     (body_tools requestBody) (body_system requestBody)
     (body_messages requestBody) 0 false 0).

(** X14: when [generateContentStream] throws, because the upstream call
    throws or because the arguments of a bracketed tool call do not
    parse, what it has yielded is the two opening chunks, if any event
    came, and the text deltas: no chunk that closes a block, the message
    or the stream. *)
Theorem generateContentStream_broken model requestBody e :
  sr_thrown (generateContentStream' model requestBody) = Some e ->
  let events := sr_yields (upstreamRun model requestBody) in
  sr_yields (generateContentStream' model requestBody)
  = (match events with
     | [] => []
     | _ :: _ =>
         [MessageStart messageId model
            (estimateInputTokens countTextTokens toolsJson requestBody);
          ContentBlockStartText 0]
     end ++ map (ContentBlockDeltaText 0) (nonEmptyPayloads events))%list
  /\ Forall (fun chunk => closesBlock chunk = false)
       (sr_yields (generateContentStream' model requestBody)).
Proof.
  cbv zeta. unfold generateContentStream.
  set (r := upstreamRun model requestBody).
  set (inputTokens := estimateInputTokens _ _ _).
  pose proof (StreamFacts.streamLoop_out JSON_parse messageId model inputTokens
                initialGenState (sr_yields r)) as [L _].
  destruct (streamLoop' model inputTokens initialGenState (sr_yields r)) as [st out].
  cbn [fst snd initialGenState streamStarted] in L. subst out.
  assert (Open : Forall (fun chunk => closesBlock chunk = false)
                   (match sr_yields r with
                    | [] => []
                    | _ :: _ => [MessageStart messageId model inputTokens;
                                 ContentBlockStartText 0]
                    end ++ map (ContentBlockDeltaText 0)
                             (nonEmptyPayloads (sr_yields r)))%list).
  { apply Forall_app. split.
    - destruct (sr_yields r); repeat constructor.
    - induction (nonEmptyPayloads (sr_yields r)); constructor; [reflexivity|assumption]. }
  destruct (sr_thrown r).
  - cbn [sr_yields sr_thrown]. intros _. split; [reflexivity|exact Open].
  - unfold streamEpilogue.
    destruct (bracketStreamToolCalls _ _ _) as [more|e']; cbn [sr_yields sr_thrown];
      [discriminate|].
    intros _. rewrite app_nil_r. split; [reflexivity|exact Open].
Qed.

(** The fragments of a tool call are put together in their order: a
    [toolUse] event that opens the call, [toolUseInput] events, and the
    [toolUseStop] event. *)
Lemma streamLoop_inputs model inputTokens st c fragments :
  currentToolCall st = Some c ->
  let '(st', _) :=
    streamLoop' model inputTokens st (map EvToolUseInput fragments) in
  totalContent st' = totalContent st
  /\ toolCalls st' = toolCalls st
  /\ currentToolCall st'
     = Some (mkOpenToolCall (otc_toolUseId c) (otc_name c)
               (otc_input c ++ joinAll fragments)).
Proof.
  revert st c. induction fragments as [|f fragments IH]; intros st c Hc.
  - cbn. rewrite StreamFacts.append_nil_r. destruct c. repeat split; exact Hc.
  - cbn [map streamLoop streamStep]. rewrite Hc.
    set (st1 := mkGenState _ _ _ _).
    specialize (IH st1 (mkOpenToolCall (otc_toolUseId c) (otc_name c)
                          (otc_input c ++ f)) eq_refl).
    destruct (streamLoop' model inputTokens st1 (map EvToolUseInput fragments))
      as [st2 out2].
    destruct IH as (T & C & U). cbn [joinAll fold_right].
    cbn [otc_toolUseId otc_name otc_input] in U.
    rewrite StreamFacts.append_assoc in U.
    repeat split; assumption.
Qed.

(** X15: a tool call that arrives in pieces, opened by a [toolUse] event
    with a name and an identifier while no call is open, continued by
    [toolUseInput] events and closed by a [toolUseStop] event, is
    recorded once, its input being the pieces put together in their
    order and parsed, or kept raw when they do not parse. *)
Theorem streamLoop_tool_call_in_pieces
  model inputTokens st name toolUseId input fragments :
  currentToolCall st = None ->
  nonEmpty name = true -> nonEmpty toolUseId = true ->
  let '(st', _) :=
    streamLoop' model inputTokens st
      (EvToolUse name toolUseId input false
       :: map EvToolUseInput fragments ++ [EvToolUseStop true]) in
  toolCalls st'
  = (toolCalls st
     ++ [mkStreamToolCall toolUseId name
           (parseOrKeep JSON_parse (input ++ joinAll fragments))])%list
  /\ currentToolCall st' = None
  /\ totalContent st' = totalContent st.
Proof.
  intros Hc Hn Hi. cbn [streamLoop streamStep]. rewrite Hc, Hn, Hi. cbn [andb].
  set (st1 := mkGenState _ _ _ _).
  assert (Loop : forall l1 l2 st,
             streamLoop' model inputTokens st (l1 ++ l2)
             = let '(sta, oa) := streamLoop' model inputTokens st l1 in
               let '(stb, ob) := streamLoop' model inputTokens sta l2 in
               (stb, (oa ++ ob)%list)).
  { induction l1 as [|ev l1 IHl]; intros l2 s.
    - cbn [app streamLoop]. destruct (streamLoop' model inputTokens s l2). reflexivity.
    - cbn [app streamLoop]. destruct (streamStep JSON_parse messageId model inputTokens s ev)
        as [s1 o1].
      rewrite IHl. destruct (streamLoop' model inputTokens s1 l1) as [sa oa].
      destruct (streamLoop' model inputTokens sa l2) as [sb ob].
      rewrite app_assoc. reflexivity. }
  rewrite Loop.
  pose proof (streamLoop_inputs model inputTokens st1
                (mkOpenToolCall toolUseId name input) fragments eq_refl) as P.
  destruct (streamLoop' model inputTokens st1 (map EvToolUseInput fragments))
    as [st2 out2].
  destruct P as (T & C & U). cbn [streamLoop streamStep]. rewrite U.
  cbn [toolCalls currentToolCall totalContent]. rewrite C, T.
  unfold closeToolCall. cbn [otc_toolUseId otc_name otc_input].
  repeat split; reflexivity.
Qed.

End Generate.

Lemma generateContentStream_broken_witness :
  sr_yields
    (generateContentStream Demo.parseFrame Demo.JSON_parse Demo.JSON_stringify
       Demo.repairJson Demo.uuidv4 "msg_1" Demo.uuidv4 Demo.countTextTokens
       (fun _ => "[]") (mkService None None None None)
       (Demo.brokenStream (Some 500) "A") None "claude-opus-4-5"
       (mkBody Demo.hi [] CNull))
  = [MessageStart "msg_1" "claude-opus-4-5" 2; ContentBlockStartText 0;
     ContentBlockDeltaText 0 "par"].
Proof.
  refine (proj1 (generateContentStream_broken Demo.parseFrame
                   Demo.JSON_parse Demo.JSON_stringify Demo.repairJson Demo.uuidv4
                   "msg_1" Demo.uuidv4 Demo.countTextTokens (fun _ => "[]")
                   (mkService None None None None) (Demo.brokenStream (Some 500) "A")
                   None "claude-opus-4-5" (mkBody Demo.hi [] CNull)
                   (mkError (Some 500) "socket hang up") _)).
  reflexivity.
Defined.

Lemma streamLoop_tool_call_in_pieces_witness :
  toolCalls
    (fst (streamLoop Demo.JSON_parse "msg_1" "claude-opus-4-5" 2 initialGenState
            [EvToolUse "search" "t1" "{" false;
             EvToolUseInput (Js.quoted "q" ++ ":");
             EvToolUseInput (Js.quoted "foo" ++ "}");
             EvToolUseStop true]))
  = [mkStreamToolCall "t1" "search" (JObj [("q", JStr "foo")])].
Proof.
  pose proof (streamLoop_tool_call_in_pieces Demo.JSON_parse "msg_1"
                "claude-opus-4-5" 2 initialGenState "search" "t1" "{"
                [Js.quoted "q" ++ ":"; Js.quoted "foo" ++ "}"]%string
                eq_refl eq_refl eq_refl) as H.
  cbn [map app] in H.
  destruct (streamLoop _ _ _ _ _ _) as [st' out]. exact (proj1 H).
Defined.

End StreamExtras.


(** ** Facts about the unary path *)

Module UnaryFacts.
Import Js Kiro Observe.

Section Calls.
Variable service : Service.
Variable u1 u2 : nat -> Result string.
Variable forcedRefresh : option string.
Variable model : string.
Variable tools : list Tool.
Variable system : Content.
Hypothesis alike : alikeButBody u1 u2.

(** The two calls do the same and end the same way. *)
Lemma callApi_alike budget : forall messages n isRetry retryCount,
  (retryBudget 3 isRetry retryCount < budget)%nat ->
  let r1 := callApi service u1 forcedRefresh model tools system messages n isRetry
              retryCount in
  let r2 := callApi service u2 forcedRefresh model tools system messages n isRetry
              retryCount in
  run_trace r1 = run_trace r2
  /\ run_messages r1 = run_messages r2
  /\ match run_result r1, run_result r2 with
     | Ok _, Ok _ => True
     | Throw e1, Throw e2 => e1 = e2
     | _, _ => False
     end.
Proof.
  induction budget as [|budget IH]; intros messages n isRetry retryCount Hb; [lia|].
  cbv zeta. rewrite !RetryFacts.callApi_unfold.
  destruct (buildCodewhispererRequest _ _ messages model tools system)
    as [[req messages']|e]; [|repeat split; reflexivity].
  pose proof (alike n) as A.
  destruct (u1 n) as [d1|e1], (u2 n) as [d2|e2]; try contradiction.
  - repeat split; reflexivity.
  - subst e2. destruct (statusIs e1 403 && negb isRetry) eqn:E403.
    + destruct forcedRefresh; [repeat split; reflexivity|].
      apply andb_prop in E403 as [_ R]. destruct isRetry; [discriminate|].
      specialize (IH messages' (S n) true retryCount).
      cbv zeta in IH. destruct IH as (T & M & R'); [unfold retryBudget in *; simpl in *; lia|].
      cbn [run_trace run_messages run_result]. rewrite T, M. repeat split. exact R'.
    + destruct ((statusIs e1 429 || statusAtLeast500 e1) && (retryCount <? 3)%nat)
        eqn:Eretry; [|repeat split; reflexivity].
      apply andb_prop in Eretry as [_ R]. apply Nat.ltb_lt in R.
      specialize (IH messages' (S n) isRetry (S retryCount)).
      cbv zeta in IH.
      destruct IH as (T & M & R');
        [unfold retryBudget in *; destruct isRetry; simpl in *; lia|].
      cbn [run_trace run_messages run_result]. rewrite T, M. repeat split. exact R'.
Qed.

End Calls.

Section Generate.
Variable JSON_parse : string -> option JValue.
Variable JSON_stringify : JValue -> string.
Variable repairJson : string -> string.
Variable uuidv4 : nat -> string.
Variable messageId : string.
Variable countTextTokens : string -> Z.
Variable toolsJson : list Tool -> string.
Variable eventPayloads : string -> list EventData.
Variable visibleText : string -> list ToolCall -> string.
Variable service : Service.
Variable forcedRefresh : option string.

Local Abbreviation generateContent' unaryUpstream :=
  (generateContent JSON_parse JSON_stringify repairJson uuidv4 messageId
     countTextTokens toolsJson eventPayloads service unaryUpstream forcedRefresh
     visibleText).

(** X17: the answer of [generateContent] does not depend on the body of
    the upstream answer: [callApi] returns [response.data], a string, and
    [_processApiResponse] reads the property [data] of it. *)
Theorem generateContent_ignores_body u1 u2 model requestBody :
  alikeButBody u1 u2 ->
  generateContent' u1 model requestBody = generateContent' u2 model requestBody.
Proof.
  intros alike. unfold generateContent.
  pose proof (callApi_alike service u1 u2 forcedRefresh (finalModel model)
                (body_tools requestBody) (body_system requestBody) alike
                (S (retryBudget 3 false 0)) (body_messages requestBody)
                0%nat false 0%nat (Nat.lt_succ_diag_r _)) as A.
  cbv zeta in A. destruct A as (T & M & R). rewrite T, M.
  destruct (run_result (callApi service u1 _ _ _ _ _ _ _ _)) as [d1|e1],
           (run_result (callApi service u2 _ _ _ _ _ _ _ _)) as [d2|e2];
    try contradiction; [reflexivity|].
  subst e2. reflexivity.
Qed.

(** The blocks of [buildClaudeResponse]. *)
Lemma toolUseContent_blocks calls :
  match toolUseContent JSON_parse calls with
  | Ok blocks =>
      Forall2 (fun tc block =>
                 fst block = tc_name tc
                 /\ JSON_parse (tc_arguments tc) = Some (snd block))
        calls (toolUseBlocksOf blocks)
      /\ List.length blocks = List.length calls
  | Throw _ => Exists (fun tc => JSON_parse (tc_arguments tc) = None) calls
  end.
Proof.
  induction calls as [|tc calls IH]; cbn [toolUseContent].
  - split; [constructor|reflexivity].
  - destruct (JSON_parse (tc_arguments tc)) as [input|] eqn:E.
    + destruct (toolUseContent JSON_parse calls) as [blocks|e].
      * destruct IH as [F L]. cbn [toolUseBlocksOf List.length]. split.
        -- constructor; [split; [reflexivity|exact E]|exact F].
        -- rewrite L. reflexivity.
      * right. exact IH.
    + left. exact E.
Qed.

(** X18: the message of the unary path carries the text block first and
    then one [tool_use] block per tool call, in the order of the calls,
    with the name of the call and its arguments parsed; its stop reason
    is [end_turn] also when it carries tool calls; and building it throws
    exactly when the arguments of a call are not JSON. *)
Theorem buildClaudeResponse_blocks text model calls inputTokens :
  match buildClaudeResponse JSON_parse messageId countTextTokens text model calls
          inputTokens with
  | Ok message =>
      msg_stop_reason message = "end_turn"
      /\ head (msg_content message) = Some (TextBlock text)
      /\ List.length (msg_content message) = S (List.length calls)
      /\ Forall2 (fun tc block =>
                    fst block = tc_name tc
                    /\ JSON_parse (tc_arguments tc) = Some (snd block))
           calls (toolUseBlocksOf (msg_content message))
  | Throw _ => Exists (fun tc => JSON_parse (tc_arguments tc) = None) calls
  end.
Proof.
  unfold buildClaudeResponse.
  pose proof (toolUseContent_blocks calls) as B.
  destruct (toolUseContent JSON_parse calls) as [blocks|e]; [|exact B].
  destruct B as [F L]. cbn [msg_stop_reason msg_content head List.length toolUseBlocksOf].
  rewrite L. repeat split. exact F.
Qed.

End Generate.

Lemma generateContent_ignores_body_witness :
  generateContent Demo.JSON_parse Demo.JSON_stringify Demo.repairJson Demo.uuidv4
    "msg_1" Demo.countTextTokens (fun _ => "[]") (fun _ => [])
    (mkService None None None None) (fun _ => Ok "one") None (fun text _ => text)
    "claude-opus-4-5" (mkBody Demo.hi [] CNull)
  = generateContent Demo.JSON_parse Demo.JSON_stringify Demo.repairJson Demo.uuidv4
      "msg_1" Demo.countTextTokens (fun _ => "[]") (fun _ => [])
      (mkService None None None None) (fun _ => Ok "another") None (fun text _ => text)
      "claude-opus-4-5" (mkBody Demo.hi [] CNull).
Proof.
  apply (generateContent_ignores_body Demo.JSON_parse Demo.JSON_stringify
           Demo.repairJson Demo.uuidv4 "msg_1" Demo.countTextTokens (fun _ => "[]")
           (fun _ => []) (fun text _ => text) (mkService None None None None) None
           (fun _ => Ok "one") (fun _ => Ok "another")).
  intros n. exact I.
Defined.

End UnaryFacts.


(** ** Facts about the parser of the event stream *)

Module ParserFacts.
Import Js Kiro Observe.

Lemma firstOf_least start candidates :
  In (Some start) candidates ->
  Forall (fun c => forall k, c = Some k -> (start <= k)%nat) candidates ->
  firstOf candidates = Some start.
Proof.
  unfold firstOf. induction candidates as [|c cs IH]; intros Hin Hall; [contradiction|].
  apply Forall_cons in Hall as [Hc Hall]. cbn [foldr].
  destruct Hin as [->|Hin].
  - pose proof (firstOf_from start cs) as Hle. unfold firstOf in Hle.
    destruct (foldr _ None cs) as [b|]; [|reflexivity].
    specialize (Hle b Hall eq_refl). f_equal. lia.
  - rewrite (IH Hin Hall). destruct c as [a|]; [|reflexivity].
    specialize (Hc a eq_refl). f_equal. lia.
Qed.

Lemma frameStart_here (a b : string) :
  existsb (fun opening => String.prefix opening b) openings = true ->
  frameStart (a ++ b) (String.length a) = Some (String.length a).
Proof.
  intros He. unfold frameStart. apply firstOf_least.
  - apply existsb_exists in He as [opening [Hin Hp]].
    assert (Hne : opening <> "").
    { unfold openings in Hin. cbn in Hin.
      intros ->. repeat destruct Hin as [Hin|Hin]; try discriminate Hin; contradiction. }
    pose proof (StringFacts.indexOf_here opening a b Hne Hp) as Hi.
    unfold openings in Hin. cbn [In] in Hin.
    destruct Hin as [<-|[<-|[<-|[<-|[<-|[]]]]]]; rewrite Hi; cbn [In]; tauto.
  - repeat constructor; intros k; apply indexOf_from.
Qed.

(** The scan of a frame does not look past its closing brace, and counts
    the positions from where it starts. *)
Lemma frameEnd_app (a b : string) i braceCount inString escapeNext jsonEnd :
  frameEnd a i braceCount inString escapeNext = Some jsonEnd ->
  frameEnd (a ++ b) i braceCount inString escapeNext = Some jsonEnd.
Proof.
  revert i braceCount inString escapeNext.
  induction a as [|c a IH]; intros i braceCount inString escapeNext;
    [discriminate|].
  change (String c a ++ b) with (String c (a ++ b)). cbn [frameEnd].
  repeat match goal with
         | |- context [if ?t then _ else _] => destruct t
         end; try apply IH. exact (fun H => H).
Qed.

Lemma frameEnd_shift (a : string) i braceCount inString escapeNext :
  frameEnd a i braceCount inString escapeNext
  = match frameEnd a 0 braceCount inString escapeNext with
    | Some k => Some (i + k)%nat
    | None => None
    end.
Proof.
  revert i braceCount inString escapeNext.
  induction a as [|c a IH]; intros i braceCount inString escapeNext;
    cbn [frameEnd]; [reflexivity|].
  assert (Step : forall bc s e,
             frameEnd a (S i) bc s e
             = match frameEnd a 1 bc s e with
               | Some k => Some (i + k)%nat
               | None => None
               end).
  { intros bc s e. rewrite (IH (S i)), (IH 1%nat).
    destruct (frameEnd a 0 bc s e); [f_equal; lia|reflexivity]. }
  repeat match goal with
         | |- context [if ?t then _ else _] => destruct t
         end; try apply Step. f_equal. lia.
Qed.

Section Parser.
Variable parseFrame : string -> option Frame.

Local Abbreviation parseFrames' := (parseFrames parseFrame).

(** The body of the loop of [parseAwsEventStreamBuffer]. *)
Lemma parseFrames_unfold remaining searchStart events :
  parseFrames' remaining searchStart events =
  match frameStart remaining searchStart with
  | None => (events, keepRemaining remaining searchStart)
  | Some jsonStart =>
      match frameEnd (substringFrom jsonStart remaining) jsonStart 0 false false with
      | None =>
          (events, keepRemaining (substringFrom jsonStart remaining) searchStart)
      | Some jsonEnd =>
          let events' :=
            (events ++ parsedEvents parseFrame
                         (substring jsonStart (S jsonEnd) remaining))%list in
          if (String.length remaining <=? S jsonEnd)%nat then (events', "")
          else parseFrames' remaining (S jsonEnd) events'
      end
  end.
Proof.
  funelim (parseFrames' remaining searchStart events);
    repeat match goal with
           | H : _ = _ |- _ => rewrite H
           end; reflexivity.
Qed.

Lemma wholeFrame_length text : wholeFrame text = true -> (0 < String.length text)%nat.
Proof.
  unfold wholeFrame. intros H. apply andb_prop in H as [_ H].
  destruct (frameEnd text 0 0 false false); [|discriminate].
  apply Nat.eqb_eq in H. lia.
Qed.

(** The loop on a buffer whose unread part consists of whole frames. *)
Lemma parseFrames_whole frames : forall (done : string) frame events,
  Forall (fun text => wholeFrame text = true) (frame :: frames) ->
  parseFrames' (done ++ frame ++ joinAll frames) (String.length done) events
  = ((events ++ concat (map (parsedEvents parseFrame) (frame :: frames)))%list, "").
Proof.
  induction frames as [|next frames IH]; intros done frame events Hall;
    apply Forall_cons in Hall as [Hf Hall];
    pose proof (wholeFrame_length frame Hf) as Hlen;
    unfold wholeFrame in Hf; apply andb_prop in Hf as [Hopen Hclose];
    destruct (frameEnd frame 0 0 false false) as [k|] eqn:Ek; try discriminate;
    apply Nat.eqb_eq in Hclose;
    rewrite parseFrames_unfold;
    (rewrite frameStart_here by (rewrite existsb_exists in *;
       destruct Hopen as [o [Ho Hp]]; exists o; split; [exact Ho|];
       apply StringFacts.prefix_app; exact Hp));
    rewrite StringFacts.substringFrom_app, frameEnd_shift,
      (frameEnd_app frame _ 0 0 false false k Ek);
    cbv zeta; unfold substring;
    replace (S (String.length done + k) - String.length done)%nat
      with (String.length frame) by lia;
    rewrite StringFacts.substring_skip, StringFacts.substring_app_l, !StringFacts.length_append.
  - cbn [joinAll fold_right]. cbn [String.length].
    destruct (Nat.leb_spec (String.length done + (String.length frame + 0))
                (S (String.length done + k))) as [_|Hgt]; [|lia].
    cbn [map concat]. rewrite app_nil_r. reflexivity.
  - pose proof (wholeFrame_length next ltac:(apply Forall_cons in Hall; tauto)) as Hn.
    cbn [joinAll fold_right]. rewrite !StringFacts.length_append.
    destruct (Nat.leb_spec
                (String.length done
                 + (String.length frame
                    + (String.length next + String.length (fold_right append "" frames))))
                (S (String.length done + k))) as [Hle|_]; [lia|].
    replace (S (String.length done + k)) with (String.length (done ++ frame))
      by (rewrite StringFacts.length_append; lia).
    replace (done ++ frame ++ next ++ fold_right append "" frames)
      with ((done ++ frame) ++ next ++ joinAll frames)
      by (unfold joinAll; rewrite StreamFacts.append_assoc; reflexivity).
    rewrite (IH (done ++ frame) next _ Hall).
    cbn [map concat]. rewrite <- app_assoc. reflexivity.
Qed.

(** X19: from a buffer that consists of whole frames,
    [parseAwsEventStreamBuffer] extracts the events of each frame, in the
    order of the frames, and leaves nothing. *)
Theorem parseAwsEventStreamBuffer_whole_frames frames :
  Forall (fun text => wholeFrame text = true) frames ->
  parseAwsEventStreamBuffer parseFrame (joinAll frames)
  = (concat (map (parsedEvents parseFrame) frames), "").
Proof.
  intros Hall. unfold parseAwsEventStreamBuffer.
  destruct frames as [|frame frames].
  - rewrite parseFrames_unfold. reflexivity.
  - exact (parseFrames_whole frames "" frame [] Hall).
Qed.

End Parser.

Lemma parseAwsEventStreamBuffer_whole_frames_witness :
  parseAwsEventStreamBuffer Demo.parseFrame
    (Demo.contentFrame "a" ++ Demo.contentFrame "b")
  = ([EvContent "a"; EvContent "b"], "").
Proof.
  refine (parseAwsEventStreamBuffer_whole_frames Demo.parseFrame
            [Demo.contentFrame "a"; Demo.contentFrame "b"] _).
  repeat constructor.
Defined.

End ParserFacts.


(** ** Facts about the dispatcher: the accounts of a request *)

Module EligibleFacts.
Import Js Proxy Observe.

Section Eligible.
Variable options : ProxyOptions.
Variable now : Z.

Local Abbreviation checkAccount' := (checkAccount options now).
Local Abbreviation selectEligible' := (selectEligible options now).

Local Abbreviation keepsCooldowns := (Observe.keepsCooldowns now).

Lemma keepsCooldowns_refl du : keepsCooldowns du du.
Proof. split; [reflexivity|auto]. Qed.

Lemma keepsCooldowns_trans du1 du2 du3 :
  keepsCooldowns du1 du2 -> keepsCooldowns du2 du3 -> keepsCooldowns du1 du3.
Proof.
  intros [S1 K1] [S2 K2]. split; [etrans; eassumption|].
  intros k d H Hd Hn. apply K2; auto.
Qed.

Lemma cooling_kept du du' a :
  keepsCooldowns du du' -> cooling now du a = true -> cooling now du' a = true.
Proof.
  intros [_ K]. unfold cooling.
  destruct (du !! id a) as [d|] eqn:E; [|discriminate].
  intros H. apply andb_prop in H as [Hd Hn].
  apply negb_true_iff, Z.eqb_neq in Hd. apply Z.ltb_lt in Hn.
  rewrite (K _ _ E Hd Hn). rewrite (proj2 (Z.eqb_neq d 0) Hd), (proj2 (Z.ltb_lt now d) Hn).
  reflexivity.
Qed.

Lemma cooling_back du du' a :
  du' ⊆ du -> cooling now du' a = true -> cooling now du a = true.
Proof.
  intros S. unfold cooling.
  destruct (du' !! id a) as [d|] eqn:E; [|discriminate].
  rewrite (lookup_weaken _ _ _ _ E S). exact (fun H => H).
Qed.

(** One account: it is kept exactly when it is neither cooling nor
    blocked by its quota; a cooldown that has run out is deleted. *)
Lemma checkAccount_kept du a :
  let '(kept, du', calls) := checkAccount' du a in
  keepsCooldowns du du'
  /\ match kept with
     | Some a' =>
         id a' = id a /\ credentials a' = credentials a
         /\ cooling now du a = false /\ quotaBlocked now a = false
         /\ quotaBlocked now a' = false
     | None => cooling now du a = true \/ quotaBlocked now a = true
     end.
Proof.
  unfold checkAccount, cooling, quotaBlocked.
  assert (Q : forall du',
             keepsCooldowns du du' ->
             match du !! id a with
             | Some d => negb (d =? 0) && (now <? d)
             | None => false
             end = false ->
             let '(kept, du'', calls) :=
               match status a, quotaExhaustedUntil a with
               | Some s, Some q =>
                   if (s =? "quota_exhausted")%string && negb (q =? 0) then
                     if now <? q then (None, du', [])
                     else (Some (with_status a (Some "active") None), du',
                           if hasUpdateAccountStatus options
                           then [UpdateAccountStatus (id a)
                                   (mkStatusUpdate "active" None "")]
                           else [])
                   else (Some a, du', [])
               | _, _ => (Some a, du', [])
               end in
             keepsCooldowns du du''
             /\ match kept with
                | Some a' =>
                    id a' = id a /\ credentials a' = credentials a
                    /\ match du !! id a with
                       | Some d => negb (d =? 0) && (now <? d)
                       | None => false
                       end = false
                    /\ match status a, quotaExhaustedUntil a with
                       | Some s, Some q =>
                           (s =? "quota_exhausted")%string && negb (q =? 0) && (now <? q)
                       | _, _ => false
                       end = false
                    /\ match status a', quotaExhaustedUntil a' with
                       | Some s, Some q =>
                           (s =? "quota_exhausted")%string && negb (q =? 0) && (now <? q)
                       | _, _ => false
                       end = false
                | None =>
                    match du !! id a with
                    | Some d => negb (d =? 0) && (now <? d)
                    | None => false
                    end = true
                    \/ match status a, quotaExhaustedUntil a with
                       | Some s, Some q =>
                           (s =? "quota_exhausted")%string && negb (q =? 0) && (now <? q)
                       | _, _ => false
                       end = true
                end).
  { intros du' K C.
    destruct (status a) as [s|] eqn:Es; [|rewrite ?Es; auto 10].
    destruct (quotaExhaustedUntil a) as [q|] eqn:Eq;
      [|rewrite ?Es, ?Eq; auto 10].
    destruct ((s =? "quota_exhausted")%string && negb (q =? 0)) eqn:E.
    - destruct (now <? q) eqn:En.
      + split; [exact K|]. right. reflexivity.
      + split; [exact K|]. cbn [with_status id credentials status quotaExhaustedUntil].
        auto 10.
    - split; [exact K|]. rewrite Es, Eq, E. auto 10. }
  destruct (du !! id a) as [d|] eqn:E.
  - destruct (d =? 0) eqn:Ed; cbn [negb andb].
    + apply Q; [apply keepsCooldowns_refl|reflexivity].
    + destruct (now <? d) eqn:En.
      * split; [apply keepsCooldowns_refl|]. left. reflexivity.
      * apply Q; [|reflexivity]. split; [apply delete_subseteq|].
        intros k d' Hk Hd Hn. rewrite lookup_delete_ne; [exact Hk|].
        intros <-. rewrite E in Hk. injection Hk as <-.
        apply Z.ltb_ge in En. lia.
  - apply Q; [apply keepsCooldowns_refl|reflexivity].
Qed.

(** The selection, started with a table [du0] that keeps the cooldowns
    of [du]. *)
Lemma selectEligible_from accounts du du0 :
  keepsCooldowns du du0 ->
  let '(eligible, du', calls) := selectEligible' accounts du0 in
  map id eligible
  = map id (filter (fun a => negb (cooling now du a) && negb (quotaBlocked now a))
              accounts)
  /\ Forall (fun a' => quotaBlocked now a' = false) eligible
  /\ keepsCooldowns du du'.
Proof.
  revert du0. induction accounts as [|a accounts IH]; intros du0 K0;
    cbn [selectEligible].
  - split; [reflexivity|]. split; [constructor|exact K0].
  - pose proof (checkAccount_kept du0 a) as C.
    destruct (checkAccount' du0 a) as [[kept du1] calls1].
    destruct C as [K1 C].
    specialize (IH du1 (keepsCooldowns_trans _ _ _ K0 K1)).
    destruct (selectEligible' accounts du1) as [[eligible du2] calls2].
    destruct IH as (IH1 & IH2 & IH3).
    assert (Same : cooling now du a = cooling now du0 a).
    { destruct (cooling now du0 a) eqn:E0.
      - apply (cooling_back du du0); [apply K0|exact E0].
      - destruct (cooling now du a) eqn:E; [|reflexivity].
        rewrite (cooling_kept du du0 a K0 E) in E0. discriminate. }
    unfold filter. cbn [list_filter].
    fold (filter (fun a => negb (cooling now du a) && negb (quotaBlocked now a))
            accounts).
    destruct kept as [a'|].
    + destruct C as (Hid & _ & Hc & Hq & Hq'). rewrite Same, Hc, Hq.
      cbn [negb andb]. rewrite decide_True by exact I.
      cbn [app map]. rewrite Hid, IH1.
      split; [reflexivity|]. split; [constructor; assumption|exact IH3].
    + assert (Hf : negb (cooling now du a) && negb (quotaBlocked now a) = false).
      { rewrite Same. destruct C as [-> | ->]; [reflexivity|].
        destruct (cooling now du0 a); reflexivity. }
      rewrite Hf. rewrite decide_False by (intros []).
      cbn [app]. split; [exact IH1|]. split; [exact IH2|exact IH3].
Qed.

(** X20: the accounts selected for a request are, in their order, the
    accounts that are neither in a cooldown in force nor marked
    quota-exhausted with a window still open; no account selected is
    blocked by its quota; cooldowns in force stay in the table, and no
    entry is added to it. *)
Theorem selectEligible_sound accounts du :
  let '(eligible, du', calls) := selectEligible' accounts du in
  map id eligible
  = map id (filter (fun a => negb (cooling now du a) && negb (quotaBlocked now a))
              accounts)
  /\ Forall (fun a' => quotaBlocked now a' = false) eligible
  /\ du' ⊆ du
  /\ (forall k d, du !! k = Some d -> d <> 0 -> now < d -> du' !! k = Some d).
Proof.
  pose proof (selectEligible_from accounts du du (keepsCooldowns_refl du)) as S.
  destruct (selectEligible' accounts du) as [[eligible du'] calls].
  destruct S as (H1 & H2 & H3 & H4). repeat split; assumption.
Qed.

End Eligible.
End EligibleFacts.

Module DispatchFacts.
Import Js Proxy Observe.

Section Dispatcher.
Variable w : World.
Variable options : ProxyOptions.
Variable request : ChatRequest.

Local Abbreviation tokenCheck' := (tokenCheck w options).
Local Abbreviation ensureFreshToken' := (ensureFreshToken w options).
Local Abbreviation tryBlock' := (tryBlock w options request).
Local Abbreviation catchBlock' := (catchBlock w options request).
Local Abbreviation attempt' := (attempt w options request).
Local Abbreviation attempts' := (attempts w options request).









Local Abbreviation dispatch' := (dispatch w options request).

(** The accounts that a request can use: those with a refresh token that
    are neither cooling nor blocked by their quota when it arrives. *)
Local Abbreviation healthy server accountData :=
  (filter (fun a => negb (cooling (clock w 0) (disabledUntil server) a)
                    && negb (quotaBlocked (clock w 0) a))
     (filter (fun a => hasRefreshToken a = true) accountData)).



(** X22: when no account can be used, the request is answered 503
    without a call of the adapter: [No accounts available] when no account
    has a refresh token, [No healthy accounts available] otherwise. *)
Theorem dispatch_no_account server accountData messages :
  healthy server accountData = [] ->
  let st := dispatch' server accountData messages in
  ls_res st
  = sendJson freshRes 503
      (ErrorPayload
         (if (List.length (filter (fun a => hasRefreshToken a = true) accountData)
              =? 0)%nat
          then "No accounts available" else "No healthy accounts available")
         None)
  /\ ls_invoked st = [].
Proof.
  intros Hnone. cbv zeta. unfold dispatch.
  set (accounts := filter (fun a => hasRefreshToken a = true) accountData) in *.
  destruct (List.length accounts =? 0)%nat; [split; reflexivity|].
  pose proof (EligibleFacts.selectEligible_from options (clock w 0) accounts
                (disabledUntil server) (disabledUntil server)
                (EligibleFacts.keepsCooldowns_refl _ _)) as S.
  destruct (selectEligible options (clock w 0) accounts (disabledUntil server))
    as [[eligible du'] calls].
  destruct S as (Hids & _ & _). rewrite Hnone in Hids.
  destruct eligible; [|discriminate]. split; reflexivity.
Qed.

(** X23: when the token of the chosen account has to be refreshed and
    the refresh throws an error that carries a message and no status,
    the request is answered 502 with that message at once: the adapter is
    not called, no cooldown is set, and no other account is tried. *)
Theorem attempt_refresh_failure st account error :
  let n := List.length (ls_eligible st) in
  let i := (ls_rrIndex st mod n)%nat in
  ls_eligible st !! i = Some account ->
  fst (tokenCheck' (set_rrIndex st ((ls_rrIndex st + 1) mod n)%nat)
         (credentials account)) = true ->
  refreshAccountToken w account = Throw error ->
  err_status error = None ->
  nonEmpty (err_message error) = true ->
  responseStarted st = false ->
  exists st',
    attempt' st = Returned st'
    /\ ls_res st' = sendJson (ls_res st) 502 (ErrorPayload (err_message error) None)
    /\ ls_invoked st' = ls_invoked st
    /\ ls_disabledUntil st' = ls_disabledUntil st
    /\ ls_store st' = ls_store st.
Proof.
  cbv zeta. intros Hacc Hnear Hrefresh Hstatus Hmessage Hstarted.
  unfold attempt. rewrite Hacc.
  set (st0 := set_rrIndex st _) in *.
  unfold tryBlock, ensureFreshToken.
  pose proof (ProxyFacts.tokenCheck_state w options st0 (credentials account)) as T.
  cbv zeta in T. destruct T as (Hd & He & Hr & Hs & Hst & _ & Hi & _).
  destruct (tokenCheck' st0 (credentials account)) as [nearExpiry st1].
  cbn [fst snd] in *. subst nearExpiry. rewrite Hrefresh.
  unfold catchBlock. rewrite Hstatus.
  assert (Hnot : responseStarted (set_lastError st1 (err_message error)) = false).
  { unfold responseStarted in *. cbn [set_lastError ls_streamStarted ls_res].
    rewrite Hs, Hr. exact Hstarted. }
  rewrite Hnot. eexists. split; [reflexivity|].
  cbn [set_res set_lastError ls_res ls_invoked ls_disabledUntil ls_store].
  unfold orFallback. rewrite Hmessage, Hr, Hi, Hd, Hst. repeat split; reflexivity.
Qed.

End Dispatcher.

Lemma dispatch_no_account_witness :
  let st := Proxy.dispatch (Demo.world Demo.idleUnary Demo.idleStream) Demo.options
              (Demo.claudeRequest false) Demo.coolingServer [Demo.account "A"] Demo.hi in
  Proxy.ls_res st
  = Proxy.sendJson Proxy.freshRes 503
      (Proxy.ErrorPayload "No healthy accounts available" None)
  /\ Proxy.ls_invoked st = [].
Proof.
  apply (dispatch_no_account (Demo.world Demo.idleUnary Demo.idleStream)
           Demo.options (Demo.claudeRequest false) Demo.coolingServer
           [Demo.account "A"] Demo.hi).
  vm_compute. reflexivity.
Defined.

Lemma attempt_refresh_failure_witness :
  exists st',
    Proxy.attempt Demo.refreshFails Demo.options (Demo.claudeRequest false)
      (Demo.loopState [Demo.staleAccount "A"; Demo.account "B"] Demo.hi)
    = Proxy.Returned st'
    /\ Proxy.ls_res st'
       = Proxy.sendJson Proxy.freshRes 502 (Proxy.ErrorPayload "invalid_grant" None)
    /\ Proxy.ls_invoked st' = []
    /\ Proxy.ls_disabledUntil st' = ∅
    /\ Proxy.ls_store st' = [].
Proof.
  apply (attempt_refresh_failure Demo.refreshFails Demo.options
           (Demo.claudeRequest false)
           (Demo.loopState [Demo.staleAccount "A"; Demo.account "B"] Demo.hi)
           (Demo.staleAccount "A") (Js.plainError "invalid_grant"));
    reflexivity.
Defined.

End DispatchFacts.


(** ** Facts about authorization and routing *)

Module RouteFacts.
Import Js Proxy Observe.

Lemma prefix_split opening (s : string) :
  String.prefix opening s = true ->
  s = (opening ++ substringFrom (String.length opening) s)%string.
Proof.
  unfold substringFrom. revert s. induction opening as [|c opening IH]; intros s.
  - intros _. cbn [String.length]. rewrite Nat.sub_0_r.
    rewrite StringFacts.substring_all. reflexivity.
  - destruct s as [|d s]; simpl; [discriminate|].
    destruct (ascii_dec c d) as [->|]; [|discriminate].
    intros H. change (String d opening ++ ?x) with (String d (opening ++ x)).
    f_equal. apply IH. exact H.
Qed.

Lemma bearer_token key (authHeader : string) :
  nonEmpty key = true ->
  ((if String.prefix "Bearer " authHeader then substringFrom 7 authHeader else "")
   =? key)%string = true
  <-> authHeader = ("Bearer " ++ key)%string.
Proof.
  intros Hk. split.
  - destruct (String.prefix "Bearer " authHeader) eqn:Hp.
    + intros E. apply String.eqb_eq in E. rewrite <- E.
      apply (prefix_split "Bearer " authHeader Hp).
    + intros E. apply String.eqb_eq in E. subst key. discriminate.
  - intros ->.
    replace (String.prefix "Bearer " ("Bearer " ++ key)) with true.
    + change 7%nat with (String.length "Bearer ").
      rewrite StringFacts.substringFrom_app. apply String.eqb_refl.
    + symmetry. apply StringFacts.prefix_app.
      apply String.prefix_correct. reflexivity.
Qed.

(** X24: with a key configured, a request is authorized exactly when its
    [authorization] header is [Bearer ] followed by the key, or its
    [x-api-key] header is the key; with no key, or an empty one, every
    request is. *)
Theorem isAuthorized_iff req apiKey :
  isAuthorized req apiKey = true
  <-> match apiKey with
      | Some key =>
          nonEmpty key = true ->
          authorization req = Some ("Bearer " ++ key)%string
          \/ x_api_key req = Some key
      | None => True
      end.
Proof.
  unfold isAuthorized. destruct apiKey as [key|]; [|tauto].
  destruct (nonEmpty key) eqn:Hk; cbn [negb].
  2:{ split; [intros _ H; discriminate H|reflexivity]. }
  rewrite orb_true_iff, (bearer_token key _ Hk), String.eqb_eq.
  assert (Hne : key <> "") by (intros ->; discriminate).
  unfold orEmpty. split.
  - intros [H|H] _.
    + destruct (authorization req) as [h|]; [left; f_equal; exact H|].
      destruct key; discriminate.
    + destruct (x_api_key req) as [h|]; [right; f_equal; exact H|].
      contradiction Hne. symmetry. exact H.
  - intros H. destruct (H eq_refl) as [E|E]; rewrite E; [left|right]; reflexivity.
Qed.

(** X25: a request reaches the dispatcher only as an authorized [POST]
    of [/v1/chat/completions] or [/v1/messages] whose body parses, and
    is told apart by its path. *)
Theorem route_dispatch apiKey bodyParses req isOpenAI :
  route apiKey bodyParses req = Dispatch isOpenAI ->
  method req = "POST"
  /\ isAuthorized req apiKey = true
  /\ bodyParses = true
  /\ pathname req = (if isOpenAI then "/v1/chat/completions" else "/v1/messages").
Proof.
  intros H. unfold route, guarded in H.
  repeat match type of H with
         | context [if ?b then _ else _] =>
             lazymatch b with
             | context [if _ then _ else _] => fail
             | _ => destruct b eqn:?
             end
         end; try discriminate H.
  injection H as <-.
  repeat match goal with
         | E : negb _ = false |- _ => apply negb_false_iff in E
         end.
  match goal with
  | E : (method req =? "POST")%string = true |- _ => apply String.eqb_eq in E
  end.
  match goal with
  | E : negb _ && negb _ = false |- _ => rename E into Epath
  end.
  repeat split; try assumption.
  destruct (String.eqb_spec (pathname req) "/v1/chat/completions") as [Eo|_];
    [exact Eo|].
  destruct (String.eqb_spec (pathname req) "/v1/messages") as [Ec|_];
    [exact Ec|discriminate Epath].
Qed.

Lemma route_dispatch_witness :
  Proxy.method (Proxy.mkRequest "POST" "/v1/messages" (Some "Bearer secret") None)
  = "POST"
  /\ Proxy.isAuthorized
       (Proxy.mkRequest "POST" "/v1/messages" (Some "Bearer secret") None)
       (Some "secret") = true
  /\ true = true
  /\ Proxy.pathname (Proxy.mkRequest "POST" "/v1/messages" (Some "Bearer secret") None)
     = "/v1/messages".
Proof.
  apply (route_dispatch (Some "secret") true
           (Proxy.mkRequest "POST" "/v1/messages" (Some "Bearer secret") None) false).
  reflexivity.
Defined.

End RouteFacts.


(** ** Facts about the multipart parser *)

Module MultipartFacts.
Import Js Multipart.

(** Cutting texts. *)
Lemma substringFrom_0 (s : string) : substringFrom 0 s = s.
Proof. unfold substringFrom. rewrite Nat.sub_0_r. apply StringFacts.substring_all. Qed.

Lemma substringFrom_S a (s : string) n :
  substringFrom (S n) (String a s) = substringFrom n s.
Proof. reflexivity. Qed.

Lemma substringFrom_split (s : string) : forall a b,
  (a <= b <= String.length s)%nat ->
  substringFrom a s = (slice a b s ++ substringFrom b s)%string.
Proof.
  induction s as [|x s IH]; intros a b [Hab Hb].
  - cbn [String.length] in Hb. replace b with 0%nat by lia. replace a with 0%nat by lia.
    reflexivity.
  - destruct a as [|a].
    + destruct b as [|b]; [reflexivity|].
      rewrite substringFrom_0, substringFrom_S. unfold slice.
      cbn [String.length] in Hb. cbn [Nat.sub String.substring].
      change (String x ?u ++ ?v) with (String x (u ++ v)). f_equal.
      rewrite <- (substringFrom_0 s) at 1.
      rewrite (IH 0%nat b ltac:(lia)). unfold slice. rewrite Nat.sub_0_r. reflexivity.
    + destruct b as [|b]; [lia|]. rewrite !substringFrom_S.
      cbn [String.length] in Hb. rewrite (IH a b ltac:(lia)). reflexivity.
Qed.

Lemma substring_inside (s : string) : forall a k p m,
  (p + m <= k)%nat ->
  String.substring p m (String.substring a k s) = String.substring (a + p) m s.
Proof.
  induction s as [|x s IH]; intros a k p m H.
  - destruct a, k, p, m; reflexivity.
  - destruct a as [|a]; [|cbn [String.substring Nat.add]; apply IH; exact H].
    destruct k as [|k].
    + replace p with 0%nat by lia. replace m with 0%nat by lia. reflexivity.
    + cbn [String.substring Nat.add]. destruct p as [|p].
      * destruct m as [|m]; [reflexivity|]. cbn [String.substring]. f_equal.
        apply (IH 0%nat). lia.
      * cbn [String.substring]. apply (IH 0%nat). lia.
Qed.

(** [indexOf] from a position is [indexOf] in the text from it. *)
Lemma indexOf_skip pat (s : string) : forall start,
  (start <= String.length s)%nat ->
  indexOf pat start s
  = match indexOf pat 0 (substringFrom start s) with
    | Some k => Some (start + k)%nat
    | None => None
    end.
Proof.
  unfold indexOf. induction s as [|x s IH]; intros start Hs.
  - cbn [String.length] in Hs. replace start with 0%nat by lia.
    cbn. destruct pat; reflexivity.
  - destruct start as [|start].
    + rewrite substringFrom_0. destruct (String.index 0 pat (String x s)); reflexivity.
    + rewrite substringFrom_S. cbn [String.index]. cbn [String.length] in Hs.
      rewrite (IH start ltac:(lia)).
      destruct (String.index 0 pat (substringFrom start s)); reflexivity.
Qed.

Section Split.
Variable buffer : string.
Variable c : ascii.
Variable rest : string.

Local Abbreviation delimiter := (String c rest).
Local Abbreviation loop := (splitBuffer_loop buffer c rest).

(** The body of the loop of [splitBuffer]. *)
Lemma splitBuffer_loop_unfold start parts :
  loop start parts =
  match indexOf delimiter start buffer with
  | None => (parts ++ [substringFrom start buffer])%list
  | Some index =>
      loop (index + String.length delimiter) (parts ++ [slice start index buffer])%list
  end.
Proof.
  funelim (loop start parts);
    repeat match goal with
           | H : _ = _ |- _ => rewrite H
           end; reflexivity.
Qed.

Lemma splitBuffer_loop_parts budget : forall start parts,
  (String.length buffer - start < budget)%nat ->
  loop start parts = (parts ++ loop start [])%list.
Proof.
  induction budget as [|budget IH]; intros start parts Hb; [lia|].
  rewrite (splitBuffer_loop_unfold start parts), (splitBuffer_loop_unfold start []).
  destruct (indexOf delimiter start buffer) as [index|] eqn:E; [|reflexivity].
  apply indexOf_inside in E as (Hle & Hlen & _).
  assert (Hd : (String.length buffer - (index + String.length delimiter) < budget)%nat)
    by (cbn [String.length] in *; lia).
  rewrite (IH _ (parts ++ [slice start index buffer])%list Hd).
  rewrite (IH _ ([] ++ [slice start index buffer])%list Hd).
  rewrite <- app_assoc. reflexivity.
Qed.

(** The loop from [start]: the part up to the next delimiter and the
    parts after it, or the rest of the buffer. *)
Lemma splitBuffer_loop_next start :
  loop start [] =
  match indexOf delimiter start buffer with
  | None => [substringFrom start buffer]
  | Some index =>
      slice start index buffer :: loop (index + String.length delimiter) []
  end.
Proof.
  rewrite splitBuffer_loop_unfold.
  destruct (indexOf delimiter start buffer) as [index|]; [|reflexivity].
  apply (splitBuffer_loop_parts (S (String.length buffer))). lia.
Qed.

Lemma splitBuffer_loop_not_nil start : loop start [] <> [].
Proof.
  rewrite splitBuffer_loop_next. destruct (indexOf delimiter start buffer); discriminate.
Qed.

Lemma splitBuffer_loop_join budget : forall start,
  (String.length buffer - start < budget)%nat ->
  (start <= String.length buffer)%nat ->
  String.concat delimiter (loop start []) = substringFrom start buffer.
Proof.
  induction budget as [|budget IH]; intros start Hb Hs; [lia|].
  rewrite splitBuffer_loop_next.
  destruct (indexOf delimiter start buffer) as [index|] eqn:E; [|reflexivity].
  apply indexOf_inside in E as (Hle & Hlen & Hd).
  pose proof (splitBuffer_loop_not_nil (index + String.length delimiter)) as Hne.
  specialize (IH (index + String.length delimiter)%nat
                ltac:(cbn [String.length] in *; lia) Hlen).
  destruct (loop (index + String.length delimiter) []) as [|p ps] eqn:El;
    [contradiction|].
  change (String.concat delimiter (slice start index buffer :: p :: ps))
    with (slice start index buffer ++ delimiter ++ String.concat delimiter (p :: ps))%string.
  rewrite IH.
  rewrite (substringFrom_split buffer start index ltac:(cbn [String.length] in *; lia)).
  rewrite (substringFrom_split buffer index (index + String.length delimiter)
             ltac:(cbn [String.length] in *; lia)).
  rewrite Hd. reflexivity.
Qed.

Lemma splitBuffer_loop_free budget : forall start,
  (String.length buffer - start < budget)%nat ->
  (start <= String.length buffer)%nat ->
  Forall (fun part => indexOf delimiter 0 part = None) (loop start []).
Proof.
  induction budget as [|budget IH]; intros start Hb Hs; [lia|].
  rewrite splitBuffer_loop_next.
  destruct (indexOf delimiter start buffer) as [index|] eqn:E.
  - pose proof (indexOf_inside _ _ _ _ _ E) as (Hle & Hlen & Hd).
    constructor; [|apply IH; [cbn [String.length] in *; lia|exact Hlen]].
    destruct (indexOf delimiter 0 (slice start index buffer)) as [p|] eqn:Ep;
      [|reflexivity].
    exfalso. pose proof (indexOf_inside _ _ _ _ _ Ep) as (_ & Hp & Hfound).
    unfold slice in Hp, Hfound.
    pose proof (substring_length buffer start (index - start)) as L.
    assert (Hin : (p + String.length delimiter <= index - start)%nat).
    { revert Hp. generalize (String.length delimiter). intros n Hp.
      assert (String.length (String.substring start (index - start) buffer)
              <= index - start)%nat; [|lia].
      clear. generalize (index - start)%nat. intros k. revert start k.
      induction buffer as [|x s IHs]; intros [|a] [|k]; cbn; try lia.
      - specialize (IHs 0%nat k). lia.
      - apply IHs.
      - apply IHs. }
    replace (p + String.length delimiter - p)%nat
      with (String.length delimiter) in Hfound by lia.
    rewrite substring_inside in Hfound by exact Hin.
    unfold indexOf in E.
    apply (String.index_correct2 _ _ _ _ E (start + p)%nat); [lia| |exact Hfound].
    cbn [String.length] in *. lia.
  - constructor; [|constructor].
    rewrite (indexOf_skip delimiter buffer start Hs) in E.
    destruct (indexOf delimiter 0 (substringFrom start buffer)); [discriminate|reflexivity].
Qed.

End Split.

(** X26: [splitBuffer] cuts the buffer at the occurrences of the
    delimiter, from the left: the parts joined by the delimiter are the
    buffer again, there is at least one part, and the delimiter occurs
    in no part. *)
Theorem splitBuffer_join buffer delimiter parts :
  splitBuffer buffer delimiter = Some parts ->
  String.concat delimiter parts = buffer
  /\ parts <> []
  /\ Forall (fun part => indexOf delimiter 0 part = None) parts.
Proof.
  unfold splitBuffer. destruct delimiter as [|c rest]; [discriminate|].
  intros [= <-]. split; [|split].
  - rewrite (splitBuffer_loop_join buffer c rest (S (String.length buffer)))
      by lia.
    apply substringFrom_0.
  - apply splitBuffer_loop_not_nil.
  - apply (splitBuffer_loop_free buffer c rest (S (String.length buffer))); lia.
Qed.

Lemma substring_app_inside (x y : string) : forall p m,
  (p + m <= String.length x)%nat ->
  String.substring p m (x ++ y) = String.substring p m x.
Proof.
  induction x as [|a x IH]; intros p m H.
  - cbn [String.length] in H. replace p with 0%nat by lia. replace m with 0%nat by lia.
    destruct y; reflexivity.
  - change (String a x ++ y) with (String a (x ++ y)). cbn [String.length] in H.
    destruct p as [|p].
    + destruct m as [|m]; [reflexivity|]. cbn [String.substring]. f_equal.
      apply IH. lia.
    + cbn [String.substring]. apply IH. lia.
Qed.

(** What [indexOf] finds first in a text, it finds first in the text
    continued. *)
Lemma indexOf_app (c : ascii) (rest x y : string) k :
  indexOf (String c rest) 0 x = Some k ->
  indexOf (String c rest) 0 (x ++ y) = Some k.
Proof.
  intros E. pose proof (indexOf_inside _ _ _ _ _ E) as (_ & Hlen & Hd).
  unfold slice in Hd.
  replace (k + String.length (String c rest) - k)%nat
    with (String.length (String c rest)) in Hd by lia.
  unfold indexOf in *.
  destruct (String.index 0 (String c rest) (x ++ y)) as [j|] eqn:Ej.
  - f_equal. destruct (Nat.lt_trichotomy j k) as [Hlt|[Heq|Hgt]]; [|exact Heq|].
    + exfalso. pose proof (String.index_correct1 _ _ _ _ Ej) as Hj.
      rewrite substring_app_inside in Hj by lia.
      apply (String.index_correct2 _ _ _ _ E j); [lia|exact Hlt|exact Hj].
    + exfalso.
      apply (String.index_correct2 _ _ _ _ Ej k); [lia|exact Hgt|].
      rewrite substring_app_inside by lia. exact Hd.
  - exfalso.
    apply (String.index_correct3 0 k _ _ Ej); [discriminate|lia|].
    rewrite substring_app_inside by lia. exact Hd.
Qed.

Lemma slice_app (a b y : string) :
  slice (String.length a) (String.length a + String.length b) (a ++ b ++ y) = b.
Proof.
  unfold slice.
  replace (String.length a + String.length b - String.length a)%nat
    with (String.length b) by lia.
  rewrite StringFacts.substring_skip. apply StringFacts.substring_app_l.
Qed.

(** X27: of a body that holds one part between two delimiters, the part
    being a head, an empty line, the content and a line break,
    [parseMultipart] answers one file, under the name that the head
    gives, with exactly the content, whatever its bytes, provided the
    delimiter does not occur in the part or astride its end, nor after
    the closing delimiter, the head is of seven-bit characters and
    holds no empty line, and the name is not [__proto__]. *)
Theorem parseMultipart_one_part boundary head content trailer name filename :
  let delimiter := ("--" ++ boundary)%string in
  let part := (head ++ CRLF ++ CRLF ++ content ++ CRLF)%string in
  indexOf delimiter 0 (part ++ delimiter) = Some (String.length part) ->
  indexOf delimiter 0 trailer = None ->
  Observe.sevenBit head = true ->
  indexOf (CRLF ++ CRLF) 0 (head ++ CRLF ++ CRLF) = Some (String.length head) ->
  quotedMatch "name" head = Some name ->
  quotedMatch "filename" head = Some filename ->
  name <> "__proto__" ->
  parseMultipart (delimiter ++ part ++ delimiter ++ trailer) boundary
  = {[ name := mkFile filename content
                 (match contentTypeMatch head with
                  | Some contentType => contentType
                  | None => "application/octet-stream"
                  end) ]}.
Proof.
  cbv zeta. set (delimiter := ("--" ++ boundary)%string).
  set (part := (head ++ CRLF ++ CRLF ++ content ++ CRLF)%string).
  intros Hpart Htrailer _ Hhead Hname Hfile Hproto.
  apply String.eqb_neq in Hproto.
  assert (Ed : delimiter = String "-" ("-" ++ boundary)) by reflexivity.
  set (body := (delimiter ++ part ++ delimiter ++ trailer)%string).
  assert (First : indexOf delimiter 0 body = Some 0%nat).
  { apply (StringFacts.indexOf_here delimiter "" body); [rewrite Ed; discriminate|].
    unfold body. apply StringFacts.prefix_app.
    apply String.prefix_correct. apply StringFacts.substring_all. }
  assert (Second : indexOf delimiter (String.length delimiter) body
                   = Some (String.length delimiter + String.length part)%nat).
  { rewrite indexOf_skip by (unfold body; rewrite !StringFacts.length_append; lia).
    unfold body. rewrite StringFacts.substringFrom_app.
    replace (part ++ delimiter ++ trailer)%string
      with ((part ++ delimiter) ++ trailer)%string
      by apply StreamFacts.append_assoc.
    rewrite Ed in Hpart |- *. rewrite (indexOf_app _ _ _ _ _ Hpart). reflexivity. }
  assert (Third : indexOf delimiter
                    (String.length delimiter + String.length part
                     + String.length delimiter) body = None).
  { assert (Eb : body = ((delimiter ++ part ++ delimiter) ++ trailer)%string)
      by (unfold body; rewrite !StreamFacts.append_assoc; reflexivity).
    assert (El : (String.length delimiter + String.length part
                  + String.length delimiter)%nat
                 = String.length (delimiter ++ part ++ delimiter))
      by (rewrite !StringFacts.length_append; lia).
    rewrite El, Eb.
    rewrite indexOf_skip by (rewrite !StringFacts.length_append; lia).
    rewrite StringFacts.substringFrom_app, Htrailer. reflexivity. }
  unfold parseMultipart. fold delimiter. fold body.
  rewrite Ed in First, Second, Third.
  rewrite splitBuffer_loop_next, First.
  change (0 + String.length (String "-" ("-" ++ boundary)))%nat
    with (String.length (String "-" ("-" ++ boundary))).
  rewrite splitBuffer_loop_next, Second.
  rewrite splitBuffer_loop_next, Third.
  rewrite <- Ed.
  replace (slice (String.length delimiter)
             (String.length delimiter + String.length part) body) with part
    by (symmetry; apply slice_app).
  cbn [tail removelast fold_left].
  unfold parsePart.
  assert (Blank : indexOf (CRLF ++ CRLF) 0 part = Some (String.length head)).
  { unfold part.
    replace (head ++ CRLF ++ CRLF ++ content ++ CRLF)%string
      with ((head ++ CRLF ++ CRLF) ++ content ++ CRLF)%string
      by (rewrite !StreamFacts.append_assoc; reflexivity).
    exact (indexOf_app _ _ _ _ _ Hhead). }
  rewrite Blank.
  replace (slice 0 (String.length head) part) with head
    by (unfold slice, part; rewrite Nat.sub_0_r;
        symmetry; apply StringFacts.substring_app_l).
  rewrite Hname, Hfile, Hproto.
  replace (slice (String.length head + 4) (String.length part - 2) part) with content;
    [reflexivity|].
  unfold part.
  replace (head ++ CRLF ++ CRLF ++ content ++ CRLF)%string
    with ((head ++ CRLF ++ CRLF) ++ content ++ CRLF)%string
    by (rewrite <- !StreamFacts.append_assoc; reflexivity).
  replace (String.length head + 4)%nat with (String.length (head ++ CRLF ++ CRLF))
    by (rewrite !StringFacts.length_append; reflexivity).
  replace (String.length ((head ++ CRLF ++ CRLF) ++ content ++ CRLF) - 2)%nat
    with (String.length (head ++ CRLF ++ CRLF) + String.length content)%nat
    by (rewrite !StringFacts.length_append; cbn [String.length CRLF]; lia).
  symmetry. apply slice_app.
Qed.

Lemma splitBuffer_join_witness :
  String.concat "--" ["a"; "b"; "c"] = "a--b--c"
  /\ ["a"; "b"; "c"] <> []
  /\ Forall (fun part => indexOf "--" 0 part = None) ["a"; "b"; "c"].
Proof.
  apply (splitBuffer_join "a--b--c" "--" ["a"; "b"; "c"]).
  reflexivity.
Defined.

Lemma parseMultipart_one_part_witness :
  Multipart.parseMultipart Demo.uploadBody "XYZ"
  = {[ "tokenFile" := Multipart.mkFile "token.json" "{}" "application/json" ]}.
Proof.
  apply (parseMultipart_one_part "XYZ"
           (Multipart.CRLF ++ Demo.uploadHead) "{}" ("--" ++ Multipart.CRLF)
           "tokenFile" "token.json"); (reflexivity || discriminate).
Defined.

End MultipartFacts.


(** ** Facts about the chunks of the OpenAI endpoint *)

Module OpenAIFacts.
Import Js Kiro Observe OpenAI.

Section Convert.
Variable now : Z.
Variable numberToString : Z -> string.

Local Abbreviation convert :=
  (convertClaudeStreamChunkToOpenAIChunks now numberToString).
Local Abbreviation convertStream' := (convertStream now numberToString).

Lemma toolId_prefix id name :
  String.prefix "call_" (toolId now numberToString id name) = true.
Proof.
  unfold toolId. destruct (String.prefix "call_" id) eqn:E; [exact E|].
  apply StringFacts.prefix_app. reflexivity.
Qed.

(** X28: the chunks of the OpenAI endpoint: each chunk of the adapter
    gives one chunk, with the identifier, the time and the model of the
    stream; the text of the chunks is the text of the text deltas, in
    order; and the identifier of a tool call starts with [call_]. *)
Theorem convertStream_chunks chunks model openaiId created :
  nonEmpty openaiId = true -> created <> 0 ->
  let converted := convertStream' chunks model openaiId created in
  List.length converted = List.length chunks
  /\ Forall (fun chunk =>
               chunk_id chunk = openaiId /\ chunk_created chunk = created
               /\ chunk_model chunk = model
               /\ match toolCallId chunk with
                  | Some id => String.prefix "call_" id = true
                  | None => True
                  end) converted
  /\ contentText converted = emittedText chunks.
Proof.
  intros Hid Hc. cbv zeta. unfold convertStream.
  apply Z.eqb_neq in Hc.
  induction chunks as [|chunk chunks (IHl & IHf & IHt)]; cbn [map concat].
  - split; [reflexivity|]. split; [constructor|reflexivity].
  - assert (One : exists single,
               convert chunk model openaiId created = [single]
               /\ chunk_id single = openaiId /\ chunk_created single = created
               /\ chunk_model single = model
               /\ match toolCallId single with
                  | Some id => String.prefix "call_" id = true
                  | None => True
                  end
               /\ deltaText single
                  = match chunk with
                    | ContentBlockDeltaText _ text => text
                    | _ => ""
                    end).
    { unfold convertClaudeStreamChunkToOpenAIChunks. rewrite Hid, Hc.
      destruct chunk; eexists; (split; [reflexivity|]);
        unfold deltaText;
        cbn [chunk_id chunk_created chunk_model chunk_delta toolCallId];
        repeat split; try reflexivity. apply toolId_prefix. }
    destruct One as (single & -> & H1 & H2 & H3 & H4 & H5).
    cbn [app List.length]. split; [rewrite IHl; reflexivity|].
    split; [constructor; [repeat split; assumption|exact IHf]|].
    cbn [contentText]. rewrite H5, IHt. destruct chunk; reflexivity.
Qed.

Lemma convertStream_open chunks model openaiId created :
  Forall (fun chunk => endsMessage chunk = false) chunks ->
  map chunk_finish_reason (convertStream' chunks model openaiId created)
  = replicate (List.length chunks) None.
Proof.
  unfold convertStream. induction 1 as [|chunk chunks Hc _ IH]; [reflexivity|].
  cbn [map concat List.length replicate]. rewrite map_app, IH.
  destruct chunk; try discriminate Hc; reflexivity.
Qed.

(** X29: the chunks made of a complete stream of the adapter carry a
    finish reason in the last two only: [stop] or [tool_calls], then
    [stop]. *)
Theorem convertStream_finish chunks model openaiId created :
  anthropicSequence chunks ->
  exists reason,
    map chunk_finish_reason (convertStream' chunks model openaiId created)
    = (replicate (List.length chunks - 2) None ++ [Some reason; Some "stop"])%list
    /\ (reason = "stop" \/ reason = "tool_calls").
Proof.
  intros (mid & m & inputTokens & outputTokens & deltas & blocks & ->).
  set (reason := match blocks with [] => "end_turn" | _ => "tool_use" end).
  set (front := ([MessageStart mid m inputTokens; ContentBlockStartText 0]
                 ++ map (ContentBlockDeltaText 0) deltas
                 ++ [ContentBlockStop 0] ++ toolUseTriples 1 blocks)%list).
  assert (Open : map chunk_finish_reason (convertStream' front model openaiId created)
                 = replicate (List.length front) None).
  { apply convertStream_open. unfold front.
    repeat (apply Forall_app; split); try (repeat constructor).
    - induction deltas; constructor; [reflexivity|assumption].
    - generalize 1%nat.
      induction blocks as [|[[id name] args] blocks IH]; intros i; [constructor|].
      cbn [toolUseTriples toolUseTriple app]. repeat constructor. apply IH. }
  exists (finishReason reason). split.
  - replace ([MessageStart mid m inputTokens; ContentBlockStartText 0]
             ++ map (ContentBlockDeltaText 0) deltas ++ [ContentBlockStop 0]
             ++ toolUseTriples 1 blocks
             ++ [MessageDelta reason outputTokens; MessageStop])%list
      with (front ++ [MessageDelta reason outputTokens; MessageStop])%list
      by (unfold front; rewrite <- !app_assoc; reflexivity).
    unfold convertStream in *. rewrite map_app, concat_app, map_app, Open.
    rewrite length_app. cbn [List.length].
    replace (List.length front + 2 - 2)%nat with (List.length front) by lia.
    reflexivity.
  - unfold reason. destruct blocks; [left|right]; reflexivity.
Qed.

End Convert.

Lemma convertStream_chunks_witness :
  let converted :=
    OpenAI.convertStream Demo.now (fun _ => "0")
      [MessageStart "msg_1" "claude-opus-4-5" 2; ContentBlockStartText 0;
       ContentBlockDeltaText 0 "a"; ContentBlockDeltaText 0 "b"]
      "claude-opus-4-5" "chatcmpl-1" 1794744000 in
  List.length converted = 4%nat
  /\ Observe.contentText converted = "ab".
Proof.
  destruct (convertStream_chunks Demo.now (fun _ => "0")
              [MessageStart "msg_1" "claude-opus-4-5" 2; ContentBlockStartText 0;
               ContentBlockDeltaText 0 "a"; ContentBlockDeltaText 0 "b"]
              "claude-opus-4-5" "chatcmpl-1" 1794744000 eq_refl)
    as (Hlength & _ & Htext); [discriminate|].
  split; [exact Hlength|exact Htext].
Defined.

Lemma convertStream_finish_witness :
  exists reason,
    map OpenAI.chunk_finish_reason
      (OpenAI.convertStream Demo.now (fun _ => "0")
         [MessageStart "msg_1" "claude-opus-4-5" 2; ContentBlockStartText 0;
          ContentBlockDeltaText 0 "a"; ContentBlockStop 0;
          MessageDelta "end_turn" 1; MessageStop]
         "claude-opus-4-5" "chatcmpl-1" 1794744000)
    = [None; None; None; None; Some reason; Some "stop"]
    /\ (reason = "stop" \/ reason = "tool_calls").
Proof.
  apply (convertStream_finish Demo.now (fun _ => "0")
           [MessageStart "msg_1" "claude-opus-4-5" 2; ContentBlockStartText 0;
            ContentBlockDeltaText 0 "a"; ContentBlockStop 0;
            MessageDelta "end_turn" 1; MessageStop]
           "claude-opus-4-5" "chatcmpl-1" 1794744000).
  exists "msg_1", "claude-opus-4-5", 2, 1, ["a"], []. reflexivity.
Defined.

End OpenAIFacts.

(** ** Bounds of the monthly reset *)

Module DateBounds.

Import JsDate JsDateFacts.

(** A month has at most 31 days. *)
Lemma startDay_step i : startDay (i + 1) <= startDay i + 31.
Proof.
  unfold startDay, MakeDay. cbn zeta.
  assert (Hm : 0 <= i mod 12 < 12) by (apply Z.mod_pos_bound; lia).
  destruct (Z.eq_dec (i mod 12) 11) as [E|E].
  - replace ((i + 1) / 12) with (i / 12 + 1) by (Z.div_mod_to_equations; lia).
    replace ((i + 1) mod 12) with 0 by (Z.div_mod_to_equations; lia).
    rewrite E, !Z.add_0_l.
    rewrite DayFromYear_succ.
    pose proof (InLeapYear_range (i / 12)).
    eval_monthStart. lia.
  - replace ((i + 1) / 12) with (i / 12) by (Z.div_mod_to_equations; lia).
    replace ((i + 1) mod 12) with (i mod 12 + 1)
      by (Z.div_mod_to_equations; lia).
    rewrite !Z.add_0_l.
    pose proof (InLeapYear_range (i / 12)).
    assert (C : i mod 12 = 0 \/ i mod 12 = 1 \/ i mod 12 = 2 \/ i mod 12 = 3 \/
                i mod 12 = 4 \/ i mod 12 = 5 \/ i mod 12 = 6 \/ i mod 12 = 7 \/
                i mod 12 = 8 \/ i mod 12 = 9 \/ i mod 12 = 10) by lia.
    repeat destruct C as [C|C]; rewrite C; eval_monthStart; lia.
Qed.

(** X30: the time that [getNextMonthStartMs] answers, which is the end
    of the cooldown of an account whose quota is exhausted, lies after
    [now] and at most 31 days after it, and is midnight of a first day of
    a month in local time. *)
Theorem getNextMonthStartMs_within_31_days (tza now : Z) :
  0 <= now + tza ->
  let resetAt := getNextMonthStartMs tza now in
  now < resetAt <= now + 31 * msPerDay
  /\ getDate tza resetAt = 1
  /\ TimeWithinDay (LocalTime tza resetAt) = 0.
Proof.
  intros Hpos. cbv zeta.
  destruct (getNextMonthStartMs_first_ms tza now Hpos) as (Hlt & _ & Hdate & Htime & _).
  pose proof (getNextMonthStartMs_local tza now Hpos) as Hr.
  pose proof (month_bracket (LocalTime tza now)) as [Hlo _].
  pose proof (startDay_step (monthIndex (LocalTime tza now))) as Hstep.
  split; [|split; assumption]. split; [exact Hlt|].
  assert (Hday : Day (LocalTime tza now) * msPerDay <= LocalTime tza now).
  { unfold Day, msPerDay. Z.div_mod_to_equations. lia. }
  unfold LocalTime in *. unfold msPerDay in *. nia.
Qed.

Lemma getNextMonthStartMs_within_31_days_witness :
  let resetAt := getNextMonthStartMs 0 Demo.now in
  Demo.now < resetAt <= Demo.now + 31 * JsDate.msPerDay
  /\ JsDate.getDate 0 resetAt = 1
  /\ JsDate.TimeWithinDay (JsDate.LocalTime 0 resetAt) = 0.
Proof.
  apply (getNextMonthStartMs_within_31_days 0 Demo.now).
  vm_compute. discriminate.
Defined.

End DateBounds.

